(* ===== verification/_CoqProject ===== *)
-Q . S2P
Spec2Rocq.v
Dates.v
Query.v
Store.v
Expenses.v
Budgets.v
Ledger.v
Reconciler.v
Goals.v
Auth.v
Email.v
Advice.v
Reads.v
Pool.v
Server.v
