(* ===== verification/Spec2Rocq.v ===== *)
(** * A verification development for the Plan-Wise personal-finance backend

    The program (TypeScript, Express + MySQL, under src/src/) is a REST API:
    users register and verify their e-mail with a one-time code
    (services/authService.ts, routes/auth.ts), log expenses
    (routes/expenses.ts), keep one budget per user, category and month
    (routes/budgets.ts), track savings goals (routes/goals.ts), and store
    advice texts produced by an external text generator (routes/ai.ts,
    services/geminiService.ts).  Every handler talks to one MySQL database
    through [database.query] (config/database.ts), one statement at a time,
    with no transaction around the statements of a handler.

    The components interact only through the database: the expense handlers
    keep the derived column [budgets.current_spent] in step with the
    expense rows (an UPDATE ... SET current_spent = current_spent + ? per
    lifecycle event), and the budget handler back-fills that column from the
    expense rows when a budget is created.  This reconciliation is the heart
    of the program and the heart of this development.

    ** Files (in dependency order, as in _CoqProject)

    - [Spec2Rocq] (this file): the prelude.  The result type [result] of a
      handler with the HTTP-level errors of the code, a state-and-error monad
      [SE] with its notation [x <- c ;; k] in [pw_scope] (a handler that
      fails keeps the writes it already made: there is no rollback), sums
      [zsum] and [map_zsum] of integer columns over lists and gmaps with
      their insert/delete lemmas, the hint database [pw] and the tactics
      the component files share.
    - [Dates]: calendar dates, [new Date(x).toISOString().slice(0, 7)] for
      the two sources of dates in the code (a request string, parsed as UTC,
      and a DATE column returned by mysql2 as a local-midnight [Date]), the
      "YYYY-MM" month keys and the [validateBudget] pattern.
    - [Store]: the rows of the tables as records, the database as one record
      of gmaps with per-table AUTO_INCREMENT counters, and the SQL
      statements the handlers run (parameter binding, INSERT with foreign
      keys, UPDATE ... WHERE over every matching row, DELETE, SUM).
    - [Expenses]: the handlers of routes/expenses.ts (create, read, update,
      delete) composed from [Store]'s statements exactly as the code
      sequences them.
    - [Budgets]: the handlers of routes/budgets.ts (create with back-fill and
      ON DUPLICATE KEY UPDATE, update, delete).
    - [Ledger]: the reconciliation invariant ([current_spent] of each budget
      row is the sum of the matching expenses), its preservation by every
      expense and budget handler, the exact amounts each handler moves, and
      the counterexamples where the code breaks it (a server east of UTC,
      PUT /budgets/:id).
    - [Reconciler]: the reconciler of spec section 4.1 as an abstract
      machine ([a_step] over the expense ledger and the budget rows, with
      the one adjustment operation [apply_delta] of the spec's design notes),
      the abstraction [alpha] of the database, and the simulation of the
      state-changing expense and budget handlers by that machine.
    - [Goals]: the handlers of routes/goals.ts, the progress state machine
      and the lost update of two interleaved progress requests.
    - [Auth]: the users table and services/authService.ts (register,
      verifyOTP, login, resendOTP, requestPasswordReset, resetPassword,
      generateOTP, generateJWT, verifyToken), the routes of routes/auth.ts
      with validateRegistration and validateLogin, the invariant of the
      users table over every sequence of account operations, and the life
      of a one-time code (accepted once, before its expiry, for either
      purpose).
    - [Email]: services/emailService.ts: the three senders over the list
      of messages the transporter accepted (recipient, subject, template,
      the code or name the template interpolates), with what a refused
      delivery does; [Auth.send_mail] answers as the senders do.
    - [Query]: what the list routes do with a query string: JavaScript's
      [parseInt] (spaces, sign, the 0x prefix, NaN as [None]), the [||]
      fallback, the [Math.max]/[Math.min] clamp of GET /expenses, the
      decimal printer of the [LIMIT]/[OFFSET] literals and MySQL's reading
      of them, [LIMIT n OFFSET k] on a list, and a stable insertion sort
      [sort_by] standing for [ORDER BY] and [Array.prototype.sort].
    - [Advice]: routes/ai.ts and services/geminiService.ts: the financial
      data the advice is computed from ([getUserFinancialData],
      [processFinancialData], the top three categories), the recommendations
      table (store, list with filters and paging, mark read, delete), and
      the three generating routes, the text generator being a parameter.
    - [Reads]: the well-formedness of every stored row and its preservation
      by every writing handler of the program (the step relation
      [app_step] gathers them), proved with a small Hoare-style calculus
      [se_keeps] on handlers; and the read-only GET routes of expenses
      (list with filters and page, statistics), budgets (list, by id, the
      current month's overview, categories without a budget) and goals
      (list, by id, statistics).
    - [Pool]: the mysql2 connection pool of config/database.ts
      ([connectionLimit] 10, [waitForConnections], no queue limit) shared by
      every call: a [config] holds the pool (connections created, free
      ones, the queue of waiting calls, closed or not) and the program point
      of each concurrent call of [database.query] and [testConnection];
      [pool_step] lets one call take one step, the environment deciding
      whether a connect, a statement or a ping succeeds, or closes the pool.
      A failed ping is a fatal error of its connection: mysql2 removes the
      connection from the pool and the oldest waiting call asks again.
      Also the two callers of [testConnection]: [startServer] (server.ts)
      and the health-check script (scripts/health-check.ts).
    - [Server]: the Express application of server.ts: the middleware chain
      in its order (the CORS preflight answer, the rate limiter with its
      per-IP memory store, the routes, the 404 handler), the route table of
      every router with its [authenticateToken] guard, mounted under its
      prefix, and Express's first-match dispatch with its path matching
      (case-insensitive literals, [:param] segments, a trailing slash, GET
      routes serving HEAD).

    ** What the theorems show

    - Ledger and Reconciler (C1-C6, C10-C14): every expense and budget
      handler keeps the reconciliation invariant (for expense edits and
      deletes, on a server at UTC or west of it), and DELETE /budgets/:id
      deletes exactly the caller's row; the handlers refine the spec's
      reconciler (C6: every run of handler calls is a run of the abstract
      machine, and every state reached is reconciled); each handler moves
      [current_spent] by exactly the amounts of spec section 4.1;
      counterexamples show the invariant broken east of UTC and by
      PUT /budgets/:id.
    - C7: every sequence of writing handlers keeps every row well formed
      (foreign keys valid, no amount, limit, target or saved amount
      negative), by rule induction over [star app_step].
    - Pool (C8-C9): every interleaving of concurrent calls keeps the pool
      consistent (at most 10 connections, each connection in use held by
      one call, each waiting call queued once, nobody waiting while a
      connection is free), by rule induction over [star pool_step]; a query
      gives its connection back whatever its statement does, and only a
      failed ping of [testConnection] ends a call with its connection
      destroyed, the pool shrinking by one.
    - Goals (C15-C17): the contribution operation completes a goal exactly
      at the target, the paused status is unreachable, and two interleaved
      contributions lose one.
    - Auth (C18-C25): the users-table invariant is kept by every sequence of
      operations; verifyOTP succeeds exactly on the stored unexpired code and
      only once; login needs a verified account and the right password; a
      reset code also verifies (and logs in) through /verify-otp; the
      verification code of an unverified account resets its password;
      register, verifyOTP and login compose; a failed mail leaves the user
      registered.
    - C26: the error paths of POST /expenses.
    - Server (C27-C29): the route table has no two routes that match one
      request, so first-match dispatch always runs the route that matches
      (decided by [pairwise_disjoint], proved sound); only the public
      handlers (health, the account routes, the category lists) answer
      without [authenticateToken]; the rate limiter lets exactly
      [min n 100] of [n] requests of a fresh window through.
    - C30: the month pattern's acceptance of "2024-13".
    - Reads (C31-C32): GET /expenses answers a page of the caller's
      matching rows, newest first, missing none when the rows are well
      formed; the budget overview lists its rows by decreasing usage, and
      its usage percentages, remaining amounts, spent total and exceeded
      count are those of the expenses.
    - Advice (C33-C36): [processFinancialData] agrees with its reference
      sums, the top three categories are the three largest, one user's
      requests never touch another's recommendations, and a generated text
      is stored and listed first by a server that accepts its LIMIT
      parameter, while MySQL 8.0.22 and later refuse every listing.

    ** What is modelled, and how

    Money is an integer number of cents ([Z]); the code stores DECIMAL
    columns and adds them with JavaScript numbers, so sums are exact here.
    MySQL's DECIMAL division (the average of the statistics, the usage
    percentage of the overview) is [decimal_div]: the quotient with the
    dividend's scale plus 4 decimal digits, rounded half away from zero.  Ids are [nat] and each table keeps its
    own AUTO_INCREMENT counter.  Times are not modelled where the code only
    stores them, except [created_at] of the recommendations (seconds, a
    clock parameter of the generating routes); elsewhere [ORDER BY
    created_at DESC] is the larger id first, as rows are inserted in id
    order, an assumption for rows of the same second.  Rows with equal sort
    keys keep the table's order, one of the orders MySQL may return.  Money
    is whole cents: a request amount with more than two decimals, which
    Joi accepts and DECIMAL(.,2) rounds, is outside the model.  The server's time zone is a parameter [tz] (minutes east of
    UTC): mysql2 returns a DATE column as a JavaScript [Date] at local
    midnight, so the month the code derives from a stored date depends on
    it, while the month it derives from a request string does not.
    [CURDATE()] and the current month are parameters [today] and
    [cur_month]; a query-string date is read by a parameter [date_param]
    (what [Date.parse] accepts and MySQL compares the column with).

    The clock of the auth service is a parameter [now] in milliseconds, the
    draw of [Math.random()] a parameter [k] (the value [k / 2^53]), the
    outcome of the SMTP call a boolean, and the reply of the text generator
    a function of the financial data ([None] for a failed call), and
    whether the MySQL server refuses a DOUBLE LIMIT parameter (version
    8.0.22 and later; the version is not in the sources) a boolean: the
    theorems hold for every value.  One definition needs fuel: the decimal
    printer [Query.dec_digits], whose fuel [S (Z.to_nat n)] exceeds the
    number of digits of [n]; [Query.js_nat_string_terminates] proves that
    any fuel above the number of digits gives the same string, so the
    printer always returns.  Every
    other definition is structurally recursive or a fixed sequence of
    statements.

    ** What is not modelled

    The response headers of helmet and CORS and the body parsers (they
    change no state), the JWT middleware and the error handler
    (middleware/auth.ts and middleware/errorHandler.ts are not part of the
    sources; a handler receives the authenticated user id as an argument),
    percent-decoding of route parameters, the cryptography of bcrypt and
    of JWT signatures (an injective hash and a record of claims with the
    secret stand for them), Joi's e-mail syntax check (a parameter), SMTP
    delivery itself (an accepted or refused message) and the constant text
    of the HTML templates (services/emailService.ts), the prompt
    texts sent to the text generator and the generator itself
    (services/geminiService.ts builds a prompt string and calls an external
    API), JavaScript's floating-point arithmetic
    on the amounts the advice service sums (exact sums stand for it), and
    MySQL's case-insensitive collation of string comparisons and ORDER BY
    on names (byte order stands for it).  Express may pass a repeated
    query-string key as an array; the model takes one string.  The
    statements of one handler run in sequence; concurrency between handlers
    is modelled where the spec asks about it (two progress requests) and
    for the connection pool they share, as explicit interleavings of their
    steps.
*)

From Stdlib Require Import ZArith Lia.
From stdpp Require Export base gmap fin_maps list strings.

Declare Scope pw_scope.
Delimit Scope pw_scope with pw.
Open Scope Z_scope.

(** ** Results of a handler

    The errors a handler ends with: a failed [Joi] validation or an explicit
    400 ([BadRequest]), an explicit 404 ([NotFound]), an error thrown by
    a statement and passed to [next(error)] ([DbError]), and an [Error] a
    service throws with its message ([Thrown]). *)

Inductive db_error :=
  | FkViolation      (* ER_NO_REFERENCED_ROW: a category id that does not exist *)
  | DuplicateKey     (* ER_DUP_ENTRY: the UNIQUE (user, category, month) key *)
  | UndefinedBind    (* mysql2: "Bind parameters must not contain undefined" *)
  | DataTruncated    (* a value outside an ENUM column *)
  | WrongArguments.  (* ER_WRONG_ARGUMENTS: a LIMIT or OFFSET parameter that is not a count *)

Inductive http_error :=
  | BadRequest
  | NotFound
  | DbError (e : db_error)
  | Thrown (msg : string).   (* [throw new Error(msg)] in a service *)

Inductive result (A : Type) :=
  | Ok (a : A)
  | Err (e : http_error).
Arguments Ok {A} a.
Arguments Err {A} e.

#[export] Instance db_error_eq_dec : EqDecision db_error.
Proof. solve_decision. Defined.
#[export] Instance http_error_eq_dec : EqDecision http_error.
Proof. solve_decision. Defined.

(** ** The state-and-error monad of the handlers

    [SE S A] threads the database [S] through a handler; an error stops the
    handler but keeps the state reached so far, as [next(error)] does after a
    statement that already committed. *)

Definition SE (S A : Type) : Type := S -> result A * S.

Definition se_ret {S A} (a : A) : SE S A := fun s => (Ok a, s).
Definition se_fail {S A} (e : http_error) : SE S A := fun s => (Err e, s).
Definition se_bind {S A B} (c : SE S A) (k : A -> SE S B) : SE S B :=
  fun s => match c s with
           | (Ok a, s') => k a s'
           | (Err e, s') => (Err e, s')
           end.
Definition se_get {S} : SE S S := fun s => (Ok s, s).
Definition se_put {S} (s : S) : SE S unit := fun _ => (Ok tt, s).

(** [se_guard b e] is the code's [if (!b) { res.status(..); return; }]. *)
Definition se_guard {S} (b : bool) (e : http_error) : SE S unit :=
  if b then se_ret tt else se_fail e.

Notation "x <- c ;; k" := (se_bind c (fun x => k))
  (at level 100, c at next level, right associativity) : pw_scope.
Notation "c ;;; k" := (se_bind c (fun _ => k))
  (at level 100, right associativity) : pw_scope.

Open Scope pw_scope.

Section Monad.
Context {S : Type}.

Lemma se_bind_ret_l {A B} (a : A) (k : A -> SE S B) s :
    se_bind (se_ret a) k s = k a s.
  Proof. reflexivity. Qed.

Lemma se_bind_assoc {A B C} (c : SE S A) (k : A -> SE S B) (h : B -> SE S C) s :
    se_bind (se_bind c k) h s = se_bind c (fun a => se_bind (k a) h) s.
  Proof. unfold se_bind. destruct (c s) as [[a|e] s']; reflexivity. Qed.

Lemma se_bind_ok {A B} (c : SE S A) (k : A -> SE S B) s a s' :
    c s = (Ok a, s') -> se_bind c k s = k a s'.
  Proof. unfold se_bind. intros ->. reflexivity. Qed.

Lemma se_bind_err {A B} (c : SE S A) (k : A -> SE S B) s e s' :
    c s = (Err e, s') -> se_bind c k s = (Err e, s').
  Proof. unfold se_bind. intros ->. reflexivity. Qed.
End Monad.

(** ** Sums of integer columns

    [zsum f l] is [SUM(f x)] over the rows [l]; [map_zsum f m] sums over the
    rows of a table kept as a gmap.  [COALESCE(SUM(..), 0)] is [0] on no row. *)

Definition zsum {A} (f : A -> Z) (l : list A) : Z :=
  foldr (fun x acc => f x + acc) 0 l.

Definition map_zsum {K V} `{Countable K} (f : K -> V -> Z) (m : gmap K V) : Z :=
  zsum (fun kv => f kv.1 kv.2) (map_to_list m).

Section Sums.
Context {A : Type}.

Lemma zsum_nil (f : A -> Z) : zsum f [] = 0.
  Proof. reflexivity. Qed.

Lemma zsum_cons (f : A -> Z) x l : zsum f (x :: l) = f x + zsum f l.
  Proof. reflexivity. Qed.

Lemma zsum_app (f : A -> Z) l1 l2 : zsum f (l1 ++ l2) = zsum f l1 + zsum f l2.
  Proof. induction l1 as [|x l1 IH]; simpl; [done|]. rewrite IH. lia. Qed.

#[export] Instance zsum_perm (f : A -> Z) : Proper ((≡ₚ) ==> (=)) (zsum f).
  Proof. intros l1 l2 Hp. induction Hp; simpl; lia. Qed.

Lemma zsum_ext_in (f g : A -> Z) l :
    (forall x, x ∈ l -> f x = g x) -> zsum f l = zsum g l.
  Proof.
    induction l as [|x l IH]; intros Hfg; simpl; [done|].
    rewrite (Hfg x) by set_solver. rewrite IH; [done|]. set_solver.
  Qed.

Lemma zsum_zero (f : A -> Z) l :
    (forall x, x ∈ l -> f x = 0) -> zsum f l = 0.
  Proof.
    intros H0. rewrite (zsum_ext_in f (fun _ => 0)); [|done].
    clear H0. induction l as [|x l IH]; simpl; [done|]. by rewrite IH.
  Qed.

Lemma zsum_sub (f g : A -> Z) l : zsum (fun x => f x - g x) l = zsum f l - zsum g l.
  Proof. induction l as [|x l IH]; simpl; [done|]. rewrite IH. lia. Qed.
End Sums.

Section MapSums.
Context {K V : Type} `{Countable K}.
Implicit Types (m : gmap K V) (f g : K -> V -> Z).

Lemma map_zsum_empty f : map_zsum f (∅ : gmap K V) = 0.
  Proof. unfold map_zsum. by rewrite map_to_list_empty. Qed.

Lemma map_zsum_insert_None f m k v :
    m !! k = None -> map_zsum f (<[k:=v]> m) = f k v + map_zsum f m.
  Proof. intros Hk. unfold map_zsum. by rewrite map_to_list_insert. Qed.

Lemma map_zsum_delete f m k v :
    m !! k = Some v -> map_zsum f m = f k v + map_zsum f (delete k m).
  Proof.
    intros Hk. rewrite <- (insert_delete_id m k v) at 1 by done.
    apply map_zsum_insert_None, lookup_delete_eq.
  Qed.

Lemma map_zsum_insert_Some f m k v v' :
    m !! k = Some v ->
    map_zsum f (<[k:=v']> m) = map_zsum f m - f k v + f k v'.
  Proof.
    intros Hk. rewrite (map_zsum_delete f m k v Hk).
    rewrite <- insert_delete_eq, map_zsum_insert_None by apply lookup_delete_eq.
    lia.
  Qed.

Lemma map_zsum_ext f g m :
    (forall k v, m !! k = Some v -> f k v = g k v) -> map_zsum f m = map_zsum g m.
  Proof.
    intros Hfg. unfold map_zsum. apply zsum_ext_in.
    intros [k v] Hin. apply Hfg. by apply elem_of_map_to_list.
  Qed.

Lemma map_zsum_zero f m :
    (forall k v, m !! k = Some v -> f k v = 0) -> map_zsum f m = 0.
  Proof.
    intros H0. unfold map_zsum. apply zsum_zero.
    intros [k v] Hin. apply H0. by apply elem_of_map_to_list.
  Qed.

End MapSums.

Lemma map_zsum_fmap `{Countable K} {V W} (f : K -> W -> Z) (h : V -> W) (m : gmap K V) :
  map_zsum f (h <$> m) = map_zsum (fun k v => f k (h v)) m.
Proof.
  induction m as [|k v m Hk IH] using map_ind.
  - by rewrite fmap_empty, !map_zsum_empty.
  - rewrite fmap_insert.
    rewrite (map_zsum_insert_None f) by (by rewrite lookup_fmap, Hk).
    rewrite map_zsum_insert_None by done. by rewrite IH.
Qed.

(** ** Shared automation *)

Create HintDb pw discriminated.
Create Rewrite HintDb pw.
#[export] Hint Rewrite @zsum_app @map_zsum_empty : pw.
#[export] Hint Resolve lookup_insert_eq lookup_delete_eq : pw.

(** [bool_to_prop] turns the boolean tests of the model into propositions. *)
Ltac bool_to_prop :=
  repeat match goal with
  | H : (_ && _)%bool = true |- _ => apply andb_true_iff in H as [? ?]
  | H : (_ || _)%bool = false |- _ => apply orb_false_iff in H as [? ?]
  | H : Z.eqb _ _ = true |- _ => apply Z.eqb_eq in H
  | H : Z.eqb _ _ = false |- _ => apply Z.eqb_neq in H
  | H : Nat.eqb _ _ = true |- _ => apply Nat.eqb_eq in H
  | H : Nat.eqb _ _ = false |- _ => apply Nat.eqb_neq in H
  | H : Z.leb _ _ = true |- _ => apply Z.leb_le in H
  | H : Z.leb _ _ = false |- _ => apply Z.leb_gt in H
  | H : Z.ltb _ _ = true |- _ => apply Z.ltb_lt in H
  | H : Z.ltb _ _ = false |- _ => apply Z.ltb_ge in H
  | H : String.eqb _ _ = true |- _ => apply String.eqb_eq in H
  | H : String.eqb _ _ = false |- _ => apply String.eqb_neq in H
  end.

(** [run_se] unfolds one step of a handler composed with [se_bind]. *)
Ltac run_se :=
  repeat (unfold se_bind, se_ret, se_fail, se_guard, se_get, se_put; simpl).

(** ** Reflexive-transitive closure of a step relation *)

Section Star.
Context {A : Type} (R : A -> A -> Prop).

Inductive star : A -> A -> Prop :=
  | star_refl a : star a a
  | star_step a b c : R a b -> star b c -> star a c.

(** An invariant of every step holds of every reachable state. *)
Lemma star_invariant (I : A -> Prop) :
  (forall a b, I a -> R a b -> I b) -> forall a b, star a b -> I a -> I b.
Proof. intros Hstep a b Hs. induction Hs; eauto. Qed.
End Star.
