(* ===== verification/Dates.v ===== *)
(** * Dates and month keys

    The calendar dates the code stores in DATE columns, and the three ways
    it turns a date into the "YYYY-MM" month key of a budget:

    - [DATE_FORMAT(expense_date, '%Y-%m')] in SQL (routes/budgets.ts:331):
      [month_key];
    - [new Date(expenseDate).toISOString().slice(0, 7)] on a request string
      "YYYY-MM-DD" (routes/expenses.ts:103 and 147), which JavaScript parses
      as UTC midnight: [request_month];
    - [new Date(row.expense_date).toISOString().slice(0, 7)] on a DATE read
      back through mysql2, which builds a [Date] at local midnight of the
      server's time zone (routes/expenses.ts:146 and 200): [stored_month].

    It also holds the ["^\d{4}-\d{2}$"] pattern of [validateBudget]
    (middleware/validation.ts:71) and the parser of month keys, with the
    round trip between formatting and parsing. *)

From Stdlib Require Import Ascii.
From S2P Require Import Spec2Rocq.

(** ** Calendar dates *)

Record date := mkDate { d_year : Z; d_month : Z; d_day : Z }.

#[export] Instance date_eq_dec : EqDecision date.
Proof. solve_decision. Defined.

(** The Gregorian leap-year rule. *)
Definition is_leap_year (y : Z) : bool :=
  (Z.rem y 4 =? 0) && (negb (Z.rem y 100 =? 0) || (Z.rem y 400 =? 0)).

Definition days_in_month (y m : Z) : Z :=
  if (m =? 2) then (if is_leap_year y then 29 else 28)
  else if (m =? 4) || (m =? 6) || (m =? 9) || (m =? 11) then 30
  else 31.

(** A value of a MySQL DATE column: years 1000 to 9999. *)
Definition valid_date (d : date) : bool :=
  (1000 <=? d_year d) && (d_year d <=? 9999) &&
  (1 <=? d_month d) && (d_month d <=? 12) &&
  (1 <=? d_day d) && (d_day d <=? days_in_month (d_year d) (d_month d)).

(** The day before [d]. *)
Definition prev_day (d : date) : date :=
  if 1 <? d_day d then mkDate (d_year d) (d_month d) (d_day d - 1)
  else if 1 <? d_month d then
    mkDate (d_year d) (d_month d - 1) (days_in_month (d_year d) (d_month d - 1))
  else mkDate (d_year d - 1) 12 31.

(** ** JavaScript [Date] values

    A [Date] is an instant; [toISOString] prints its UTC calendar date.  We
    keep the UTC calendar date and the minute of the UTC day. *)

Record js_instant := mkInstant { utc_date : date; utc_minute : Z }.

(** [new Date("YYYY-MM-DD")]: a date-only ISO string is UTC midnight. *)
Definition parse_request_date (d : date) : js_instant := mkInstant d 0.

(** mysql2 returns a DATE column as [new Date(y, m - 1, d)], local midnight
    of a server [tz] minutes east of UTC (-1440 < tz < 1440).  East of UTC,
    local midnight is the evening of the previous UTC day. *)
Definition mysql_date_to_js (tz : Z) (d : date) : js_instant :=
  if 0 <? tz then mkInstant (prev_day d) (1440 - tz) else mkInstant d (- tz).

(** ** Month keys "YYYY-MM" *)

Definition digit (n : Z) : Ascii.ascii := Ascii.ascii_of_nat (Z.to_nat (48 + n)).

Definition digit_val (c : Ascii.ascii) : option Z :=
  let n := Z.of_nat (Ascii.nat_of_ascii c) in
  if (48 <=? n) && (n <=? 57) then Some (n - 48) else None.

Definition pad2 (n : Z) : string :=
  String (digit (n / 10 mod 10)) (String (digit (n mod 10)) EmptyString).

Definition pad4 (n : Z) : string :=
  String (digit (n / 1000 mod 10)) (String (digit (n / 100 mod 10))
    (pad2 n)).

(** [d.toISOString().slice(0, 7)] and [DATE_FORMAT(d, '%Y-%m')] for years
    0 to 9999. *)
Definition format_month (y m : Z) : string := pad4 y +:+ String "-"%char (pad2 m).

Definition month_key (d : date) : string := format_month (d_year d) (d_month d).

Definition iso_month (t : js_instant) : string := month_key (utc_date t).

(** The month the expense handlers compute from a request date and from a
    stored date. *)
Definition request_month (d : date) : string := iso_month (parse_request_date d).
Definition stored_month (tz : Z) (d : date) : string := iso_month (mysql_date_to_js tz d).

(** The parser of a month key: exactly four digits, a dash, two digits. *)
Definition parse_month_key (s : string) : option (Z * Z) :=
  match s with
  | String a (String b (String c (String d (String dash (String e (String f EmptyString)))))) =>
      match digit_val a, digit_val b, digit_val c, digit_val d,
            Ascii.eqb dash "-"%char, digit_val e, digit_val f with
      | Some a, Some b, Some c, Some d, true, Some e, Some f =>
          Some (1000 * a + 100 * b + 10 * c + d, 10 * e + f)
      | _, _, _, _, _, _, _ => None
      end
  | _ => None
  end.

(** [Joi.string().pattern(/^\d{4}-\d{2}$/)] of [validateBudget]. *)
Definition is_digit (c : Ascii.ascii) : bool :=
  match digit_val c with Some _ => true | None => false end.

Definition month_year_pattern (s : string) : bool :=
  match s with
  | String a (String b (String c (String d (String dash (String e (String f EmptyString)))))) =>
      is_digit a && is_digit b && is_digit c && is_digit d &&
      Ascii.eqb dash "-"%char && is_digit e && is_digit f
  | _ => false
  end.

(** ** Lemmas *)

Lemma digit_val_digit n : 0 <= n <= 9 -> digit_val (digit n) = Some n.
Proof.
  intros Hn. unfold digit_val, digit.
  rewrite Ascii.nat_ascii_embedding, Z2Nat.id by lia.
  replace ((48 <=? 48 + n) && (48 + n <=? 57)) with true
    by (symmetry; apply andb_true_iff; split; apply Z.leb_le; lia).
  f_equal. lia.
Qed.

Lemma digit_val_range c n : digit_val c = Some n -> 0 <= n <= 9.
Proof.
  unfold digit_val. destruct (_ && _) eqn:E; [|discriminate].
  intros [= <-]. bool_to_prop. lia.
Qed.

Lemma format_month_unfold y m :
  format_month y m =
  String (digit (y / 1000 mod 10)) (String (digit (y / 100 mod 10))
    (String (digit (y / 10 mod 10)) (String (digit (y mod 10))
      (String "-" (String (digit (m / 10 mod 10)) (String (digit (m mod 10)) EmptyString)))))).
Proof. reflexivity. Qed.

Lemma digit_val_mod n k : 0 < k -> digit_val (digit (n / k mod 10)) = Some (n / k mod 10).
Proof. intros Hk. apply digit_val_digit. pose proof (Z.mod_pos_bound (n / k) 10). lia. Qed.

Lemma digit_val_mod1 n : digit_val (digit (n mod 10)) = Some (n mod 10).
Proof. apply digit_val_digit. pose proof (Z.mod_pos_bound n 10). lia. Qed.
Lemma four_digits y : 0 <= y <= 9999 ->
  1000 * (y / 1000 mod 10) + 100 * (y / 100 mod 10) + 10 * (y / 10 mod 10) + y mod 10 = y.
Proof.
  intros Hy. rewrite !Z.mod_eq, !Z.div_div by lia.
  change (1000 * 10) with 10000. change (100 * 10) with 1000. change (10 * 10) with 100.
  assert (y / 10000 = 0) by (apply Z.div_small; lia). lia.
Qed.
Lemma two_digits m : 0 <= m <= 99 -> 10 * (m / 10 mod 10) + m mod 10 = m.
Proof.
  intros Hm. rewrite !Z.mod_eq, !Z.div_div by lia. change (10 * 10) with 100.
  assert (m / 100 = 0) by (apply Z.div_small; lia). lia.
Qed.
(** Round trip: the parser reads back the key [format_month] prints. *)
(** Parsing a formatted month key gives back its year and month. *)
Lemma parse_format_month y m :
  0 <= y <= 9999 -> 0 <= m <= 99 -> parse_month_key (format_month y m) = Some (y, m).
Proof.
  intros Hy Hm. rewrite format_month_unfold. cbn [parse_month_key].
  rewrite !digit_val_mod, !digit_val_mod1 by lia. cbn -[Z.div Z.modulo].
  by rewrite four_digits, two_digits.
Qed.

Lemma format_month_inj y m y' m' :
  0 <= y <= 9999 -> 0 <= m <= 99 -> 0 <= y' <= 9999 -> 0 <= m' <= 99 ->
  format_month y m = format_month y' m' -> y = y' /\ m = m'.
Proof.
  intros Hy Hm Hy' Hm' Heq.
  pose proof (parse_format_month y m Hy Hm) as H1.
  rewrite Heq, parse_format_month in H1 by done. by injection H1.
Qed.

Lemma month_year_pattern_parse s :
  month_year_pattern s = true <-> is_Some (parse_month_key s).
Proof.
  unfold month_year_pattern, parse_month_key, is_digit.
  repeat case_match; simpl; split; intros Hs; try done; by destruct Hs.
Qed.

Lemma valid_date_bounds d :
  valid_date d = true ->
  1000 <= d_year d <= 9999 /\ 1 <= d_month d <= 12 /\
  1 <= d_day d <= days_in_month (d_year d) (d_month d).
Proof. unfold valid_date. intros H. bool_to_prop. lia. Qed.

Lemma request_month_key d : request_month d = month_key d.
Proof. reflexivity. Qed.

Lemma stored_month_prev tz d :
  0 < tz -> stored_month tz d = month_key (prev_day d).
Proof.
  intros Htz. unfold stored_month, iso_month, mysql_date_to_js.
  by rewrite (proj2 (Z.ltb_lt 0 tz) Htz).
Qed.

Lemma stored_month_west tz d : tz <= 0 -> stored_month tz d = month_key d.
Proof.
  intros Htz. unfold stored_month, iso_month, mysql_date_to_js.
  by rewrite (proj2 (Z.ltb_ge 0 tz) Htz).
Qed.

Lemma month_key_prev_day_later d :
  1 < d_day d -> month_key (prev_day d) = month_key d.
Proof.
  intros Hd. unfold prev_day. by rewrite (proj2 (Z.ltb_lt 1 (d_day d)) Hd).
Qed.

Lemma month_key_prev_day_first d :
  valid_date d = true -> d_day d = 1 -> month_key (prev_day d) <> month_key d.
Proof.
  intros Hv Hd Heq. apply valid_date_bounds in Hv as (Hy & Hm & _).
  unfold prev_day, month_key in Heq. rewrite Hd in Heq. simpl in Heq.
  destruct (1 <? d_month d) eqn:E; bool_to_prop; simpl in Heq;
    apply format_month_inj in Heq; lia.
Qed.

(** Month keys are compared as strings; [simpl] keeps them folded. *)
#[global] Arguments month_key : simpl never.
#[global] Arguments request_month : simpl never.
#[global] Arguments stored_month : simpl never.

Lemma parse_format_month_witness : parse_month_key (format_month 2024 3) = Some (2024, 3).
Proof. apply parse_format_month; lia. Defined.
