(* ===== verification/Query.v ===== *)
(** * Query parameters, literals and result pages

    The helpers the read routes share: JavaScript's [parseInt] on the
    strings of [req.query] and [req.params], the [x || d] fallback of a
    number, the clamped [limit] and [offset] of GET /expenses
    (routes/expenses.ts:53-54), the decimal printing of a number into the
    SQL text ([LIMIT ${limitValue}], line 57), a stable sort for
    [ORDER BY] and [Array.prototype.sort], and [LIMIT ... OFFSET ...] on a
    list of rows.

    Numbers are integers ([Z]); [parseInt] is exact here, where JavaScript
    rounds beyond [2^53].  NaN is [None]. *)

From Stdlib Require Import Ascii Sorted.
From S2P Require Import Spec2Rocq Dates.

(** ** Strings *)

(** [+:+] does not unfold by [simpl]; these lemmas push it through a cell. *)
Lemma string_app_cons x (a b : string) : String x a +:+ b = String x (a +:+ b).
Proof. reflexivity. Qed.

Lemma string_app_assoc (a b c : string) : (a +:+ b) +:+ c = a +:+ (b +:+ c).
Proof. induction a as [|x a IH]; [done|]. by rewrite !string_app_cons, IH. Qed.

Lemma string_length_app (a b : string) :
  String.length (a +:+ b) = (String.length a + String.length b)%nat.
Proof. induction a as [|x a IH]; [done|]. rewrite string_app_cons. simpl. by rewrite IH. Qed.

(** ** [parseInt] *)

(** The white space [parseInt] skips (its ASCII part). *)
Definition is_js_space (c : Ascii.ascii) : bool :=
  let n := Ascii.nat_of_ascii c in ((9 <=? n) && (n <=? 13))%nat || (n =? 32)%nat.

Fixpoint skip_space (s : string) : string :=
  match s with
  | String c rest => if is_js_space c then skip_space rest else s
  | EmptyString => s
  end.

(** A digit of base 16. *)
Definition hex_val (c : Ascii.ascii) : option Z :=
  let n := Z.of_nat (Ascii.nat_of_ascii c) in
  if (48 <=? n) && (n <=? 57) then Some (n - 48)
  else if (97 <=? n) && (n <=? 102) then Some (n - 87)
  else if (65 <=? n) && (n <=? 70) then Some (n - 55)
  else None.

(** The longest run of digits, read into [acc]. *)
Fixpoint digits_acc (base : Z) (dv : Ascii.ascii -> option Z) (acc : Z) (s : string) : Z :=
  match s with
  | String c rest =>
      match dv c with
      | Some d => digits_acc base dv (base * acc + d) rest
      | None => acc
      end
  | EmptyString => acc
  end.

(** NaN when the run is empty. *)
Definition parse_digits (base : Z) (dv : Ascii.ascii -> option Z) (s : string) : option Z :=
  match s with
  | String c _ => match dv c with Some _ => Some (digits_acc base dv 0 s) | None => None end
  | EmptyString => None
  end.

Definition parse_unsigned (s : string) : option Z :=
  match s with
  | String z (String x rest) =>
      if Ascii.eqb z "0" && (Ascii.eqb x "x" || Ascii.eqb x "X")
      then parse_digits 16 hex_val rest
      else parse_digits 10 digit_val s
  | _ => parse_digits 10 digit_val s
  end.

(** [parseInt(s)]: white space, a sign, a ["0x"] prefix for base 16. *)
Definition parse_int (s : string) : option Z :=
  match skip_space s with
  | String c rest =>
      if Ascii.eqb c "-" then Z.opp <$> parse_unsigned rest
      else if Ascii.eqb c "+" then parse_unsigned rest
      else parse_unsigned (String c rest)
  | EmptyString => None
  end.

(** [n || d] for a number: NaN and 0 are falsy. *)
Definition js_or (v : option Z) (d : Z) : Z :=
  match v with
  | Some n => if n =? 0 then d else n
  | None => d
  end.

(** ** The page of GET /expenses *)

(** [Math.max(1, Math.min(1000, parseInt(limit) || 50))]. *)
Definition expense_limit (limit : string) : Z := Z.max 1 (Z.min 1000 (js_or (parse_int limit) 50)).

(** [Math.max(0, parseInt(offset) || 0)]. *)
Definition expense_offset (offset : string) : Z := Z.max 0 (js_or (parse_int offset) 0).

(** ** Printing a number into the SQL text

    [`${n}`] of a non-negative integer: the digits from the last one, with
    one unit of fuel per digit.  The fuel runs out only when it is smaller
    than the number of digits. *)
Fixpoint dec_digits (fuel : nat) (n : Z) (acc : string) : option string :=
  match fuel with
  | O => None
  | S f =>
      let acc' := String (digit (n mod 10)) acc in
      if n <? 10 then Some acc' else dec_digits f (n / 10) acc'
  end.

(** [String(n)] for [n >= 0], with the fuel [n + 1]. *)
Definition js_nat_string (n : Z) : option string := dec_digits (S (Z.to_nat n)) n "".

(** [LIMIT ${limitValue} OFFSET ${offsetValue}]. *)
Definition limit_clause (limit offset : Z) : option string :=
  match js_nat_string limit, js_nat_string offset with
  | Some l, Some o => Some (" LIMIT " +:+ l +:+ " OFFSET " +:+ o)
  | _, _ => None
  end.

(** MySQL reads back the unsigned integer of a LIMIT or OFFSET literal. *)
Definition sql_read_uint (s : string) : option Z := parse_digits 10 digit_val s.

(** ** Ordering and pages *)

Section Order.
Context {A : Type} (before : A -> A -> bool).

(** A stable insertion: [x] goes before the first [y] it may precede. *)
Fixpoint insert_by (x : A) (l : list A) : list A :=
  match l with
  | [] => [x]
  | y :: l' => if before x y then x :: l else y :: insert_by x l'
  end.

(** A stable sort: [Array.prototype.sort] with a comparator, and [ORDER BY]
    (whose order among equal keys MySQL leaves open). *)
Fixpoint sort_by (l : list A) : list A :=
  match l with
  | [] => []
  | x :: l' => insert_by x (sort_by l')
  end.
End Order.

(** [LIMIT n OFFSET k] on the rows of a result. *)
Definition limit_offset {A} (n k : Z) (l : list A) : list A :=
  take (Z.to_nat n) (drop (Z.to_nat k) l).

(** ** Lemmas *)

Fixpoint all_digits (s : string) : bool :=
  match s with
  | String c rest => is_digit c && all_digits rest
  | EmptyString => true
  end.

Lemma string_app_nil_r (a : string) : a +:+ "" = a.
Proof. induction a as [|x a IH]; [done|]. by rewrite string_app_cons, IH. Qed.

Lemma digit_val_code c d :
  digit_val c = Some d -> (48 <= Ascii.nat_of_ascii c <= 57)%nat /\ d = Z.of_nat (Ascii.nat_of_ascii c) - 48.
Proof. unfold digit_val. destruct (_ && _) eqn:E; [|discriminate]. intros [= <-]. bool_to_prop. lia. Qed.

(** A digit is neither white space, nor a sign, nor the [x] of a prefix. *)
Lemma digit_not c c' d :
  digit_val c = Some d -> digit_val c' = None -> Ascii.eqb c c' = false.
Proof. intros Hc Hc'. destruct (Ascii.eqb_spec c c') as [->|]; [congruence|done]. Qed.

Lemma digit_not_space c d : digit_val c = Some d -> is_js_space c = false.
Proof.
  intros Hc. apply digit_val_code in Hc as [Hr _]. unfold is_js_space. cbv zeta.
  apply not_true_iff_false. intros Hs.
  apply orb_true_iff in Hs as [Hs|Hs];
    [apply andb_true_iff in Hs as [H1 H2]; apply Nat.leb_le in H1, H2|apply Nat.eqb_eq in Hs]; lia.
Qed.

Lemma is_digit_val c : is_digit c = true -> exists d, digit_val c = Some d.
Proof. unfold is_digit. destruct (digit_val c); [eauto|discriminate]. Qed.

Lemma digit_val_digit_mod n : digit_val (digit (n mod 10)) = Some (n mod 10).
Proof. apply digit_val_digit. pose proof (Z.mod_pos_bound n 10). lia. Qed.

Lemma is_digit_mod n : is_digit (digit (n mod 10)) = true.
Proof. unfold is_digit. by rewrite digit_val_digit_mod. Qed.

Lemma all_digits_app a b : all_digits (a +:+ b) = all_digits a && all_digits b.
Proof. induction a as [|x a IH]; [done|]. rewrite string_app_cons. simpl. by rewrite IH, andb_assoc. Qed.

(** The printer with enough fuel: its digits, read back after [acc],
    shift [acc]'s reading by [n]. *)
Lemma dec_digits_spec f n acc :
  0 <= n -> (0 < f)%nat -> n < 10 ^ Z.of_nat f ->
  exists str, dec_digits f n acc = Some (str +:+ acc) /\ str <> "" /\ all_digits str = true /\
  forall a, digits_acc 10 digit_val a (str +:+ acc) =
            digits_acc 10 digit_val (a * 10 ^ Z.of_nat (String.length str) + n) acc.
Proof.
  revert n acc. induction f as [|f IH]; intros n acc Hn Hf Hlt10; [lia|]. cbn [dec_digits].
  pose proof (Z.mod_pos_bound n 10) as Hm.
  destruct (n <? 10) eqn:Hlt.
  - apply Z.ltb_lt in Hlt. exists (String (digit (n mod 10)) "").
    split; [done|]. split; [done|].
    split; [by cbn [all_digits]; rewrite is_digit_mod|].
    intros a. rewrite string_app_cons. change ("" +:+ acc) with acc.
    cbn [digits_acc String.length]. rewrite digit_val_digit_mod, Z.mod_small by lia.
    f_equal. lia.
  - apply Z.ltb_ge in Hlt.
    assert (Hq : 0 <= n / 10 < n) by (split; [apply Z.div_pos|apply Z.div_lt]; lia).
    assert (Hf1 : (0 < f)%nat).
    { destruct f; [|lia]. simpl in Hlt10. lia. }
    rewrite Nat2Z.inj_succ, Z.pow_succ_r in Hlt10 by lia.
    destruct (IH (n / 10) (String (digit (n mod 10)) acc)) as (str & Hd & Hne & Hall & Hrd);
      [lia|done|apply Z.div_lt_upper_bound; lia|].
    exists (str +:+ String (digit (n mod 10)) ""). rewrite Hd, string_app_assoc.
    split; [done|]. split; [by destruct str|].
    split; [by rewrite all_digits_app, Hall; cbn [all_digits]; rewrite is_digit_mod|].
    intros a. change (String (digit (n mod 10)) "" +:+ acc)
      with (String (digit (n mod 10)) acc). rewrite Hrd. cbn [digits_acc]. rewrite digit_val_digit_mod.
    f_equal. rewrite string_length_app, Nat2Z.inj_add, Z.pow_add_r by lia.
    pose proof (Z.div_mod n 10 ltac:(lia)). simpl (Z.of_nat (String.length _)). nia.
Qed.

(** The printer does not depend on the fuel, once there is enough. *)
Lemma dec_digits_fuel f1 f2 n acc :
  0 <= n -> (0 < f1)%nat -> (0 < f2)%nat -> n < 10 ^ Z.of_nat f1 -> n < 10 ^ Z.of_nat f2 ->
  dec_digits f1 n acc = dec_digits f2 n acc.
Proof.
  revert f2 n acc. induction f1 as [|f1 IH]; intros [|f2] n acc Hn H1 H2 B1 B2; try lia.
  cbn [dec_digits]. destruct (n <? 10) eqn:Hlt; [done|]. apply Z.ltb_ge in Hlt.
  rewrite Nat2Z.inj_succ, Z.pow_succ_r in B1, B2 by lia.
  assert (0 < f1)%nat by (destruct f1; [simpl in B1; lia|lia]).
  assert (0 < f2)%nat by (destruct f2; [simpl in B2; lia|lia]).
  apply IH; try lia; [apply Z.div_pos; lia|apply Z.div_lt_upper_bound; lia|apply Z.div_lt_upper_bound; lia].
Qed.

(** The fuel [n + 1] of [js_nat_string] is enough. *)
Lemma js_nat_string_fuel n : 0 <= n -> n < 10 ^ Z.of_nat (S (Z.to_nat n)).
Proof.
  intros Hn. pose proof (Z.pow_gt_lin_r 10 (Z.of_nat (S (Z.to_nat n))) ltac:(lia) ltac:(lia)). lia.
Qed.

(** A string of digits is read by [parseInt] as by MySQL. *)
Lemma parse_int_digits str :
  all_digits str = true -> str <> "" -> parse_int str = parse_digits 10 digit_val str.
Proof.
  destruct str as [|c r]; [done|]. intros Hall _. simpl in Hall.
  apply andb_true_iff in Hall as [Hc Hr]. destruct (is_digit_val c Hc) as [d Hd].
  unfold parse_int. cbn [skip_space]. rewrite (digit_not_space c d Hd).
  rewrite (digit_not c "-" d Hd), (digit_not c "+" d Hd) by reflexivity.
  unfold parse_unsigned. destruct r as [|x r]; [done|].
  simpl in Hr. apply andb_true_iff in Hr as [Hx _]. destruct (is_digit_val x Hx) as [dx Hdx].
  by rewrite (digit_not x "x" dx Hdx), (digit_not x "X" dx Hdx), andb_false_r by reflexivity.
Qed.

Lemma parse_digits_all str n :
  all_digits str = true -> str <> "" ->
  (forall a, digits_acc 10 digit_val a str = a * 10 ^ Z.of_nat (String.length str) + n) ->
  parse_digits 10 digit_val str = Some n.
Proof.
  destruct str as [|c r]; [done|]. intros Hall _ Hrd. simpl in Hall.
  apply andb_true_iff in Hall as [Hc _]. destruct (is_digit_val c Hc) as [d Hd].
  unfold parse_digits. by rewrite Hd, Hrd.
Qed.

(** The decimal printer of the LIMIT and OFFSET literals terminates: with
    any fuel above the number of digits it gives the same result as the
    printer, which always returns a string of digits. *)
Theorem js_nat_string_terminates n f :
  0 <= n -> (0 < f)%nat -> n < 10 ^ Z.of_nat f ->
  dec_digits f n "" = js_nat_string n /\ exists str, js_nat_string n = Some str /\ all_digits str = true.
Proof.
  intros Hn Hf Hb. pose proof (js_nat_string_fuel n Hn).
  split; [apply dec_digits_fuel; lia|].
  destruct (dec_digits_spec (S (Z.to_nat n)) n "" Hn ltac:(lia) ltac:(done)) as (str & Hd & _ & Hall & _).
  exists str. unfold js_nat_string. by rewrite Hd, string_app_nil_r.
Qed.

(** For every count n >= 0, the decimal text the handler prints into the
    LIMIT or OFFSET clause exists, and MySQL reads it back as n, as parseInt
    does. *)
Theorem limit_literal_roundtrip n :
  0 <= n ->
  exists str, js_nat_string n = Some str /\ sql_read_uint str = Some n /\ parse_int str = Some n.
Proof.
  intros Hn.
  destruct (dec_digits_spec (S (Z.to_nat n)) n "" Hn ltac:(lia) (js_nat_string_fuel n Hn))
    as (str & Hd & Hne & Hall & Hrd).
  rewrite string_app_nil_r in Hd, Hrd.
  assert (Hp : parse_digits 10 digit_val str = Some n) by (by apply parse_digits_all).
  exists str. unfold js_nat_string, sql_read_uint. rewrite Hd, Hp.
  split; [done|]. split; [done|]. by rewrite parse_int_digits.
Qed.

(** ** Pages *)

Lemma take_drop_app {A} (n k : nat) (l : list A) : take n (drop k l) ++ drop (k + n) l = drop k l.
Proof. by rewrite <- drop_drop, take_drop. Qed.

Lemma pages_app {A} (L : nat) (l : list A) (i m : nat) :
  mjoin ((fun j : nat => take L (drop (j * L) l)) <$> seq i m) ++ drop ((i + m) * L) l =
  drop (i * L) l.
Proof.
  revert i. induction m as [|m IH]; intros i; simpl.
  - by rewrite Nat.add_0_r.
  - rewrite <- app_assoc. replace ((i + S m) * L)%nat with ((S i + m) * L)%nat by lia.
    rewrite IH. replace (S i * L)%nat with (i * L + L)%nat by lia. apply take_drop_app.
Qed.

(** Walking the pages of a list with a page size L >= 1 and offsets 0, L,
    2L, ... gives back the whole list in order: no row is skipped or repeated. *)
Theorem pages_cover (L : Z) {A} (l : list A) :
  1 <= L ->
  mjoin ((fun j : nat => limit_offset L (Z.of_nat j * L) l) <$> seq 0 (S (length l))) = l.
Proof.
  intros HL. set (N := Z.to_nat L).
  assert (Hj : forall j : nat, Z.to_nat (Z.of_nat j * L) = (j * N)%nat) by (intros j; subst N; rewrite Z2Nat.inj_mul, Nat2Z.id by lia; done).
  unfold limit_offset. erewrite (list_fmap_ext _ (fun j => take N (drop (j * N) l))); last first.
  { intros j x _. by rewrite Hj. }
  pose proof (pages_app N l 0 (S (length l))) as Hp. simpl in Hp |- *.
  assert (1 <= N)%nat by (subst N; lia).
  rewrite (drop_ge l (N + length l * N)) in Hp by (clearbody N; nia). by rewrite app_nil_r in Hp.
Qed.

(** ** The sort *)

Section SortLemmas.
Context {A : Type} (before : A -> A -> bool).
Hypothesis before_total : forall x y, before x y = false -> before y x = true.

Lemma insert_by_perm x l : insert_by before x l ≡ₚ x :: l.
Proof.
  induction l as [|y l IH]; simpl; [done|].
  destruct (before x y); [done|]. rewrite IH. apply perm_swap.
Qed.

Lemma sort_by_perm l : sort_by before l ≡ₚ l.
Proof. induction l as [|x l IH]; simpl; [done|]. by rewrite insert_by_perm, IH. Qed.

Lemma insert_by_sorted x l :
  Sorted (fun a b => before a b = true) l -> Sorted (fun a b => before a b = true) (insert_by before x l).
Proof.
  induction 1 as [|y l Hl IH Hhd]; simpl; [by repeat constructor|].
  destruct (before x y) eqn:Exy; [by repeat constructor|].
  constructor; [done|]. apply before_total in Exy.
  destruct l as [|z l]; simpl; [by repeat constructor|].
  inversion Hhd; subst. destruct (before x z); constructor; done.
Qed.

Lemma sort_by_sorted l : Sorted (fun a b => before a b = true) (sort_by before l).
Proof. induction l as [|x l IH]; simpl; [constructor|]. by apply insert_by_sorted. Qed.
End SortLemmas.

(** ** Witnesses *)

Lemma js_nat_string_terminates_witness :
  dec_digits 3 250 "" = js_nat_string 250 /\
  exists str, js_nat_string 250 = Some str /\ all_digits str = true.
Proof. apply js_nat_string_terminates; [lia|lia|reflexivity]. Defined.

Lemma limit_literal_roundtrip_witness :
  exists str, js_nat_string 1000 = Some str /\ sql_read_uint str = Some 1000 /\ parse_int str = Some 1000.
Proof. apply limit_literal_roundtrip. lia. Defined.

Lemma pages_cover_witness :
  mjoin ((fun j : nat => limit_offset 2 (Z.of_nat j * 2) [10; 20; 30])
           <$> seq 0 (S (length [10; 20; 30]))) = [10; 20; 30].
Proof. apply (pages_cover 2 [10; 20; 30]). lia. Defined.
