(* ===== verification/Store.v ===== *)
(** * The database and its statements

    The tables the handlers read and write (types/index.ts), kept as gmaps
    from the AUTO_INCREMENT id to the row, and the SQL statements of the
    handlers as operations of the [SE db] monad.  Every statement of the code
    is [database.query(sql, params)] (config/database.ts:39-47), which runs
    one statement on a pooled connection; a statement that fails throws, and
    the handler passes the error to [next(error)].

    The schema file is not part of the sources: the foreign keys, the
    UNIQUE (user_id, category_id, month_year) key of [budgets] and the
    defaults are the ones the spec (section 3) and the queries rely on. *)

From S2P Require Import Spec2Rocq Dates.

(** ** Rows *)

Record user := mkUser {
  u_email : string;
  u_password : string;          (* the bcrypt hash *)
  u_first_name : string;
  u_last_name : string;
  u_is_verified : bool;
  u_otp_code : option string;
  u_otp_expires_at : option Z   (* milliseconds since the epoch *)
}.

Record category := mkCategory { c_name : string; c_color : string; c_icon : string }.

Record expense := mkExpense {
  e_user : nat;
  e_category : nat;
  e_amount : Z;                 (* cents *)
  e_description : string;
  e_date : date
}.

Record budget := mkBudget {
  b_user : nat;
  b_category : nat;
  b_limit : Z;
  b_spent : Z;
  b_month : string              (* "YYYY-MM" *)
}.

Inductive goal_status := Active | Completed | Paused.

#[export] Instance goal_status_eq_dec : EqDecision goal_status.
Proof. solve_decision. Defined.

Record goal := mkGoal {
  g_user : nat;
  g_title : string;
  g_target : Z;
  g_current : Z;
  g_target_date : option date;
  g_description : option string;
  g_status : goal_status
}.

Inductive recommendation_type := Saving | Spending | Budgeting | GoalAdvice.

Record recommendation := mkRecommendation {
  r_user : nat;
  r_text : string;
  r_type : recommendation_type;
  r_is_read : bool;
  r_created_at : Z        (* created_at DEFAULT CURRENT_TIMESTAMP, in seconds *)
}.

(** ** The database: one gmap per table and its AUTO_INCREMENT counter *)

Record db := mkDb {
  users : gmap nat user;             next_user : nat;
  categories : gmap nat category;
  expenses : gmap nat expense;       next_expense : nat;
  budgets : gmap nat budget;         next_budget : nat;
  goals : gmap nat goal;             next_goal : nat;
  recommendations : gmap nat recommendation; next_recommendation : nat
}.

Definition set_users (t : gmap nat user) (n : nat) (s : db) : db :=
  mkDb t n (categories s) (expenses s) (next_expense s) (budgets s) (next_budget s)
       (goals s) (next_goal s) (recommendations s) (next_recommendation s).
Definition set_expenses (t : gmap nat expense) (n : nat) (s : db) : db :=
  mkDb (users s) (next_user s) (categories s) t n (budgets s) (next_budget s)
       (goals s) (next_goal s) (recommendations s) (next_recommendation s).
Definition set_budgets (t : gmap nat budget) (n : nat) (s : db) : db :=
  mkDb (users s) (next_user s) (categories s) (expenses s) (next_expense s) t n
       (goals s) (next_goal s) (recommendations s) (next_recommendation s).
Definition set_goals (t : gmap nat goal) (n : nat) (s : db) : db :=
  mkDb (users s) (next_user s) (categories s) (expenses s) (next_expense s)
       (budgets s) (next_budget s) t n (recommendations s) (next_recommendation s).
Definition set_recommendations (t : gmap nat recommendation) (n : nat) (s : db) : db :=
  mkDb (users s) (next_user s) (categories s) (expenses s) (next_expense s)
       (budgets s) (next_budget s) (goals s) (next_goal s) t n.

(** A database with no rows; AUTO_INCREMENT starts at 1. *)
Definition empty_db : db := mkDb ∅ 1 ∅ ∅ 1 ∅ 1 ∅ 1 ∅ 1.

(** The handlers' monad. *)
Abbreviation Handler := (SE db).

(** ** Generic statements on one table

    [WHERE] clauses are boolean predicates on the id and the row.  An
    UPDATE rewrites every matching row and reports how many rows matched
    (mysql2 connects with the FOUND_ROWS flag, so [affectedRows] counts the
    rows found); a DELETE removes them. *)

Section Table.
Context {V : Type}.
Implicit Types (m : gmap nat V) (P : nat -> V -> bool) (f : V -> V).

Definition count_where P m : nat :=
    size (filter (fun kv => P kv.1 kv.2 = true) m).

Definition update_where P f m : gmap nat V :=
    map_imap (fun k v => Some (if P k v then f v else v)) m.

Definition delete_where P m : gmap nat V :=
    filter (fun kv => P kv.1 kv.2 = false) m.

  (** [WHERE id = ? AND user_id = ?]: the row [id] if [owner] holds of it. *)
Definition by_id_owned (owner : V -> bool) (id : nat) : nat -> V -> bool :=
    fun k v => (k =? id)%nat && owner v.

Lemma lookup_update_where P f m k :
    update_where P f m !! k = (fun v => if P k v then f v else v) <$> m !! k.
  Proof. unfold update_where. rewrite map_lookup_imap. by destruct (m !! k). Qed.

Lemma lookup_delete_where P m k :
    delete_where P m !! k = match m !! k with
                            | Some v => if P k v then None else Some v
                            | None => None
                            end.
  Proof.
    unfold delete_where. rewrite map_lookup_filter.
    destruct (m !! k) as [v|]; simpl; [|done].
    case_guard; destruct (P k v); naive_solver.
  Qed.

Lemma update_where_none P f m :
    (forall k v, m !! k = Some v -> P k v = false) -> update_where P f m = m.
  Proof.
    intros Hn. apply map_eq. intros k. rewrite lookup_update_where.
    destruct (m !! k) eqn:E; simpl; [by rewrite Hn|done].
  Qed.

Lemma update_where_by_id owner id f m v :
    m !! id = Some v -> owner v = true ->
    update_where (by_id_owned owner id) f m = <[id := f v]> m.
  Proof.
    intros Hv Ho. apply map_eq. intros k. rewrite lookup_update_where.
    unfold by_id_owned. destruct (decide (k = id)) as [->|Hne].
    - rewrite Hv, lookup_insert_eq. simpl. by rewrite Nat.eqb_refl, Ho.
    - rewrite lookup_insert_ne by done. destruct (m !! k); simpl; [|done].
      by rewrite (proj2 (Nat.eqb_neq k id) Hne).
  Qed.

Lemma delete_where_by_id owner id m v :
    m !! id = Some v -> owner v = true ->
    delete_where (by_id_owned owner id) m = delete id m.
  Proof.
    intros Hv Ho. apply map_eq. intros k. rewrite lookup_delete_where.
    unfold by_id_owned. destruct (decide (k = id)) as [->|Hne].
    - rewrite Hv, lookup_delete_eq. simpl. by rewrite Nat.eqb_refl, Ho.
    - rewrite lookup_delete_ne by done. destruct (m !! k); simpl; [|done].
      by rewrite (proj2 (Nat.eqb_neq k id) Hne).
  Qed.

Lemma count_where_none P m :
    (forall k v, m !! k = Some v -> P k v = false) -> count_where P m = 0%nat.
  Proof.
    intros Hn. unfold count_where. rewrite map_empty_filter_2; [apply map_size_empty|].
    intros k v Hk HP. simpl in HP. by rewrite Hn in HP.
  Qed.

Lemma count_where_by_id owner id m v :
    m !! id = Some v -> owner v = true -> count_where (by_id_owned owner id) m = 1%nat.
  Proof.
    intros Hv Ho. unfold count_where.
    replace (filter _ m) with ({[id := v]} : gmap nat V); [apply map_size_singleton|].
    apply map_eq. intros k. rewrite map_lookup_filter. unfold by_id_owned.
    destruct (decide (k = id)) as [->|Hne].
    - rewrite lookup_singleton_eq, Hv. simpl. rewrite Nat.eqb_refl, Ho.
      case_guard; naive_solver.
    - rewrite lookup_singleton_ne by done. destruct (m !! k); simpl; [|done].
      rewrite (proj2 (Nat.eqb_neq k id) Hne). case_guard; naive_solver.
  Qed.

  (** The row [id] owned by [owner], as [SELECT ... WHERE id = ? AND user_id = ?]
      returns it (the id is the primary key: at most one row). *)
Definition select_owned (owner : V -> bool) (id : nat) m : option V :=
    match m !! id with
    | Some v => if owner v then Some v else None
    | None => None
    end.

Lemma select_owned_Some owner id m v :
    select_owned owner id m = Some v <-> m !! id = Some v /\ owner v = true.
  Proof.
    unfold select_owned. destruct (m !! id) as [w|]; [|split; [done|by intros []]].
    destruct (owner w) eqn:E; split.
    - by intros [= <-].
    - by intros [[= <-] _].
    - done.
    - intros [[= <-] Ho]. congruence.
  Qed.

  (** [DELETE ... WHERE id = ? AND user_id = ?] removes exactly the row
      [SELECT ... WHERE id = ? AND user_id = ?] returns, and [affectedRows]
      counts it. *)
Lemma delete_where_select owner id m :
    delete_where (by_id_owned owner id) m =
      match select_owned owner id m with Some _ => delete id m | None => m end /\
    count_where (by_id_owned owner id) m =
      match select_owned owner id m with Some _ => 1%nat | None => 0%nat end.
  Proof.
    destruct (select_owned owner id m) as [v|] eqn:Hs.
    - apply select_owned_Some in Hs as [Hv Ho].
      split; [exact (delete_where_by_id owner id m v Hv Ho)|exact (count_where_by_id owner id m v Hv Ho)].
    - assert (Hn : forall k v, m !! k = Some v -> by_id_owned owner id k v = false).
      { intros k v Hk. unfold by_id_owned. destruct (decide (k = id)) as [->|Hne].
        - unfold select_owned in Hs. rewrite Hk in Hs. rewrite Nat.eqb_refl.
          by destruct (owner v).
        - by rewrite (proj2 (Nat.eqb_neq k id) Hne). }
      split; [|by apply count_where_none].
      apply map_eq. intros k. rewrite lookup_delete_where.
      destruct (m !! k) eqn:Ek; [by rewrite (Hn k v Ek)|done].
  Qed.
End Table.

(** ** Fresh ids *)

(** AUTO_INCREMENT hands out ids above every id in the table. *)
Definition ids_below {V} (m : gmap nat V) (n : nat) : Prop :=
  forall k, is_Some (m !! k) -> (k < n)%nat.

Lemma ids_below_fresh {V} (m : gmap nat V) n : ids_below m n -> m !! n = None.
Proof.
  intros Hb. destruct (m !! n) eqn:E; [|done].
  assert (n < n)%nat by (apply Hb; by rewrite E). lia.
Qed.

Lemma ids_below_insert {V} (m : gmap nat V) n v :
  ids_below m n -> ids_below (<[n:=v]> m) (S n).
Proof.
  intros Hb k Hk. destruct (decide (k = n)) as [->|Hne]; [lia|].
  rewrite lookup_insert_ne in Hk by done. specialize (Hb k Hk). lia.
Qed.

Lemma ids_below_update_where {V} (m : gmap nat V) n P f :
  ids_below m n -> ids_below (update_where P f m) n.
Proof.
  intros Hb k Hk. apply Hb. rewrite lookup_update_where in Hk.
  destruct (m !! k); [done|by destruct Hk].
Qed.

Lemma ids_below_delete_where {V} (m : gmap nat V) n P :
  ids_below m n -> ids_below (delete_where P m) n.
Proof.
  intros Hb k Hk. apply Hb. rewrite lookup_delete_where in Hk.
  destruct (m !! k); [done|by destruct Hk].
Qed.

(** ** Parameter binding

    mysql2's [execute] refuses a parameter that is [undefined]: an optional
    request field that is absent makes the statement throw before it runs. *)
Definition bind_param {A} (o : option A) : Handler A :=
  match o with
  | Some a => se_ret a
  | None => se_fail (DbError UndefinedBind)
  end.

(** ** Foreign keys *)

Definition fk_user (s : db) (u : nat) : bool := bool_decide (is_Some (users s !! u)).
Definition fk_category (s : db) (c : nat) : bool := bool_decide (is_Some (categories s !! c)).

(** ** Statements on [expenses] *)

Definition expense_owned (uid : nat) (e : expense) : bool := (e_user e =? uid)%nat.

(** [INSERT INTO expenses (user_id, category_id, amount, description,
    expense_date) VALUES (?, ?, ?, ?, ?)]; returns [insertId]. *)
Definition sql_insert_expense (e : expense) : Handler nat := fun s =>
  if fk_user s (e_user e) && fk_category s (e_category e) then
    (Ok (next_expense s),
     set_expenses (<[next_expense s := e]> (expenses s)) (S (next_expense s)) s)
  else (Err (DbError FkViolation), s).

(** [SELECT category_id, amount, expense_date FROM expenses WHERE id = ? AND
    user_id = ?]: the row, if the caller owns it. *)
Definition sql_select_expense (id uid : nat) : Handler (option expense) := fun s =>
  (Ok (select_owned (expense_owned uid) id (expenses s)), s).

Definition set_expense_fields (cat : nat) (amt : Z) (desc : string) (d : date)
    (e : expense) : expense :=
  mkExpense (e_user e) cat amt desc d.

(** [UPDATE expenses SET category_id = ?, amount = ?, description = ?,
    expense_date = ? WHERE id = ? AND user_id = ?]. *)
Definition sql_update_expense (id uid cat : nat) (amt : Z) (desc : string) (d : date)
    : Handler nat := fun s =>
  let P := by_id_owned (expense_owned uid) id in
  let n := count_where P (expenses s) in
  if (0 <? n)%nat && negb (fk_category s cat) then (Err (DbError FkViolation), s)
  else (Ok n, set_expenses (update_where P (set_expense_fields cat amt desc d) (expenses s))
                           (next_expense s) s).

(** [DELETE FROM expenses WHERE id = ? AND user_id = ?]. *)
Definition sql_delete_expense (id uid : nat) : Handler nat := fun s =>
  let P := by_id_owned (expense_owned uid) id in
  (Ok (count_where P (expenses s)),
   set_expenses (delete_where P (expenses s)) (next_expense s) s).

(** [SELECT COALESCE(SUM(amount), 0) AS total FROM expenses WHERE user_id = ?
    AND category_id = ? AND DATE_FORMAT(expense_date, '%Y-%m') = ?]. *)
Definition expense_in (uid cat : nat) (mk : string) (e : expense) : bool :=
  (e_user e =? uid)%nat && (e_category e =? cat)%nat && String.eqb (month_key (e_date e)) mk.

Definition spent_of (t : gmap nat expense) (uid cat : nat) (mk : string) : Z :=
  map_zsum (fun _ e => if expense_in uid cat mk e then e_amount e else 0) t.

Definition sql_sum_expenses (uid cat : nat) (mk : string) : Handler Z := fun s =>
  (Ok (spent_of (expenses s) uid cat mk), s).

(** ** Statements on [budgets] *)

Definition budget_owned (uid : nat) (b : budget) : bool := (b_user b =? uid)%nat.

Definition budget_key_is (uid cat : nat) (mk : string) (b : budget) : bool :=
  (b_user b =? uid)%nat && (b_category b =? cat)%nat && String.eqb (b_month b) mk.

Definition add_spent (delta : Z) (b : budget) : budget :=
  mkBudget (b_user b) (b_category b) (b_limit b) (b_spent b + delta) (b_month b).

(** [UPDATE budgets SET current_spent = current_spent + ? WHERE user_id = ?
    AND category_id = ? AND month_year = ?] (the [- ?] form of the code is
    [delta] negated).  Returns the number of rows it matched. *)
Definition sql_adjust_budget (uid cat : nat) (mk : string) (delta : Z) : Handler nat := fun s =>
  let P := fun (_ : nat) b => budget_key_is uid cat mk b in
  (Ok (count_where P (budgets s)),
   set_budgets (update_where P (add_spent delta) (budgets s)) (next_budget s) s).

Definition set_limit (l : Z) (b : budget) : budget :=
  mkBudget (b_user b) (b_category b) l (b_spent b) (b_month b).

(** [INSERT INTO budgets (user_id, category_id, monthly_limit, current_spent,
    month_year) VALUES (?, ?, ?, ?, ?) ON DUPLICATE KEY UPDATE monthly_limit =
    VALUES(monthly_limit)].  A row with the same (user, category, month) key
    only gets the new limit; InnoDB still allocates an AUTO_INCREMENT value.
    Returns the id of the inserted row, or [None] when an existing row was
    updated. *)
Definition sql_upsert_budget (b : budget) : Handler (option nat) := fun s =>
  let P := fun (_ : nat) b' => budget_key_is (b_user b) (b_category b) (b_month b) b' in
  if (0 <? count_where P (budgets s))%nat then
    (Ok None, set_budgets (update_where P (set_limit (b_limit b)) (budgets s))
                          (S (next_budget s)) s)
  else if fk_user s (b_user b) && fk_category s (b_category b) then
    (Ok (Some (next_budget s)),
     set_budgets (<[next_budget s := b]> (budgets s)) (S (next_budget s)) s)
  else (Err (DbError FkViolation), s).

Definition set_budget_fields (cat : nat) (l : Z) (mk : string) (b : budget) : budget :=
  mkBudget (b_user b) cat l (b_spent b) mk.

(** [UPDATE budgets SET category_id = ?, monthly_limit = ?, month_year = ?
    WHERE id = ? AND user_id = ?]: fails on the UNIQUE key when another row
    of the user already has the new (category, month). *)
Definition sql_update_budget (id uid cat : nat) (l : Z) (mk : string) : Handler nat := fun s =>
  let P := by_id_owned (budget_owned uid) id in
  let n := count_where P (budgets s) in
  let clash := count_where (fun k b => negb (k =? id)%nat && budget_key_is uid cat mk b)
                           (budgets s) in
  if (0 <? n)%nat && negb (fk_category s cat) then (Err (DbError FkViolation), s)
  else if (0 <? n)%nat && (0 <? clash)%nat then (Err (DbError DuplicateKey), s)
  else (Ok n, set_budgets (update_where P (set_budget_fields cat l mk) (budgets s))
                          (next_budget s) s).

(** [DELETE FROM budgets WHERE id = ? AND user_id = ?]. *)
Definition sql_delete_budget (id uid : nat) : Handler nat := fun s =>
  let P := by_id_owned (budget_owned uid) id in
  (Ok (count_where P (budgets s)), set_budgets (delete_where P (budgets s)) (next_budget s) s).
