(* ===== verification/Expenses.v ===== *)
(** * The expense handlers (routes/expenses.ts)

    [create_expense], [get_expense], [update_expense] and [delete_expense]
    are the POST, GET /:id, PUT /:id and DELETE /:id handlers, composed from
    the statements of [Store] in the order the code runs them, with the
    [validateExpense] middleware in front of POST and PUT.  The authenticated
    user id [uid] is the [req.user!.id] the JWT middleware provides.  [tz] is
    the server's time zone (see [Dates.mysql_date_to_js]). *)

From S2P Require Import Spec2Rocq Dates Store.

(** The request body [{ categoryId, amount, description, expenseDate }].  An
    absent [description] is [None]: JavaScript [undefined]. *)
Record expense_req := mkExpenseReq {
  rq_category : Z;
  rq_amount : Z;
  rq_description : option string;
  rq_date : date
}.

(** [validateExpense] (middleware/validation.ts:34-48): [categoryId] a positive
    integer, [amount] positive.  [expenseDate] is already a calendar date in
    this model and [description], when present, a string. *)
Definition validate_expense (r : expense_req) : bool :=
  (0 <? rq_category r) && (0 <? rq_amount r).

Definition rq_cat (r : expense_req) : nat := Z.to_nat (rq_category r).

(** POST /: insert the row, then add its amount to the budget of its month. *)
Definition create_expense (uid : nat) (r : expense_req) : Handler nat :=
  se_guard (validate_expense r) BadRequest ;;;
  desc <- bind_param (rq_description r) ;;
  id <- sql_insert_expense (mkExpense uid (rq_cat r) (rq_amount r) desc (rq_date r)) ;;
  _ <- sql_adjust_budget uid (rq_cat r) (request_month (rq_date r)) (rq_amount r) ;;
  se_ret id.

(** GET /:id: the owned row joined with its category. *)
Definition get_expense (uid id : nat) : Handler (expense * category) := fun s =>
  match select_owned (expense_owned uid) id (expenses s) with
  | Some e =>
      match categories s !! e_category e with
      | Some c => (Ok (e, c), s)
      | None => (Err NotFound, s)
      end
  | None => (Err NotFound, s)
  end.

(** The budget part of PUT /:id (routes/expenses.ts:145-170): one delta when
    neither the month nor the category changed, otherwise subtract the old
    amount from the old budget and add the new one to the new budget. *)
Definition rebalance_budgets (tz : Z) (uid : nat) (old : expense)
    (cat : nat) (amt : Z) (d : date) : Handler unit :=
  let old_month := stored_month tz (e_date old) in
  let new_month := request_month d in
  if String.eqb old_month new_month && (e_category old =? cat)%nat then
    _ <- sql_adjust_budget uid cat new_month (amt - e_amount old) ;;
    se_ret tt
  else
    _ <- sql_adjust_budget uid (e_category old) old_month (- e_amount old) ;;
    _ <- sql_adjust_budget uid cat new_month amt ;;
    se_ret tt.

(** PUT /:id. *)
Definition update_expense (tz : Z) (uid id : nat) (r : expense_req) : Handler unit :=
  se_guard (validate_expense r) BadRequest ;;;
  old <- sql_select_expense id uid ;;
  match old with
  | None => se_fail NotFound
  | Some o =>
      desc <- bind_param (rq_description r) ;;
      _ <- sql_update_expense id uid (rq_cat r) (rq_amount r) desc (rq_date r) ;;
      rebalance_budgets tz uid o (rq_cat r) (rq_amount r) (rq_date r)
  end.

(** DELETE /:id: delete the row, then subtract its amount from its budget. *)
Definition delete_expense (tz : Z) (uid id : nat) : Handler unit :=
  old <- sql_select_expense id uid ;;
  match old with
  | None => se_fail NotFound
  | Some o =>
      _ <- sql_delete_expense id uid ;;
      _ <- sql_adjust_budget uid (e_category o) (stored_month tz (e_date o)) (- e_amount o) ;;
      se_ret tt
  end.

(** ** Error paths of POST / *)

(** C26: POST /expenses answers BadRequest on an invalid body, fails with
    mysql2's undefined-parameter error when [description] is absent, and fails
    on the foreign key for an unknown category, each time leaving the database
    unchanged. *)
Theorem create_expense_errors uid r s :
  (validate_expense r = false -> create_expense uid r s = (Err BadRequest, s)) /\
  (validate_expense r = true -> rq_description r = None ->
   create_expense uid r s = (Err (DbError UndefinedBind), s)) /\
  (validate_expense r = true -> is_Some (rq_description r) ->
   fk_category s (rq_cat r) = false ->
   create_expense uid r s = (Err (DbError FkViolation), s)).
Proof.
  unfold create_expense. run_se. split; [|split].
  - intros ->. reflexivity.
  - intros -> ->. reflexivity.
  - intros -> [desc ->] Hc. run_se. unfold sql_insert_expense. simpl.
    by rewrite Hc, andb_false_r.
Qed.

Lemma create_expense_errors_witness :
  create_expense 1 (mkExpenseReq 2 12000 None (mkDate 2024 3 5)) empty_db =
    (Err (DbError UndefinedBind), empty_db).
Proof. apply create_expense_errors; reflexivity. Defined.
