(* ===== verification/Budgets.v ===== *)
(** * The budget handlers (routes/budgets.ts)

    [create_budget], [update_budget] and [delete_budget] are the POST, PUT
    /:id and DELETE /:id handlers, with the [validateBudget] middleware in
    front of POST and PUT.  POST back-fills [current_spent] from the
    expenses already recorded for the key and upserts the row; PUT rewrites
    the key and the limit of a row and leaves [current_spent] as it was. *)

From S2P Require Import Spec2Rocq Dates Store.

(** The request body [{ categoryId, monthlyLimit, monthYear }]. *)
Record budget_req := mkBudgetReq {
  bq_category : Z;
  bq_limit : Z;
  bq_month : string
}.

(** [validateBudget] (middleware/validation.ts:67-80). *)
Definition validate_budget (r : budget_req) : bool :=
  (0 <? bq_category r) && (0 <? bq_limit r) && month_year_pattern (bq_month r).

Definition bq_cat (r : budget_req) : nat := Z.to_nat (bq_category r).

(** POST /: [SELECT COALESCE(SUM(amount), 0) ...] then the upsert. *)
Definition create_budget (uid : nat) (r : budget_req) : Handler (option nat) :=
  se_guard (validate_budget r) BadRequest ;;;
  total <- sql_sum_expenses uid (bq_cat r) (bq_month r) ;;
  sql_upsert_budget (mkBudget uid (bq_cat r) (bq_limit r) total (bq_month r)).

(** PUT /:id: 404 when no owned row matched. *)
Definition update_budget (uid id : nat) (r : budget_req) : Handler unit :=
  se_guard (validate_budget r) BadRequest ;;;
  n <- sql_update_budget id uid (bq_cat r) (bq_limit r) (bq_month r) ;;
  se_guard (negb (n =? 0)%nat) NotFound.

(** DELETE /:id. *)
Definition delete_budget (uid id : nat) : Handler unit :=
  n <- sql_delete_budget id uid ;;
  se_guard (negb (n =? 0)%nat) NotFound.

(** ** The month pattern

    [^\d{4}-\d{2}$] accepts months 00 and 13 to 99.  A budget created with
    such a key passes validation and is stored, but no expense date has that
    month, so no expense ever adjusts it. *)

(** C30: validateBudget accepts the month key 2024-13, which is the month of
    no valid expense date. *)
Theorem budget_month_13_never_matches :
  validate_budget (mkBudgetReq 2 50000 "2024-13") = true /\
  forall d, valid_date d = true -> month_key d <> "2024-13".
Proof.
  split; [reflexivity|]. intros d Hv Heq.
  apply valid_date_bounds in Hv as (Hy & Hm & _).
  pose proof (parse_format_month (d_year d) (d_month d)) as Hp.
  unfold month_key in Heq. rewrite Heq in Hp.
  assert (parse_month_key "2024-13" = Some (2024, 13)) as Hk by reflexivity.
  rewrite Hk in Hp. specialize (Hp ltac:(lia) ltac:(lia)). injection Hp. lia.
Qed.
