(* ===== verification/Ledger.v ===== *)
(** * Reconciliation of budgets with expenses

    The spec's invariant (section 3): the [current_spent] of every budget row
    equals the sum of the amounts of the expenses of its user and category
    whose date falls in its month.  [tracks bt f] says the rows of [bt]
    follow the function [f] of their key; [reconciled s] is [tracks] with the
    true sums [spent_of].  The abstract ledger of the spec is the function
    [spent_of (expenses s)] from keys to amounts; the expense handlers refine
    it: each moves that function by the amounts the spec's section 4.1 names,
    and [sql_adjust_budget] moves the cached column by the same amounts. *)

From S2P Require Import Spec2Rocq Dates Store Expenses Budgets.

(** ** Keys and contributions *)

Definition key_hit (u c : nat) (m : string) (uid cat : nat) (mk : string) : bool :=
  (u =? uid)%nat && (c =? cat)%nat && String.eqb m mk.

(** What one expense adds to the sum of a key. *)
Definition contrib (e : expense) (u c : nat) (m : string) : Z :=
  if expense_in u c m e then e_amount e else 0.

Definition tracks (bt : gmap nat budget) (f : nat -> nat -> string -> Z) : Prop :=
  forall id b, bt !! id = Some b -> b_spent b = f (b_user b) (b_category b) (b_month b).

Definition reconciled (s : db) : Prop := tracks (budgets s) (spent_of (expenses s)).

Definition ledger_inv (s : db) : Prop :=
  reconciled s /\ ids_below (expenses s) (next_expense s).

(** ** Lemmas on keys *)

Lemma key_hit_sym u c m uid cat mk : key_hit u c m uid cat mk = key_hit uid cat mk u c m.
Proof. unfold key_hit. by rewrite (Nat.eqb_sym u), (Nat.eqb_sym c), String.eqb_sym. Qed.

Lemma key_hit_true u c m uid cat mk :
  key_hit u c m uid cat mk = true <-> u = uid /\ c = cat /\ m = mk.
Proof.
  unfold key_hit. rewrite !andb_true_iff, Nat.eqb_eq, Nat.eqb_eq, String.eqb_eq. tauto.
Qed.

Lemma expense_in_hit u c m e :
  expense_in u c m e = key_hit (e_user e) (e_category e) (month_key (e_date e)) u c m.
Proof. reflexivity. Qed.

Lemma budget_key_is_hit uid cat mk b :
  budget_key_is uid cat mk b = key_hit (b_user b) (b_category b) (b_month b) uid cat mk.
Proof. reflexivity. Qed.

(** ** How the sums move *)

Lemma spent_of_insert_None t i e u c m :
  t !! i = None -> spent_of (<[i:=e]> t) u c m = spent_of t u c m + contrib e u c m.
Proof. intros Hi. unfold spent_of. rewrite map_zsum_insert_None by done. unfold contrib. lia. Qed.

Lemma spent_of_insert_Some t i e e' u c m :
  t !! i = Some e ->
  spent_of (<[i:=e']> t) u c m = spent_of t u c m - contrib e u c m + contrib e' u c m.
Proof. intros Hi. unfold spent_of. rewrite (map_zsum_insert_Some _ _ _ e) by done. unfold contrib. lia. Qed.

Lemma spent_of_delete t i e u c m :
  t !! i = Some e -> spent_of (delete i t) u c m = spent_of t u c m - contrib e u c m.
Proof. intros Hi. unfold spent_of. rewrite (map_zsum_delete _ t i e Hi). unfold contrib. lia. Qed.

(** ** How the cached column moves *)

Lemma tracks_ext bt f g :
  (forall u c m, f u c m = g u c m) -> tracks bt f -> tracks bt g.
Proof. intros Hfg Ht id b Hb. rewrite <- Hfg. by apply (Ht id). Qed.

(** The single owned operation of the spec's design notes: [sql_adjust_budget]
    adds [delta] to the cached sum of exactly the rows of its key. *)
Lemma tracks_adjust bt f uid cat mk delta :
  tracks bt f ->
  tracks (update_where (fun _ b => budget_key_is uid cat mk b) (add_spent delta) bt)
         (fun u c m => f u c m + if key_hit u c m uid cat mk then delta else 0).
Proof.
  intros Ht id b Hb. rewrite lookup_update_where in Hb.
  destruct (bt !! id) as [b0|] eqn:E; simpl in Hb; [|done].
  rewrite budget_key_is_hit in Hb.
  destruct (key_hit _ _ _ uid cat mk) eqn:K; injection Hb as <-; simpl;
    rewrite (Ht id b0 E), ?K; lia.
Qed.

Lemma tracks_update_keep bt f (P : nat -> budget -> bool) (g : budget -> budget) :
  (forall b, b_spent (g b) = b_spent b /\ b_user (g b) = b_user b /\
             b_category (g b) = b_category b /\ b_month (g b) = b_month b) ->
  tracks bt f -> tracks (update_where P g bt) f.
Proof.
  intros Hg Ht id b Hb. rewrite lookup_update_where in Hb.
  destruct (bt !! id) as [b0|] eqn:E; simpl in Hb; [|done].
  destruct (P id b0); injection Hb as <-; [|by apply (Ht id)].
  destruct (Hg b0) as (-> & -> & -> & ->). by apply (Ht id).
Qed.

Lemma tracks_delete_where bt f P : tracks bt f -> tracks (delete_where P bt) f.
Proof.
  intros Ht id b Hb. rewrite lookup_delete_where in Hb.
  destruct (bt !! id) as [b0|] eqn:E; [|done].
  destruct (P id b0); [done|]. injection Hb as <-. by apply (Ht id).
Qed.

Lemma tracks_insert bt f i b :
  b_spent b = f (b_user b) (b_category b) (b_month b) ->
  tracks bt f -> tracks (<[i:=b]> bt) f.
Proof.
  intros Hb Ht id b' Hb'. destruct (decide (id = i)) as [->|Hne].
  - rewrite lookup_insert_eq in Hb'. by injection Hb' as <-.
  - rewrite lookup_insert_ne in Hb' by done. by apply (Ht id).
Qed.

#[export] Hint Resolve tracks_delete_where tracks_insert : pw.

(** ** The expense handlers keep the budgets reconciled *)

(** C1: POST /expenses keeps the ledger invariant: when every budget row's
    [current_spent] is the sum of the matching expenses and expense ids are
    below the AUTO_INCREMENT counter, the same holds after [create_expense],
    whatever its outcome. *)
Theorem create_expense_reconciled uid r s :
  ledger_inv s -> ledger_inv (snd (create_expense uid r s)).
Proof.
  intros [Hrec Hids]. unfold create_expense. run_se.
  destruct (validate_expense r); run_se; [|by split].
  destruct (rq_description r) as [desc|]; run_se; [|by split].
  unfold sql_insert_expense. destruct (fk_user _ _ && fk_category _ _); run_se; [|by split].
  split; [|by apply ids_below_insert].
  eapply tracks_ext; [|apply tracks_adjust, Hrec].
  intros u c m. simpl. rewrite spent_of_insert_None by (by apply ids_below_fresh).
  unfold contrib. rewrite expense_in_hit, key_hit_sym. simpl. by rewrite request_month_key.
Qed.

Lemma contrib_own uid o u c m :
  e_user o = uid ->
  contrib o u c m = if key_hit u c m uid (e_category o) (month_key (e_date o))
                    then e_amount o else 0.
Proof. intros <-. unfold contrib. by rewrite expense_in_hit, key_hit_sym. Qed.

Lemma expense_owned_user uid o : expense_owned uid o = true -> e_user o = uid.
Proof. unfold expense_owned. intros H. by apply Nat.eqb_eq. Qed.

(** The budget part of PUT /:id moves the cached sums as replacing the old
    row by the new one moves the true sums, when the server is not east of
    UTC. *)
Lemma rebalance_tracks tz uid o cat amt desc d s f :
  tz <= 0 -> e_user o = uid -> tracks (budgets s) f ->
  tracks (budgets (snd (rebalance_budgets tz uid o cat amt d s)))
         (fun u c m => f u c m - contrib o u c m + contrib (mkExpense uid cat amt desc d) u c m).
Proof.
  intros Htz Hu Ht. unfold rebalance_budgets.
  rewrite stored_month_west by done. change (request_month d) with (month_key d).
  destruct (String.eqb _ _ && _) eqn:K; run_se.
  - apply andb_true_iff in K as [Km Kc].
    apply String.eqb_eq in Km. apply Nat.eqb_eq in Kc. subst cat.
    eapply tracks_ext; [|apply tracks_adjust, Ht]. intros u c m.
    rewrite (contrib_own uid o), (contrib_own uid) by done. simpl. rewrite Km.
    destruct (key_hit _ _ _ _ _ _); lia.
  - eapply tracks_ext; [|apply tracks_adjust, tracks_adjust, Ht]. intros u c m.
    rewrite (contrib_own uid o), (contrib_own uid) by done. simpl.
    destruct (key_hit u c m uid (e_category o) _), (key_hit u c m uid cat _); lia.
Qed.

Lemma rebalance_expenses tz uid o cat amt d s :
  expenses (snd (rebalance_budgets tz uid o cat amt d s)) = expenses s /\
  next_expense (snd (rebalance_budgets tz uid o cat amt d s)) = next_expense s.
Proof. unfold rebalance_budgets. by destruct (_ && _); run_se. Qed.

(** C2: PUT /expenses/:id keeps the ledger invariant on a server at UTC or
    west of it ([tz <= 0]). *)
Theorem update_expense_reconciled tz uid id r s :
  tz <= 0 -> ledger_inv s -> ledger_inv (snd (update_expense tz uid id r s)).
Proof.
  intros Htz [Hrec Hids]. unfold update_expense, sql_select_expense. run_se.
  destruct (validate_expense r); run_se; [|by split].
  destruct (select_owned _ id (expenses s)) as [o|] eqn:Hsel; run_se; [|by split].
  apply select_owned_Some in Hsel as [Ho Hown].
  destruct (rq_description r) as [desc|]; run_se; [|by split].
  unfold sql_update_expense. rewrite (count_where_by_id _ _ _ o Ho Hown). simpl.
  destruct (fk_category s _); run_se; [|by split].
  rewrite (update_where_by_id _ _ _ _ o Ho Hown).
  pose proof (expense_owned_user uid o Hown) as Hu. unfold ledger_inv, reconciled.
  destruct (rebalance_expenses tz uid o (rq_cat r) (rq_amount r) (rq_date r)
             (set_expenses (<[id:=set_expense_fields (rq_cat r) (rq_amount r) desc (rq_date r) o]>
                (expenses s)) (next_expense s) s)) as [-> ->].
  split.
  - eapply tracks_ext; [|by apply (rebalance_tracks tz uid o _ _ desc _ _ (spent_of (expenses s)))].
    intros u c m. simpl. rewrite (spent_of_insert_Some _ _ o) by done.
    unfold set_expense_fields. by rewrite Hu.
  - intros k Hk. apply Hids. simpl in Hk.
    destruct (decide (k = id)) as [->|Hne]; [by rewrite Ho|].
    by rewrite lookup_insert_ne in Hk.
Qed.

(** C3: DELETE /expenses/:id keeps the ledger invariant on a server at UTC or
    west of it. *)
Theorem delete_expense_reconciled tz uid id s :
  tz <= 0 -> ledger_inv s -> ledger_inv (snd (delete_expense tz uid id s)).
Proof.
  intros Htz [Hrec Hids]. unfold delete_expense, sql_select_expense. run_se.
  destruct (select_owned _ id (expenses s)) as [o|] eqn:Hsel; run_se; [|by split].
  apply select_owned_Some in Hsel as [Ho Hown].
  pose proof (expense_owned_user uid o Hown) as Hu.
  unfold sql_delete_expense. run_se. rewrite (delete_where_by_id _ _ _ o Ho Hown).
  split.
  - eapply tracks_ext; [|apply tracks_adjust, Hrec]. intros u c m. simpl.
    rewrite (spent_of_delete _ _ o), (contrib_own uid o), stored_month_west by done.
    destruct (key_hit _ _ _ _ _ _); lia.
  - intros k Hk. apply Hids. simpl in Hk.
    destruct (decide (k = id)) as [->|Hne]; [by rewrite Ho|].
    by rewrite lookup_delete_ne in Hk.
Qed.

(** ** The budget handlers *)

(** C4: POST /budgets keeps the ledger invariant: a new row is back-filled
    with the sum of its expenses, and the upsert of an existing key changes
    only its limit. *)
Theorem create_budget_reconciled uid r s :
  ledger_inv s -> ledger_inv (snd (create_budget uid r s)).
Proof.
  intros [Hrec Hids]. unfold create_budget. run_se.
  destruct (validate_budget r); run_se; [|by split].
  unfold sql_upsert_budget. simpl.
  destruct (0 <? count_where _ _)%nat; [|destruct (fk_user _ _ && fk_category _ _)];
    run_se; split; try done.
  - apply tracks_update_keep; [|done]. by intros b.
  - by apply tracks_insert.
Qed.

Lemma delete_budget_inv uid id s :
  ledger_inv s -> ledger_inv (snd (delete_budget uid id s)).
Proof.
  intros [Hrec Hids]. unfold delete_budget, sql_delete_budget. run_se.
  destruct (count_where _ _ =? 0)%nat; run_se; split; try done;
    by apply tracks_delete_where.
Qed.

Lemma set_budgets_same s : set_budgets (budgets s) (next_budget s) s = s.
Proof. by destruct s. Qed.

(** C5: DELETE /budgets/:id deletes exactly the caller's budget row with that
    id and answers success, or, when the caller owns no such row, answers
    NotFound and changes nothing; either way the ledger invariant is kept. *)
Theorem delete_budget_reconciled uid id s :
  ledger_inv s ->
  ledger_inv (snd (delete_budget uid id s)) /\
  delete_budget uid id s =
    match select_owned (budget_owned uid) id (budgets s) with
    | Some _ => (Ok tt, set_budgets (delete id (budgets s)) (next_budget s) s)
    | None => (Err NotFound, s)
    end.
Proof.
  intros Hinv. split; [by apply delete_budget_inv|].
  destruct (delete_where_select (budget_owned uid) id (budgets s)) as [Hd Hc].
  unfold delete_budget, sql_delete_budget. run_se. rewrite Hd, Hc.
  destruct (select_owned _ id _); run_se; [done|by rewrite set_budgets_same].
Qed.

(** ** A decision procedure for the invariant *)

Definition reconciled_b (s : db) : bool :=
  bool_decide (map_Forall (fun _ b => b_spent b = spent_of (expenses s) (b_user b)
                                        (b_category b) (b_month b)) (budgets s)).

Lemma reconciled_b_spec s : reconciled_b s = true <-> reconciled s.
Proof.
  unfold reconciled_b, reconciled, tracks. rewrite bool_decide_eq_true.
  by rewrite map_Forall_lookup.
Qed.

(** ** The functional behaviour of the expense handlers (spec section 8) *)

Lemma lookup_adjust uid cat mk delta bt bid :
  update_where (fun _ b => budget_key_is uid cat mk b) (add_spent delta) bt !! bid =
  (fun b => if budget_key_is uid cat mk b then add_spent delta b else b) <$> bt !! bid.
Proof. by rewrite lookup_update_where. Qed.

(** The success path of POST /. *)
Lemma create_expense_ok uid r s desc :
  validate_expense r = true -> rq_description r = Some desc ->
  fk_user s uid = true -> fk_category s (rq_cat r) = true ->
  create_expense uid r s =
  (Ok (next_expense s),
   set_budgets (update_where (fun _ b => budget_key_is uid (rq_cat r) (month_key (rq_date r)) b)
                             (add_spent (rq_amount r)) (budgets s)) (next_budget s)
     (set_expenses (<[next_expense s := mkExpense uid (rq_cat r) (rq_amount r) desc (rq_date r)]>
                     (expenses s)) (S (next_expense s)) s)).
Proof.
  intros Hv Hd Hu Hc. unfold create_expense. run_se. rewrite Hv, Hd. run_se.
  unfold sql_insert_expense. simpl. rewrite Hu, Hc. reflexivity.
Qed.

(** C10: A successful POST /expenses adds exactly its amount to
    [current_spent] of the budget row of its user, category and month. *)
Theorem create_expense_adds_to_budget uid r s desc bid b :
  validate_expense r = true -> rq_description r = Some desc ->
  fk_user s uid = true -> fk_category s (rq_cat r) = true ->
  budgets s !! bid = Some b ->
  budget_key_is uid (rq_cat r) (month_key (rq_date r)) b = true ->
  b_spent <$> budgets (snd (create_expense uid r s)) !! bid = Some (b_spent b + rq_amount r).
Proof.
  intros Hv Hd Hu Hc Hb Hk. rewrite (create_expense_ok uid r s desc) by done.
  simpl. rewrite lookup_adjust, Hb. simpl. by rewrite Hk.
Qed.

(** Deleting an expense twice: the second DELETE /expenses/:id answers
    NotFound. *)
Theorem delete_expense_twice tz uid id s :
  fst (delete_expense tz uid id (snd (delete_expense tz uid id s))) = Err NotFound.
Proof.
  unfold delete_expense, sql_select_expense. run_se.
  destruct (select_owned _ id (expenses s)) as [o|] eqn:Hsel; run_se.
  - apply select_owned_Some in Hsel as [Ho Hown].
    unfold sql_delete_expense. run_se. rewrite (delete_where_by_id _ _ _ o Ho Hown).
    unfold select_owned. by rewrite lookup_delete_eq.
  - by rewrite Hsel.
Qed.

(** The success path of PUT /: the row is rewritten, then [rebalance_budgets]. *)
Lemma update_expense_ok tz uid id r s o desc :
  validate_expense r = true -> expenses s !! id = Some o -> e_user o = uid ->
  rq_description r = Some desc -> fk_category s (rq_cat r) = true ->
  update_expense tz uid id r s =
  rebalance_budgets tz uid o (rq_cat r) (rq_amount r) (rq_date r)
    (set_expenses (<[id := set_expense_fields (rq_cat r) (rq_amount r) desc (rq_date r) o]>
                    (expenses s)) (next_expense s) s).
Proof.
  intros Hv Ho Hu Hd Hc.
  assert (Hown : expense_owned uid o = true) by (apply Nat.eqb_eq; done).
  unfold update_expense, sql_select_expense. run_se. rewrite Hv. run_se.
  replace (select_owned _ id _) with (Some o) by (symmetry; by apply select_owned_Some).
  rewrite Hd. run_se. unfold sql_update_expense.
  rewrite (count_where_by_id _ _ _ o Ho Hown), Hc. simpl.
  by rewrite (update_where_by_id _ _ _ _ o Ho Hown).
Qed.

Lemma rebalance_same tz uid o cat amt d s :
  String.eqb (stored_month tz (e_date o)) (request_month d) && (e_category o =? cat)%nat = true ->
  budgets (snd (rebalance_budgets tz uid o cat amt d s)) =
  update_where (fun _ b => budget_key_is uid cat (request_month d) b)
               (add_spent (amt - e_amount o)) (budgets s).
Proof. intros K. unfold rebalance_budgets. by rewrite K. Qed.

Lemma rebalance_moved tz uid o cat amt d s :
  String.eqb (stored_month tz (e_date o)) (request_month d) && (e_category o =? cat)%nat = false ->
  budgets (snd (rebalance_budgets tz uid o cat amt d s)) =
  update_where (fun _ b => budget_key_is uid cat (request_month d) b) (add_spent amt)
    (update_where (fun _ b => budget_key_is uid (e_category o) (stored_month tz (e_date o)) b)
                  (add_spent (- e_amount o)) (budgets s)).
Proof. intros K. unfold rebalance_budgets. by rewrite K. Qed.

(** C11: A PUT /expenses/:id that keeps the month and the category changes
    [current_spent] of that key's budget row by exactly the new amount minus
    the old one. *)
Theorem update_expense_same_key tz uid id r s o desc bid b :
  validate_expense r = true -> expenses s !! id = Some o -> e_user o = uid ->
  rq_description r = Some desc -> fk_category s (rq_cat r) = true ->
  stored_month tz (e_date o) = request_month (rq_date r) -> e_category o = rq_cat r ->
  budgets s !! bid = Some b ->
  budget_key_is uid (rq_cat r) (request_month (rq_date r)) b = true ->
  b_spent <$> budgets (snd (update_expense tz uid id r s)) !! bid =
  Some (b_spent b + (rq_amount r - e_amount o)).
Proof.
  intros Hv Ho Hu Hd Hc Hm Hcat Hb Hk.
  rewrite (update_expense_ok tz uid id r s o desc) by done.
  rewrite rebalance_same; [|by rewrite Hm, String.eqb_refl, Hcat, Nat.eqb_refl].
  simpl. rewrite lookup_adjust, Hb. simpl. by rewrite Hk.
Qed.

(** C12: A PUT /expenses/:id that changes the month or the category takes the
    old amount off the old key's budget row and adds the new amount to the new
    key's row. *)
Theorem update_expense_moves tz uid id r s o desc bo bn old_row new_row :
  validate_expense r = true -> expenses s !! id = Some o -> e_user o = uid ->
  rq_description r = Some desc -> fk_category s (rq_cat r) = true ->
  (stored_month tz (e_date o), e_category o) <> (request_month (rq_date r), rq_cat r) ->
  budgets s !! bo = Some old_row ->
  budget_key_is uid (e_category o) (stored_month tz (e_date o)) old_row = true ->
  budgets s !! bn = Some new_row ->
  budget_key_is uid (rq_cat r) (request_month (rq_date r)) new_row = true ->
  b_spent <$> budgets (snd (update_expense tz uid id r s)) !! bo =
    Some (b_spent old_row - e_amount o) /\
  b_spent <$> budgets (snd (update_expense tz uid id r s)) !! bn =
    Some (b_spent new_row + rq_amount r).
Proof.
  intros Hv Ho Hu Hd Hc Hne Hbo Hko Hbn Hkn.
  rewrite (update_expense_ok tz uid id r s o desc) by done.
  assert (Hdiff : forall b, budget_key_is uid (e_category o) (stored_month tz (e_date o)) b = true ->
                       budget_key_is uid (rq_cat r) (request_month (rq_date r)) b = false).
  { intros b Hb1. apply not_true_iff_false. intros Hb2.
    rewrite budget_key_is_hit, key_hit_true in Hb1, Hb2.
    destruct Hb1 as (_ & Hc1 & Hm1), Hb2 as (_ & Hc2 & Hm2). apply Hne. congruence. }
  rewrite rebalance_moved.
  2: { apply not_true_iff_false. rewrite andb_true_iff, String.eqb_eq, Nat.eqb_eq.
       intros [Hm Hcat]. apply Hne. by rewrite Hm, Hcat. }
  simpl. rewrite !lookup_adjust, Hbo, Hbn. simpl. split.
  - rewrite Hko. simpl. rewrite (Hdiff (add_spent _ old_row)) by exact Hko.
    simpl. by rewrite Z.add_opp_r.
  - destruct (budget_key_is uid (e_category o) _ new_row) eqn:E.
    + by rewrite (Hdiff _ E) in Hkn.
    + by rewrite Hkn.
Qed.

Lemma set_budgets_id s : set_budgets (budgets s) (next_budget s) s = s.
Proof. by destruct s. Qed.

(** An adjustment of a key that has no budget row matches no row and
    leaves the database as it was. *)
Theorem adjust_budget_no_row uid cat mk delta s :
  (forall k b, budgets s !! k = Some b -> budget_key_is uid cat mk b = false) ->
  sql_adjust_budget uid cat mk delta s = (Ok 0%nat, s).
Proof.
  intros Hn. unfold sql_adjust_budget.
  rewrite count_where_none, update_where_none by done. by rewrite set_budgets_id.
Qed.

(** ** Where the code breaks the invariant *)

(** On a server east of UTC, deleting an expense dated on the first of a
    month subtracts its amount from the budget of the previous month: the
    month the code derives from the stored DATE is [prev_day]'s. *)
(** On a server east of UTC, DELETE /expenses/:id subtracts the amount
    from the budget of the month of the day before the stored date: an expense
    dated on the first of a month comes off the previous month's budget. *)
Theorem delete_expense_east_first tz uid id s o :
  0 < tz -> select_owned (expense_owned uid) id (expenses s) = Some o ->
  budgets (snd (delete_expense tz uid id s)) =
  update_where (fun _ b => budget_key_is uid (e_category o) (month_key (prev_day (e_date o))) b)
               (add_spent (- e_amount o)) (budgets s).
Proof.
  intros Htz Hsel. unfold delete_expense, sql_select_expense. run_se. rewrite Hsel. run_se.
  by rewrite stored_month_prev.
Qed.

(** A small database: user 1, category 2, one expense of 120.00 dated
    2024-03-01, and budgets of user 1 and category 2 for February and March
    2024 that agree with it. *)
Definition ex_db : db :=
  mkDb {[1%nat := mkUser "ann@example.com" "$2a$12$hash" "Ann" "Lee" true None None]} 2
       {[2%nat := mkCategory "Food" "#ff6b6b" "utensils"]}
       {[1%nat := mkExpense 1 2 12000 "groceries" (mkDate 2024 3 1)]} 2
       {[1%nat := mkBudget 1 2 50000 12000 "2024-03"; 2%nat := mkBudget 1 2 50000 0 "2024-02"]} 3
       ∅ 1 ∅ 1.

Lemma ex_db_ledger_inv : ledger_inv ex_db.
Proof.
  split; [apply reconciled_b_spec; vm_compute; reflexivity|].
  intros k Hk. unfold ex_db in *; simpl in *.
  destruct (decide (k = 1%nat)) as [->|Hne]; [lia|].
  by rewrite lookup_singleton_ne in Hk.
Qed.

(** C13: On a server at UTC+05:30, deleting an expense dated 2024-03-01 from a
    reconciled database leaves it unreconciled. *)
Theorem delete_expense_east_breaks_reconciliation :
  ledger_inv ex_db /\ ~ reconciled (snd (delete_expense 330 1 1 ex_db)).
Proof.
  split; [apply ex_db_ledger_inv|].
  rewrite <- reconciled_b_spec. vm_compute. discriminate.
Qed.

(** C14: PUT /budgets/:id moves a row to another month without recomputing
    [current_spent], and leaves a reconciled database unreconciled. *)
Theorem update_budget_breaks_reconciliation :
  ledger_inv ex_db /\
  fst (update_budget 1 1 (mkBudgetReq 2 50000 "2024-04") ex_db) = Ok tt /\
  ~ reconciled (snd (update_budget 1 1 (mkBudgetReq 2 50000 "2024-04") ex_db)).
Proof.
  split; [apply ex_db_ledger_inv|]. split.
  - vm_compute. reflexivity.
  - rewrite <- reconciled_b_spec. vm_compute. discriminate.
Qed.

(** ** Scenarios of the spec (section 8) *)

Definition ex_db0 : db :=
  mkDb {[1%nat := mkUser "ann@example.com" "$2a$12$hash" "Ann" "Lee" true None None]} 2
       {[2%nat := mkCategory "Food" "#ff6b6b" "utensils"]}
       ∅ 1 {[1%nat := mkBudget 1 2 50000 0 "2024-03"]} 2 ∅ 1 ∅ 1.

Definition ex_req (amount : Z) : expense_req :=
  mkExpenseReq 2 amount (Some "") (mkDate 2024 3 5).

(** The spec's scenario: on a budget at 0, creating an expense of 120.00,
    editing it to 200.00 and deleting it gives [current_spent] 12000, 20000
    and 0 cents. *)
Example spec_scenario_budget :
  let s1 := snd (create_expense 1 (ex_req 12000) ex_db0) in
  let s2 := snd (update_expense 0 1 1 (ex_req 20000) s1) in
  let s3 := snd (delete_expense 0 1 1 s2) in
  b_spent <$> budgets s1 !! 1%nat = Some 12000 /\
  b_spent <$> budgets s2 !! 1%nat = Some 20000 /\
  b_spent <$> budgets s3 !! 1%nat = Some 0.
Proof. vm_compute. auto. Qed.

(** A sequence of POST / requests of one user, in order. *)
Fixpoint create_all (uid : nat) (rs : list expense_req) (s : db) : db :=
  match rs with
  | [] => s
  | r :: rs => create_all uid rs (snd (create_expense uid r s))
  end.

(** After a sequence of successful POST /expenses within one user,
    category and month, the budget row's [current_spent] is its earlier value
    plus the sum of the amounts. *)
Theorem create_all_accumulates uid cat mk rs s bid b :
  Forall (fun r => validate_expense r = true /\ is_Some (rq_description r) /\
                   rq_cat r = cat /\ month_key (rq_date r) = mk) rs ->
  fk_user s uid = true -> fk_category s cat = true ->
  budgets s !! bid = Some b -> budget_key_is uid cat mk b = true ->
  b_spent <$> budgets (create_all uid rs s) !! bid = Some (b_spent b + zsum rq_amount rs).
Proof.
  revert s b. induction rs as [|r rs IH]; intros s b Hall Hu Hc Hb Hk; simpl.
  - rewrite Hb. simpl. f_equal. lia.
  - apply Forall_cons in Hall as [(Hv & [desc Hd] & <- & <-) Hall].
    rewrite (create_expense_ok uid r s desc) by done. simpl.
    rewrite (IH _ (add_spent (rq_amount r) b)); try done.
    + simpl. f_equal. lia.
    + simpl. rewrite lookup_adjust, Hb. simpl. by rewrite Hk.
Qed.

(** ** Concurrent adjustments commute

    Each adjustment is one [UPDATE ... SET current_spent = current_spent + ?]
    statement, which the server runs atomically, so two requests that adjust
    budgets leave the same rows whatever the order of their statements. *)

Lemma add_spent_comm d1 d2 b : add_spent d1 (add_spent d2 b) = add_spent d2 (add_spent d1 b).
Proof. unfold add_spent. simpl. f_equal. lia. Qed.

Lemma budget_key_is_add_spent uid cat mk d b :
  budget_key_is uid cat mk (add_spent d b) = budget_key_is uid cat mk b.
Proof. reflexivity. Qed.

(** Two budget adjustments commute: the rows after both are the same in
    either order. *)
Theorem adjust_budget_commute u1 c1 m1 d1 u2 c2 m2 d2 s :
  snd ((_ <- sql_adjust_budget u1 c1 m1 d1 ;; sql_adjust_budget u2 c2 m2 d2) s) =
  snd ((_ <- sql_adjust_budget u2 c2 m2 d2 ;; sql_adjust_budget u1 c1 m1 d1) s).
Proof.
  unfold sql_adjust_budget. run_se. unfold set_budgets. simpl. f_equal.
  apply map_eq. intros k. rewrite !lookup_update_where.
  destruct (budgets s !! k) as [b|]; simpl; [|done]. f_equal.
  destruct (budget_key_is u1 c1 m1 b) eqn:E1, (budget_key_is u2 c2 m2 b) eqn:E2;
    rewrite ?budget_key_is_add_spent, ?E1, ?E2; try done; apply add_spent_comm.
Qed.

(** The two branches of [rebalance_budgets] agree on one key: a single delta
    [amt - old] leaves the rows as [- old] then [+ amt] does.  The code's
    strict comparison [oldExpense.category_id === categoryId] can take the
    second branch for the same category (a string id in the body against a
    number from the database) without changing the result. *)
(** On one key, the single-delta branch of the budget rebalancing of PUT
    /expenses/:id leaves the same rows as the subtract-then-add branch. *)
Theorem rebalance_branches_agree uid cat mk old amt s :
  snd (sql_adjust_budget uid cat mk (amt - old) s) =
  snd ((_ <- sql_adjust_budget uid cat mk (- old) ;; sql_adjust_budget uid cat mk amt) s).
Proof.
  unfold sql_adjust_budget. run_se. unfold set_budgets. simpl. f_equal.
  apply map_eq. intros k. rewrite !lookup_update_where.
  destruct (budgets s !! k) as [b|]; simpl; [|done]. f_equal.
  unfold budget_key_is, add_spent. simpl.
  destruct ((b_user b =? uid)%nat && (b_category b =? cat)%nat && String.eqb (b_month b) mk) eqn:E;
    simpl; rewrite ?E; [f_equal; lia|done].
Qed.

(** ** Witnesses: the theorems above at the example database *)

Lemma create_expense_reconciled_witness :
  ledger_inv (snd (create_expense 1 (ex_req 5000) ex_db)).
Proof. apply create_expense_reconciled. exact ex_db_ledger_inv. Defined.

Lemma update_expense_reconciled_witness :
  ledger_inv (snd (update_expense 0 1 1 (ex_req 20000) ex_db)).
Proof. apply update_expense_reconciled; [lia|exact ex_db_ledger_inv]. Defined.

Lemma delete_expense_reconciled_witness :
  ledger_inv (snd (delete_expense (-300) 1 1 ex_db)).
Proof. apply delete_expense_reconciled; [lia|exact ex_db_ledger_inv]. Defined.

Lemma create_budget_reconciled_witness :
  ledger_inv (snd (create_budget 1 (mkBudgetReq 2 30000 "2024-03") ex_db)).
Proof. apply create_budget_reconciled. exact ex_db_ledger_inv. Defined.

Lemma delete_budget_reconciled_witness :
  ledger_inv (snd (delete_budget 1 2 ex_db)) /\
  delete_budget 1 2 ex_db = (Ok tt, set_budgets (delete 2%nat (budgets ex_db)) 3 ex_db).
Proof. exact (delete_budget_reconciled 1 2 ex_db ex_db_ledger_inv). Defined.

Lemma create_expense_adds_to_budget_witness :
  b_spent <$> budgets (snd (create_expense 1 (ex_req 5000) ex_db0)) !! 1%nat = Some 5000.
Proof.
  apply (create_expense_adds_to_budget 1 (ex_req 5000) ex_db0 "" 1
           (mkBudget 1 2 50000 0 "2024-03")); reflexivity.
Defined.

Lemma update_expense_same_key_witness :
  b_spent <$> budgets (snd (update_expense 0 1 1 (mkExpenseReq 2 20000 (Some "") (mkDate 2024 3 1))
                             ex_db)) !! 1%nat = Some (12000 + (20000 - 12000)).
Proof.
  apply (update_expense_same_key 0 1 1 (mkExpenseReq 2 20000 (Some "") (mkDate 2024 3 1))
           ex_db (mkExpense 1 2 12000 "groceries" (mkDate 2024 3 1))
           "" 1 (mkBudget 1 2 50000 12000 "2024-03")); reflexivity.
Defined.

Lemma update_expense_moves_witness :
  b_spent <$> budgets (snd (update_expense 0 1 1 (mkExpenseReq 2 9000 (Some "") (mkDate 2024 2 20))
                             ex_db)) !! 2%nat = Some (0 + 9000).
Proof.
  apply (update_expense_moves 0 1 1 (mkExpenseReq 2 9000 (Some "") (mkDate 2024 2 20))
           ex_db (mkExpense 1 2 12000 "groceries" (mkDate 2024 3 1))
           "" 1 2 (mkBudget 1 2 50000 12000 "2024-03") (mkBudget 1 2 50000 0 "2024-02"));
    try reflexivity. vm_compute. congruence.
Defined.

Lemma adjust_budget_no_row_witness :
  sql_adjust_budget 1 2 "2024-05" 700 ex_db = (Ok 0%nat, ex_db).
Proof.
  apply adjust_budget_no_row. intros k b Hk. unfold ex_db in Hk. simpl in Hk.
  destruct (decide (k = 1%nat)) as [->|H1]; [by injection Hk as <-|].
  destruct (decide (k = 2%nat)) as [->|H2]; [by injection Hk as <-|].
  by rewrite lookup_insert_ne, lookup_singleton_ne in Hk.
Defined.

Lemma delete_expense_east_first_witness :
  budgets (snd (delete_expense 330 1 1 ex_db)) =
  update_where (fun _ b => budget_key_is 1 2 "2024-02" b) (add_spent (-12000)) (budgets ex_db).
Proof.
  apply (delete_expense_east_first 330 1 1 ex_db (mkExpense 1 2 12000 "groceries" (mkDate 2024 3 1)));
    [lia|reflexivity].
Defined.

Lemma create_all_accumulates_witness :
  b_spent <$> budgets (create_all 1 [ex_req 1000; ex_req 2500] ex_db0) !! 1%nat =
    Some (0 + zsum rq_amount [ex_req 1000; ex_req 2500]).
Proof.
  apply (create_all_accumulates 1 2 "2024-03" _ ex_db0 1 (mkBudget 1 2 50000 0 "2024-03"));
    try reflexivity.
  repeat constructor; by eexists.
Defined.
