(* ===== verification/Reconciler.v ===== *)
(** * The ledger reconciler of the spec as an abstract machine

    Spec section 4.1 describes the reconciler over an abstract state: the
    expense ledger, where an expense is its key (user, category, month) and
    its amount, and the budget rows, each a key, a limit and the cached sum
    [current_spent].  [astate] is that state and [alpha] the view of the
    database as one.  [a_step] is the spec's operations (create, edit and
    delete an expense, create a budget with back-fill or upsert, drop a
    budget), each adjusting the cached sums through the one operation
    [apply_delta] of the spec's design notes; [ledger_step] is the handlers
    of routes/expenses.ts and routes/budgets.ts that change state.  PUT
    /budgets/:id is left out: the spec does not describe it, and
    [Ledger.update_budget_breaks_reconciliation] shows it leaves the ledger.

    The simulation theorem shows that every handler call, whatever its
    outcome, is one abstract operation or no change of the view; the
    abstract operations keep every cached sum equal to the sum of its
    ledger, so every state the handlers reach is reconciled. *)

From S2P Require Import Spec2Rocq Dates Store Expenses Budgets Ledger.

(** ** The abstract state *)

Record akey := AKey { k_user : nat; k_cat : nat; k_month : string }.

#[export] Instance akey_eq_dec : EqDecision akey.
Proof. solve_decision. Defined.

Record aexp := AExp { ax_key : akey; ax_amount : Z }.
Record abud := ABud { ab_key : akey; ab_limit : Z; ab_spent : Z }.
Record astate := AState { a_exp : gmap nat aexp; a_bud : gmap nat abud }.

(** The key of a stored expense uses [DATE_FORMAT(expense_date, '%Y-%m')]. *)
Definition exp_view (e : expense) : aexp :=
  AExp (AKey (e_user e) (e_category e) (month_key (e_date e))) (e_amount e).

Definition bud_view (b : budget) : abud :=
  ABud (AKey (b_user b) (b_category b) (b_month b)) (b_limit b) (b_spent b).

Definition alpha (s : db) : astate :=
  AState (exp_view <$> expenses s) (bud_view <$> budgets s).

(** ** The operations of spec sections 4.1, 6 and 9 *)

(** [applyDelta] / [adjustBudget(userId, categoryId, monthKey, delta)]: the
    rows of the key, if any, get [delta] added to their cached sum. *)
Definition apply_delta (k : akey) (d : Z) (B : gmap nat abud) : gmap nat abud :=
  (fun b => if bool_decide (ab_key b = k) then ABud k (ab_limit b) (ab_spent b + d) else b) <$> B.

(** The upsert of an existing key: only the limit changes. *)
Definition apply_limit (k : akey) (l : Z) (B : gmap nat abud) : gmap nat abud :=
  (fun b => if bool_decide (ab_key b = k) then ABud k l (ab_spent b) else b) <$> B.

(** [backfillBudgetSpent(userId, categoryId, monthKey)]. *)
Definition a_sum (E : gmap nat aexp) (k : akey) : Z :=
  map_zsum (fun _ x => if bool_decide (ax_key x = k) then ax_amount x else 0) E.

(** The budget part of an edit (spec 4.1, step 3). *)
Definition edit_budgets (x x' : aexp) (B : gmap nat abud) : gmap nat abud :=
  if bool_decide (ax_key x = ax_key x')
  then apply_delta (ax_key x) (ax_amount x' - ax_amount x) B
  else apply_delta (ax_key x') (ax_amount x') (apply_delta (ax_key x) (- ax_amount x) B).

Inductive a_step : astate -> astate -> Prop :=
  | a_create E B id x :
      E !! id = None ->
      a_step (AState E B) (AState (<[id := x]> E) (apply_delta (ax_key x) (ax_amount x) B))
  | a_edit E B id x x' :
      E !! id = Some x -> k_user (ax_key x') = k_user (ax_key x) ->
      a_step (AState E B) (AState (<[id := x']> E) (edit_budgets x x' B))
  | a_delete E B id x :
      E !! id = Some x ->
      a_step (AState E B) (AState (delete id E) (apply_delta (ax_key x) (- ax_amount x) B))
  | a_upsert_limit E B k l :
      (exists i b, B !! i = Some b /\ ab_key b = k) ->
      a_step (AState E B) (AState E (apply_limit k l B))
  | a_backfill E B id k l :
      (forall i b, B !! i = Some b -> ab_key b <> k) ->
      a_step (AState E B) (AState E (<[id := ABud k l (a_sum E k)]> B))
  | a_drop_budget E B id :
      a_step (AState E B) (AState E (delete id B))
  | a_stay A : a_step A A.

(** The spec's invariant on the abstract state. *)
Definition a_reconciled (A : astate) : Prop :=
  forall i b, a_bud A !! i = Some b -> ab_spent b = a_sum (a_exp A) (ab_key b).

(** ** The handlers that change the ledger *)

Inductive ledger_step (tz : Z) : db -> db -> Prop :=
  | ls_create_expense uid r s : ledger_step tz s (snd (create_expense uid r s))
  | ls_update_expense uid id r s : ledger_step tz s (snd (update_expense tz uid id r s))
  | ls_delete_expense uid id s : ledger_step tz s (snd (delete_expense tz uid id s))
  | ls_create_budget uid r s : ledger_step tz s (snd (create_budget uid r s))
  | ls_delete_budget uid id s : ledger_step tz s (snd (delete_budget uid id s)).

(** ** The view of the statements *)

Lemma akey_eq_iff u c m u' c' m' : AKey u c m = AKey u' c' m' <-> u = u' /\ c = c' /\ m = m'.
Proof.
  split; [|by intros (-> & -> & ->)].
  intros Hk. exact (conj (f_equal k_user Hk) (conj (f_equal k_cat Hk) (f_equal k_month Hk))).
Qed.

Lemma fmap_update_where {V W} (g : V -> W) (P : V -> bool) (Q : W -> bool)
    (f : V -> V) (f' : W -> W) (m : gmap nat V) :
  (forall v, P v = Q (g v)) -> (forall v, P v = true -> g (f v) = f' (g v)) ->
  g <$> update_where (fun _ v => P v) f m = (fun w => if Q w then f' w else w) <$> (g <$> m).
Proof.
  intros HPQ Hf. apply map_eq. intros i.
  rewrite lookup_fmap, lookup_update_where, !lookup_fmap.
  destruct (m !! i) as [v|]; simpl; [|done]. f_equal.
  rewrite <- HPQ. destruct (P v) eqn:E; [by apply Hf|done].
Qed.

Lemma budget_key_is_view uid cat mk b :
  budget_key_is uid cat mk b = bool_decide (ab_key (bud_view b) = AKey uid cat mk).
Proof.
  unfold budget_key_is. simpl. apply Bool.eq_true_iff_eq.
  rewrite !andb_true_iff, Nat.eqb_eq, Nat.eqb_eq, String.eqb_eq, bool_decide_eq_true.
  split; [intros [[-> ->] ->]; done|by intros [= -> -> ->]].
Qed.

Lemma alpha_adjust uid cat mk d B :
  bud_view <$> update_where (fun _ b => budget_key_is uid cat mk b) (add_spent d) B =
  apply_delta (AKey uid cat mk) d (bud_view <$> B).
Proof.
  apply fmap_update_where; [apply budget_key_is_view|].
  intros b Hb. rewrite budget_key_is_view, bool_decide_eq_true in Hb.
  unfold bud_view in *. simpl in *. by rewrite <- Hb.
Qed.

Lemma alpha_limit uid cat mk l B :
  bud_view <$> update_where (fun _ b => budget_key_is uid cat mk b) (set_limit l) B =
  apply_limit (AKey uid cat mk) l (bud_view <$> B).
Proof.
  apply fmap_update_where; [apply budget_key_is_view|].
  intros b Hb. rewrite budget_key_is_view, bool_decide_eq_true in Hb.
  unfold bud_view in *. simpl in *. by rewrite <- Hb.
Qed.

Lemma a_sum_alpha E u c m : a_sum (exp_view <$> E) (AKey u c m) = spent_of E u c m.
Proof.
  unfold a_sum, spent_of. rewrite map_zsum_fmap. apply map_zsum_ext. intros i e _.
  replace (expense_in u c m e) with (bool_decide (ax_key (exp_view e) = AKey u c m)); [done|].
  unfold expense_in. apply Bool.eq_true_iff_eq.
  rewrite !andb_true_iff, Nat.eqb_eq, Nat.eqb_eq, String.eqb_eq, bool_decide_eq_true.
  simpl. rewrite akey_eq_iff. tauto.
Qed.

Lemma delete_where_none {V} (P : nat -> V -> bool) (m : gmap nat V) :
  (forall k v, m !! k = Some v -> P k v = false) -> delete_where P m = m.
Proof.
  intros Hn. apply map_eq. intros k. rewrite lookup_delete_where.
  destruct (m !! k) eqn:E; [by rewrite Hn|done].
Qed.

Lemma count_where_zero {V} (P : nat -> V -> bool) (m : gmap nat V) :
  count_where P m = 0%nat -> forall k v, m !! k = Some v -> P k v = false.
Proof.
  unfold count_where. rewrite map_size_empty_iff. intros He k v Hk.
  apply not_true_iff_false. intros HP.
  assert (filter (fun kv => P kv.1 kv.2 = true) m !! k = Some v) as Hf
    by (rewrite map_lookup_filter_Some; auto).
  by rewrite He, lookup_empty in Hf.
Qed.

Lemma count_where_pos {V} (P : nat -> V -> bool) (m : gmap nat V) :
  (0 < count_where P m)%nat -> exists k v, m !! k = Some v /\ P k v = true.
Proof.
  intros Hpos. destruct (decide (exists k v, m !! k = Some v /\ P k v = true)) as [|Hn];
    [done|exfalso].
  - rewrite (count_where_none P m) in Hpos; [lia|].
    intros k v Hk. apply not_true_iff_false. intros HP. apply Hn. eauto.
Qed.

Lemma delete_where_by_id_cases {V} (owner : V -> bool) id (m : gmap nat V) :
  delete_where (by_id_owned owner id) m = delete id m \/
  delete_where (by_id_owned owner id) m = m.
Proof.
  destruct (m !! id) as [v|] eqn:E; [destruct (owner v) eqn:O|].
  - left. by apply (delete_where_by_id _ _ _ v).
  - right. apply delete_where_none. intros k w Hk. unfold by_id_owned.
    destruct (decide (k = id)) as [->|Hne]; [rewrite E in Hk; injection Hk as <-; by rewrite O, andb_false_r|].
    by rewrite (proj2 (Nat.eqb_neq k id) Hne).
  - right. apply delete_where_none. intros k w Hk. unfold by_id_owned.
    destruct (decide (k = id)) as [->|Hne]; [congruence|].
    by rewrite (proj2 (Nat.eqb_neq k id) Hne).
Qed.

(** The budget part of PUT /:id is the spec's edit step on a server at UTC or
    west of it. *)
Lemma alpha_rebalance tz uid o cat amt desc d s :
  tz <= 0 -> e_user o = uid ->
  bud_view <$> budgets (snd (rebalance_budgets tz uid o cat amt d s)) =
  edit_budgets (exp_view o) (exp_view (mkExpense uid cat amt desc d)) (bud_view <$> budgets s).
Proof.
  intros Htz Hu. unfold rebalance_budgets, edit_budgets.
  rewrite stored_month_west by done. change (request_month d) with (month_key d).
  replace (String.eqb _ _ && _) with
    (bool_decide (ax_key (exp_view o) = ax_key (exp_view (mkExpense uid cat amt desc d)))).
  - destruct (bool_decide _) eqn:K; run_se.
    + rewrite bool_decide_eq_true in K. rewrite alpha_adjust. simpl in K |- *. by rewrite <- K.
    + by rewrite !alpha_adjust, Hu.
  - apply Bool.eq_true_iff_eq. rewrite andb_true_iff, String.eqb_eq, Nat.eqb_eq, bool_decide_eq_true.
    simpl. rewrite Hu, akey_eq_iff. tauto.
Qed.

(** ** Each handler is one step of the spec, or no change *)

Lemma sim_create_expense uid r s :
  ids_below (expenses s) (next_expense s) -> a_step (alpha s) (alpha (snd (create_expense uid r s))).
Proof.
  intros Hids. unfold create_expense. run_se.
  destruct (validate_expense r); run_se; [|apply a_stay].
  destruct (rq_description r) as [desc|]; run_se; [|apply a_stay].
  unfold sql_insert_expense. destruct (fk_user _ _ && fk_category _ _); run_se; [|apply a_stay].
  unfold alpha. simpl. rewrite fmap_insert, alpha_adjust.
  apply (a_create _ _ _ (exp_view (mkExpense uid (rq_cat r) (rq_amount r) desc (rq_date r)))).
  by rewrite lookup_fmap, (ids_below_fresh _ _ Hids).
Qed.

Lemma sim_update_expense tz uid id r s :
  tz <= 0 -> a_step (alpha s) (alpha (snd (update_expense tz uid id r s))).
Proof.
  intros Htz. unfold update_expense, sql_select_expense. run_se.
  destruct (validate_expense r); run_se; [|apply a_stay].
  destruct (select_owned _ id (expenses s)) as [o|] eqn:Hsel; run_se; [|apply a_stay].
  apply select_owned_Some in Hsel as [Ho Hown].
  pose proof (expense_owned_user uid o Hown) as Hu.
  destruct (rq_description r) as [desc|]; run_se; [|apply a_stay].
  unfold sql_update_expense. rewrite (count_where_by_id _ _ _ o Ho Hown). simpl.
  destruct (fk_category s _); run_se; [|apply a_stay].
  rewrite (update_where_by_id _ _ _ _ o Ho Hown).
  unfold alpha at 2. rewrite (proj1 (rebalance_expenses _ _ _ _ _ _ _)).
  rewrite (alpha_rebalance tz uid o _ _ desc) by done. simpl. rewrite fmap_insert.
  unfold set_expense_fields. rewrite Hu.
  apply (a_edit _ _ _ (exp_view o)); [by rewrite lookup_fmap, Ho|done].
Qed.

Lemma sim_delete_expense tz uid id s :
  tz <= 0 -> a_step (alpha s) (alpha (snd (delete_expense tz uid id s))).
Proof.
  intros Htz. unfold delete_expense, sql_select_expense. run_se.
  destruct (select_owned _ id (expenses s)) as [o|] eqn:Hsel; run_se; [|apply a_stay].
  apply select_owned_Some in Hsel as [Ho Hown].
  pose proof (expense_owned_user uid o Hown) as Hu.
  unfold sql_delete_expense. run_se. rewrite (delete_where_by_id _ _ _ o Ho Hown).
  unfold alpha. simpl. rewrite fmap_delete, alpha_adjust, stored_month_west by done.
  rewrite <- Hu. apply (a_delete _ _ _ (exp_view o)). by rewrite lookup_fmap, Ho.
Qed.

Lemma sim_create_budget uid r s :
  a_step (alpha s) (alpha (snd (create_budget uid r s))).
Proof.
  unfold create_budget. run_se.
  destruct (validate_budget r); run_se; [|apply a_stay].
  unfold sql_upsert_budget. simpl.
  destruct (0 <? count_where _ _)%nat eqn:Hc; [|destruct (fk_user _ _ && fk_category _ _)];
    run_se; [| |apply a_stay]; unfold alpha; simpl.
  - rewrite alpha_limit. apply a_upsert_limit.
    apply Nat.ltb_lt, count_where_pos in Hc as (i & b & Hb & Hk).
    exists i, (bud_view b). rewrite lookup_fmap, Hb. split; [done|].
    by rewrite budget_key_is_view, bool_decide_eq_true in Hk.
  - rewrite fmap_insert, <- a_sum_alpha. apply a_backfill.
    intros i b Hb Hk. rewrite lookup_fmap in Hb.
    destruct (budgets s !! i) as [b0|] eqn:E; [|done]. injection Hb as <-.
    apply Nat.ltb_ge, Nat.le_0_r in Hc.
    pose proof (count_where_zero _ _ Hc i b0 E) as Hf. simpl in Hf.
    rewrite budget_key_is_view, Hk, bool_decide_eq_false in Hf. by apply Hf.
Qed.

Lemma sim_delete_budget uid id s :
  a_step (alpha s) (alpha (snd (delete_budget uid id s))).
Proof.
  unfold delete_budget, sql_delete_budget. run_se.
  destruct (delete_where_by_id_cases (budget_owned uid) id (budgets s)) as [Hd|Hd];
    destruct (count_where _ _ =? 0)%nat; run_se; rewrite Hd; unfold alpha; simpl;
    rewrite ?fmap_delete; constructor.
Qed.

Lemma ledger_step_ids tz s s' :
  ids_below (expenses s) (next_expense s) -> ledger_step tz s s' ->
  ids_below (expenses s') (next_expense s').
Proof.
  intros Hids Hstep. destruct Hstep.
  - unfold create_expense. run_se.
    destruct (validate_expense r); run_se; [|done].
    destruct (rq_description r); run_se; [|done].
    unfold sql_insert_expense. destruct (fk_user _ _ && fk_category _ _); run_se; [|done].
    by apply ids_below_insert.
  - unfold update_expense, sql_select_expense. run_se.
    destruct (validate_expense r); run_se; [|done].
    destruct (select_owned _ id (expenses s)); run_se; [|done].
    destruct (rq_description r); run_se; [|done].
    unfold sql_update_expense. destruct (_ && _); run_se; [done|].
    rewrite !(proj1 (rebalance_expenses _ _ _ _ _ _ _)), !(proj2 (rebalance_expenses _ _ _ _ _ _ _)).
    by apply ids_below_update_where.
  - unfold delete_expense, sql_select_expense. run_se.
    destruct (select_owned _ id (expenses s)); run_se; [|done].
    unfold sql_delete_expense. run_se. by apply ids_below_delete_where.
  - unfold create_budget. run_se. destruct (validate_budget r); run_se; [|done].
    unfold sql_upsert_budget. by repeat case_match; run_se.
  - unfold delete_budget, sql_delete_budget. run_se. by case_match; run_se.
Qed.

(** ** The spec's operations keep the cached sums *)

Definition a_tracks (B : gmap nat abud) (f : akey -> Z) : Prop :=
  forall i b, B !! i = Some b -> ab_spent b = f (ab_key b).

Lemma a_tracks_ext B f g : (forall k, f k = g k) -> a_tracks B f -> a_tracks B g.
Proof. intros Hfg Ht i b Hb. rewrite <- Hfg. exact (Ht i b Hb). Qed.

Lemma a_tracks_delta B f k d :
  a_tracks B f ->
  a_tracks (apply_delta k d B) (fun k' => f k' + if bool_decide (k' = k) then d else 0).
Proof.
  intros Ht i b Hb. unfold apply_delta in Hb. rewrite lookup_fmap in Hb.
  destruct (B !! i) as [b0|] eqn:E; simpl in Hb; [|done].
  pose proof (Ht i b0 E) as Hs.
  destruct (bool_decide (ab_key b0 = k)) eqn:K; injection Hb as <-; simpl.
  - apply bool_decide_eq_true in K. subst k. rewrite bool_decide_eq_true_2 by done. lia.
  - rewrite K. lia.
Qed.

Lemma a_tracks_limit B f k l : a_tracks B f -> a_tracks (apply_limit k l B) f.
Proof.
  intros Ht i b Hb. unfold apply_limit in Hb. rewrite lookup_fmap in Hb.
  destruct (B !! i) as [b0|] eqn:E; simpl in Hb; [|done].
  destruct (bool_decide (ab_key b0 = k)) eqn:K; injection Hb as <-; [|exact (Ht i b0 E)].
  apply bool_decide_eq_true in K. simpl. rewrite <- K. exact (Ht i b0 E).
Qed.

Lemma a_tracks_insert B f i b : ab_spent b = f (ab_key b) -> a_tracks B f -> a_tracks (<[i:=b]> B) f.
Proof.
  intros Hb Ht j b' Hj. destruct (decide (j = i)) as [->|Hne].
  - rewrite lookup_insert_eq in Hj. by injection Hj as <-.
  - rewrite lookup_insert_ne in Hj by done. exact (Ht j b' Hj).
Qed.

Lemma a_tracks_delete B f i : a_tracks B f -> a_tracks (delete i B) f.
Proof.
  intros Ht j b Hj. destruct (decide (j = i)) as [->|Hne].
  - by rewrite lookup_delete_eq in Hj.
  - rewrite lookup_delete_ne in Hj by done. exact (Ht j b Hj).
Qed.

Definition a_contrib (x : aexp) (k : akey) : Z := if bool_decide (ax_key x = k) then ax_amount x else 0.

Lemma a_sum_insert_None E id x k : E !! id = None -> a_sum (<[id:=x]> E) k = a_sum E k + a_contrib x k.
Proof. intros He. unfold a_sum. rewrite map_zsum_insert_None by done. unfold a_contrib. lia. Qed.

Lemma a_sum_insert_Some E id x x' k :
  E !! id = Some x -> a_sum (<[id:=x']> E) k = a_sum E k - a_contrib x k + a_contrib x' k.
Proof. intros He. unfold a_sum. rewrite (map_zsum_insert_Some _ _ _ x) by done. unfold a_contrib. lia. Qed.

Lemma a_sum_delete E id x k : E !! id = Some x -> a_sum (delete id E) k = a_sum E k - a_contrib x k.
Proof. intros He. unfold a_sum. rewrite (map_zsum_delete _ E id x He). unfold a_contrib. lia. Qed.

Lemma a_contrib_key x k : a_contrib x k = if bool_decide (k = ax_key x) then ax_amount x else 0.
Proof. unfold a_contrib. by rewrite (bool_decide_ext (ax_key x = k) (k = ax_key x)). Qed.

Lemma a_step_reconciled A A' : a_reconciled A -> a_step A A' -> a_reconciled A'.
Proof.
  unfold a_reconciled. intros Hr Hstep. destruct Hstep; simpl in *.
  - eapply a_tracks_ext; [|exact (a_tracks_delta _ _ _ _ Hr)].
    intros k. by rewrite a_sum_insert_None, a_contrib_key.
  - unfold edit_budgets. destruct (bool_decide (ax_key x = ax_key x')) eqn:K.
    + apply bool_decide_eq_true in K.
      eapply a_tracks_ext; [|exact (a_tracks_delta _ _ _ _ Hr)].
      intros k. rewrite (a_sum_insert_Some _ _ x) by done. rewrite !a_contrib_key, <- K.
      destruct (bool_decide (k = ax_key x)); lia.
    + eapply a_tracks_ext; [|exact (a_tracks_delta _ _ _ _ (a_tracks_delta _ _ _ _ Hr))].
      intros k. rewrite (a_sum_insert_Some _ _ x) by done. rewrite !a_contrib_key.
      destruct (bool_decide (k = ax_key x)), (bool_decide (k = ax_key x')); lia.
  - eapply a_tracks_ext; [|exact (a_tracks_delta _ _ _ _ Hr)].
    intros k. rewrite (a_sum_delete _ _ x), a_contrib_key by done.
    destruct (bool_decide _); lia.
  - by apply a_tracks_limit.
  - by apply a_tracks_insert.
  - by apply a_tracks_delete.
  - done.
Qed.

Lemma reconciled_alpha s : reconciled s <-> a_reconciled (alpha s).
Proof.
  unfold reconciled, tracks, a_reconciled, alpha. simpl. split.
  - intros Ht i b Hb. rewrite lookup_fmap in Hb.
    destruct (budgets s !! i) as [b0|] eqn:E; simpl in Hb; [|done]. injection Hb as <-.
    simpl. rewrite a_sum_alpha. exact (Ht i b0 E).
  - intros Ha i b Hb. specialize (Ha i (bud_view b)). rewrite lookup_fmap, Hb in Ha.
    rewrite <- a_sum_alpha. exact (Ha eq_refl).
Qed.

(** ** Refinement *)

Lemma ledger_step_sim tz s s' :
  tz <= 0 -> ids_below (expenses s) (next_expense s) -> ledger_step tz s s' ->
  a_step (alpha s) (alpha s').
Proof.
  intros Htz Hids Hstep. destruct Hstep.
  - by apply sim_create_expense.
  - by apply sim_update_expense.
  - by apply sim_delete_expense.
  - apply sim_create_budget.
  - apply sim_delete_budget.
Qed.

(** C6: The expense and budget handlers refine the reconciler of spec section
    4.1: on a server at UTC or west of it, from a reconciled state every
    sequence of handler calls, whatever their outcomes, is seen through the
    abstraction as a sequence of the spec's operations (create, edit, delete
    an expense with its budget adjustments, budget back-fill or limit upsert,
    budget removal) or no change, and every state reached is reconciled. *)
Theorem ledger_refines_spec tz s0 s :
  tz <= 0 -> ledger_inv s0 -> star (ledger_step tz) s0 s ->
  star a_step (alpha s0) (alpha s) /\ reconciled s.
Proof.
  intros Htz [Hrec Hids] Hstar. rewrite reconciled_alpha in Hrec |- *.
  induction Hstar as [s|s s1 s2 Hstep _ IH]; [split; [apply star_refl|done]|].
  pose proof (ledger_step_sim tz s s1 Htz Hids Hstep) as Ha.
  destruct (IH (a_step_reconciled _ _ Hrec Ha) (ledger_step_ids tz s s1 Hids Hstep)) as [Hs Hr].
  split; [exact (star_step _ _ _ _ Ha Hs)|exact Hr].
Qed.

Lemma ledger_refines_spec_witness :
  star a_step (alpha ex_db) (alpha (snd (create_expense 1 (ex_req 8000) ex_db))) /\
  reconciled (snd (create_expense 1 (ex_req 8000) ex_db)).
Proof.
  apply (ledger_refines_spec 0 ex_db); [lia|apply ex_db_ledger_inv|].
  apply (star_step _ _ (snd (create_expense 1 (ex_req 8000) ex_db))); [constructor|apply star_refl].
Defined.
