(* ===== verification/Goals.v ===== *)
(** * The goal handlers (routes/goals.ts)

    [create_goal], [update_goal], [update_progress] and [delete_goal] are the
    POST, PUT /:id, PATCH /:id/progress and DELETE /:id handlers, with the
    [validateGoal] middleware in front of POST and PUT.  [update_progress] is
    split into its read ([progress_read]) and its write ([progress_write]),
    the two statements the code runs without a transaction, so that two
    requests can be interleaved statement by statement ([Interleaving]). *)

From S2P Require Import Spec2Rocq Dates Store.

(** The request body of POST and PUT.  [gq_status] is a [status] field, which
    PUT reads; an absent field is [None]. *)
Record goal_req := mkGoalReq {
  gq_title : string;
  gq_target : Z;
  gq_current : option Z;
  gq_target_date : option date;
  gq_description : option string;
  gq_status : option string
}.

(** [validateGoal] (middleware/validation.ts:50-65): a title of at least three
    characters, a positive target, a current amount of at least 0 when given,
    and no other key: [Joi.object] refuses keys it does not list, and
    [status] is not listed. *)
Definition validate_goal (r : goal_req) : bool :=
  (3 <=? Z.of_nat (String.length (gq_title r))) && (0 <? gq_target r) &&
  match gq_current r with Some c => 0 <=? c | None => true end &&
  match gq_status r with Some _ => false | None => true end.

(** The ENUM('active', 'completed', 'paused') column; another string is
    refused by the server. *)
Definition goal_status_of_string (st : string) : option goal_status :=
  if String.eqb st "active" then Some Active
  else if String.eqb st "completed" then Some Completed
  else if String.eqb st "paused" then Some Paused
  else None.

Definition goal_owned (uid : nat) (g : goal) : bool := (g_user g =? uid)%nat.

(** POST /: [currentAmount = 0] by default; the status column defaults to
    'active'.  The optional [targetDate] and [description] are bound as they
    are. *)
Definition create_goal (uid : nat) (r : goal_req) : Handler nat :=
  se_guard (validate_goal r) BadRequest ;;;
  td <- bind_param (gq_target_date r) ;;
  desc <- bind_param (gq_description r) ;;
  fun s =>
    if fk_user s uid then
      (Ok (next_goal s),
       set_goals (<[next_goal s := mkGoal uid (gq_title r) (gq_target r)
                      (default 0 (gq_current r)) (Some td) (Some desc) Active]> (goals s))
                 (S (next_goal s)) s)
    else (Err (DbError FkViolation), s).

(** The value [status || 'active'] writes into the ENUM column. *)
Definition status_param (st : option string) : Handler goal_status :=
  match st with
  | None => se_ret Active
  | Some st =>
      if String.eqb st "" then se_ret Active
      else match goal_status_of_string st with
           | Some g => se_ret g
           | None => se_fail (DbError DataTruncated)
           end
  end.

Definition set_goal_fields (title : string) (target current : Z) (td : date)
    (desc : string) (st : goal_status) (g : goal) : goal :=
  mkGoal (g_user g) title target current (Some td) (Some desc) st.

(** PUT /:id: every column is rewritten, [status] with [status || 'active']. *)
Definition update_goal (uid id : nat) (r : goal_req) : Handler unit :=
  se_guard (validate_goal r) BadRequest ;;;
  cur <- bind_param (gq_current r) ;;
  td <- bind_param (gq_target_date r) ;;
  desc <- bind_param (gq_description r) ;;
  st <- status_param (gq_status r) ;;
  fun s =>
    let P := by_id_owned (goal_owned uid) id in
    let n := count_where P (goals s) in
    (if (n =? 0)%nat then Err NotFound else Ok tt,
     set_goals (update_where P (set_goal_fields (gq_title r) (gq_target r) cur td desc st)
                             (goals s)) (next_goal s) s).

(** The status the progress handler writes (routes/goals.ts:124). *)
Definition progress_status (new_amount target : Z) : goal_status :=
  if target <=? new_amount then Completed else Active.

(** [SELECT current_amount, target_amount FROM financial_goals WHERE id = ?
    AND user_id = ?]. *)
Definition progress_read (uid id : nat) : Handler (option (Z * Z)) := fun s =>
  (Ok ((fun g => (g_current g, g_target g)) <$> select_owned (goal_owned uid) id (goals s)), s).

Definition set_progress (amt : Z) (st : goal_status) (g : goal) : goal :=
  mkGoal (g_user g) (g_title g) (g_target g) amt (g_target_date g) (g_description g) st.

(** [UPDATE financial_goals SET current_amount = ?, status = ? WHERE id = ?
    AND user_id = ?]. *)
Definition progress_write (uid id : nat) (amt : Z) (st : goal_status) : Handler nat := fun s =>
  let P := by_id_owned (goal_owned uid) id in
  (Ok (count_where P (goals s)),
   set_goals (update_where P (set_progress amt st) (goals s)) (next_goal s) s).

(** PATCH /:id/progress: [if (!amount || amount <= 0)] refuses an absent or
    non-positive amount; the answer carries the new amount and status. *)
Definition update_progress (uid id : nat) (amount : option Z) : Handler (Z * goal_status) :=
  se_guard (match amount with Some a => 0 <? a | None => false end) BadRequest ;;;
  rd <- progress_read uid id ;;
  match rd, amount with
  | Some (cur, target), Some a =>
      let new_amount := cur + a in
      let st := progress_status new_amount target in
      _ <- progress_write uid id new_amount st ;;
      se_ret (new_amount, st)
  | _, _ => se_fail NotFound
  end.

(** DELETE /:id. *)
Definition delete_goal (uid id : nat) : Handler unit := fun s =>
  let P := by_id_owned (goal_owned uid) id in
  (if (count_where P (goals s) =? 0)%nat then Err NotFound else Ok tt,
   set_goals (delete_where P (goals s)) (next_goal s) s).

(** ** Lemmas *)

Lemma goal_owned_user uid g : goal_owned uid g = true -> g_user g = uid.
Proof. unfold goal_owned. intros H. by apply Nat.eqb_eq. Qed.

(** The success path of PATCH /:id/progress. *)
Lemma update_progress_ok uid id a s g :
  0 < a -> goals s !! id = Some g -> g_user g = uid ->
  update_progress uid id (Some a) s =
  (Ok (g_current g + a, progress_status (g_current g + a) (g_target g)),
   set_goals (<[id := set_progress (g_current g + a)
                        (progress_status (g_current g + a) (g_target g)) g]> (goals s))
             (next_goal s) s).
Proof.
  intros Ha Hg Hu. assert (Hown : goal_owned uid g = true) by (apply Nat.eqb_eq; done).
  unfold update_progress, progress_read. run_se.
  rewrite (proj2 (Z.ltb_lt 0 a) Ha). run_se.
  replace (select_owned _ id _) with (Some g) by (symmetry; by apply select_owned_Some).
  run_se. unfold progress_write. by rewrite (update_where_by_id _ _ _ _ g Hg Hown).
Qed.

(** C15: PATCH /goals/:id/progress with a positive amount answers the new
    amount, and sets the status to completed exactly when the current amount
    plus the contribution reaches the target. *)
Theorem update_progress_completes uid id a s g :
  0 < a -> goals s !! id = Some g -> g_user g = uid ->
  fst (update_progress uid id (Some a) s) =
    Ok (g_current g + a, if g_target g <=? g_current g + a then Completed else Active) /\
  (g_status <$> goals (snd (update_progress uid id (Some a) s)) !! id =
     Some Completed <-> g_target g <= g_current g + a).
Proof.
  intros Ha Hg Hu. rewrite (update_progress_ok uid id a s g) by done. simpl.
  rewrite lookup_insert_eq. unfold progress_status. split; [done|].
  destruct (g_target g <=? g_current g + a) eqn:E; simpl.
  - apply Z.leb_le in E. tauto.
  - apply Z.leb_gt in E. split; [discriminate|lia].
Qed.

(** PATCH /goals/:id/progress answers BadRequest for an absent or non-
    positive amount and NotFound for a goal the caller does not own, and
    changes nothing. *)
Theorem update_progress_rejects uid id amount s :
  (match amount with Some a => a <= 0 | None => True end ->
   update_progress uid id amount s = (Err BadRequest, s)) /\
  (select_owned (goal_owned uid) id (goals s) = None ->
   update_progress uid id amount s =
     ((if match amount with Some a => 0 <? a | None => false end
       then Err NotFound else Err BadRequest), s)).
Proof.
  split.
  - intros Ha. unfold update_progress. run_se. destruct amount as [a|]; [|done].
    by rewrite (proj2 (Z.ltb_ge 0 a) Ha).
  - intros Hn. unfold update_progress, progress_read. run_se.
    destruct (match amount with Some a => 0 <? a | None => false end) eqn:E; run_se; [|done].
    by rewrite Hn.
Qed.

Definition ex_goal_db : db :=
  mkDb {[1%nat := mkUser "ann@example.com" "$2a$12$hash" "Ann" "Lee" true None None]} 2
       ∅ ∅ 1 ∅ 1
       {[1%nat := mkGoal 1 "Emergency fund" 100000 80000 None None Active]} 2 ∅ 1.

(** The spec's scenario: a goal at 800.00 of 1000.00 that receives 250.00
    is at 1050.00 and completed. *)
Example spec_scenario_goal :
  update_progress 1 1 (Some 25000) ex_goal_db =
  (Ok (105000, Completed),
   set_goals {[1%nat := mkGoal 1 "Emergency fund" 100000 105000 None None Completed]} 2 ex_goal_db).
Proof. vm_compute. reflexivity. Qed.

(** ** The status state machine

    The transitions of a goal's row are the four goal handlers, for any user
    and request.  The spec lets a caller move a goal between [Active] and
    [Paused]; the code cannot: [validateGoal] refuses a [status] field, so PUT
    always writes [status || 'active'] with [status] absent. *)

Inductive goal_step : db -> db -> Prop :=
  | step_create uid r s : goal_step s (snd (create_goal uid r s))
  | step_update uid id r s : goal_step s (snd (update_goal uid id r s))
  | step_progress uid id a s : goal_step s (snd (update_progress uid id a s))
  | step_delete uid id s : goal_step s (snd (delete_goal uid id s)).

Definition no_paused (s : db) : Prop :=
  map_Forall (fun _ g => g_status g <> Paused) (goals s).

Lemma map_Forall_update_where {V} (Q : V -> Prop) (P : nat -> V -> bool) (f : V -> V)
    (m : gmap nat V) :
  (forall v, Q v -> Q (f v)) -> map_Forall (fun _ v => Q v) m ->
  map_Forall (fun _ v => Q v) (update_where P f m).
Proof.
  intros Hf Hm k v Hk. rewrite lookup_update_where in Hk.
  destruct (m !! k) as [w|] eqn:E; [|done]. injection Hk as <-.
  specialize (Hm k w E). simpl in Hm. by destruct (P k w); [apply Hf|].
Qed.

Lemma map_Forall_delete_where {V} (Q : V -> Prop) (P : nat -> V -> bool) (m : gmap nat V) :
  map_Forall (fun _ v => Q v) m -> map_Forall (fun _ v => Q v) (delete_where P m).
Proof.
  intros Hm k v Hk. rewrite lookup_delete_where in Hk.
  destruct (m !! k) as [w|] eqn:E; [|done]. destruct (P k w); [done|].
  injection Hk as <-. exact (Hm k w E).
Qed.

Lemma goal_step_no_paused s s' : no_paused s -> goal_step s s' -> no_paused s'.
Proof.
  unfold no_paused. intros Hs Hstep. destruct Hstep as [uid r s|uid id r s|uid id a s|uid id s].
  - unfold create_goal. run_se. destruct (validate_goal r); run_se; [|done].
    destruct (gq_target_date r), (gq_description r); run_se; try done.
    destruct (fk_user s uid); simpl; [|done]. by apply map_Forall_insert_2.
  - unfold update_goal. run_se. destruct (validate_goal r) eqn:Hv; run_se; [|done].
    assert (gq_status r = None) as ->.
    { unfold validate_goal in Hv. destruct (gq_status r); [|done].
      rewrite andb_false_r in Hv. discriminate. }
    destruct (gq_current r), (gq_target_date r), (gq_description r); run_se; try done.
    apply map_Forall_update_where; [|done]. by intros g _.
  - unfold update_progress, progress_read. run_se.
    destruct (match a with Some a => 0 <? a | None => false end); run_se; [|done].
    destruct (select_owned _ id _) as [g|], a; run_se; try done.
    unfold progress_write. simpl. apply map_Forall_update_where; [|done].
    intros g' _. unfold progress_status. simpl. by destruct (_ <=? _).
  - unfold delete_goal. simpl. by apply map_Forall_delete_where.
Qed.

(** C16: No sequence of goal handlers makes a goal paused when none was: the
    paused status the spec lets callers set cannot be reached. *)
Theorem paused_unreachable s s' :
  no_paused s -> star goal_step s s' -> no_paused s'.
Proof.
  intros H0 Hs. exact (star_invariant goal_step no_paused goal_step_no_paused s s' Hs H0).
Qed.

Definition ex_goal_req : goal_req :=
  mkGoalReq "Holiday" 50000 (Some 0) (Some (mkDate 2025 7 1)) (Some "") None.

Lemma ex_goal_db_no_paused : no_paused ex_goal_db.
Proof. apply (bool_decide_unpack _). vm_compute. reflexivity. Defined.

Lemma paused_unreachable_witness :
  no_paused (snd (update_goal 1 1 ex_goal_req ex_goal_db)).
Proof.
  apply (paused_unreachable ex_goal_db); [exact ex_goal_db_no_paused|].
  eapply star_step; [apply step_update|apply star_refl].
Defined.

(** ** Two progress requests, interleaved

    Each PATCH /:id/progress reads the row, then writes the sum it computed.
    Run one after the other, two requests add both amounts; with both reads
    before both writes, the second write overwrites the first. *)

Definition progress_interleaved (uid id : nat) (a1 a2 : Z) : Handler unit :=
  r1 <- progress_read uid id ;;
  r2 <- progress_read uid id ;;
  match r1, r2 with
  | Some (c1, t1), Some (c2, t2) =>
      _ <- progress_write uid id (c1 + a1) (progress_status (c1 + a1) t1) ;;
      _ <- progress_write uid id (c2 + a2) (progress_status (c2 + a2) t2) ;;
      se_ret tt
  | _, _ => se_fail NotFound
  end.

(** C17: Two progress requests interleaved read, read, write, write lose the
    first amount, while run in sequence they add both. *)
Theorem progress_lost_update uid id a1 a2 s g :
  0 < a1 -> 0 < a2 -> goals s !! id = Some g -> g_user g = uid ->
  g_current <$> goals (snd (update_progress uid id (Some a2)
                             (snd (update_progress uid id (Some a1) s)))) !! id =
    Some (g_current g + a1 + a2) /\
  g_current <$> goals (snd (progress_interleaved uid id a1 a2 s)) !! id =
    Some (g_current g + a2).
Proof.
  intros H1 H2 Hg Hu. split.
  - rewrite (update_progress_ok uid id a1 s g) by done. simpl.
    rewrite (update_progress_ok uid id a2 _ (set_progress (g_current g + a1)
               (progress_status (g_current g + a1) (g_target g)) g));
      [|done|simpl; by rewrite lookup_insert_eq|done].
    simpl. by rewrite lookup_insert_eq.
  - assert (Hown : goal_owned uid g = true) by (apply Nat.eqb_eq; done).
    unfold progress_interleaved, progress_read. run_se.
    replace (select_owned _ id _) with (Some g) by (symmetry; by apply select_owned_Some).
    run_se. unfold progress_write. simpl.
    rewrite (update_where_by_id _ _ _ _ g Hg Hown).
    rewrite (update_where_by_id _ _ _ _ (set_progress (g_current g + a1)
               (progress_status (g_current g + a1) (g_target g)) g));
      [|by rewrite lookup_insert_eq|done].
    simpl. by rewrite lookup_insert_eq.
Qed.

Lemma progress_lost_update_witness :
  g_current <$> goals (snd (progress_interleaved 1 1 10000 25000 ex_goal_db)) !! 1%nat =
    Some 105000.
Proof.
  destruct (progress_lost_update 1 1 10000 25000 ex_goal_db
             (mkGoal 1 "Emergency fund" 100000 80000 None None Active)) as [_ H];
    [lia|lia|reflexivity|reflexivity|].
  exact H.
Defined.

Lemma update_progress_completes_witness :
  fst (update_progress 1 1 (Some 25000) ex_goal_db) = Ok (105000, Completed).
Proof.
  destruct (update_progress_completes 1 1 25000 ex_goal_db
             (mkGoal 1 "Emergency fund" 100000 80000 None None Active)) as [H _];
    [lia|reflexivity|reflexivity|].
  exact H.
Defined.

Lemma update_progress_rejects_witness :
  update_progress 1 1 (Some 0) ex_goal_db = (Err BadRequest, ex_goal_db).
Proof. apply (proj1 (update_progress_rejects 1 1 (Some 0) ex_goal_db)). lia. Defined.
