(* ===== verification/Auth.v ===== *)
(** * Accounts: registration, e-mail verification, login, password reset

    The [AuthService] of services/authService.ts and the routes of
    routes/auth.ts, over the [users] table.  One column pair
    ([otp_code], [otp_expires_at]) holds the pending one-time code, whether
    it was sent for e-mail verification or for a password reset.

    The effects outside the database are parameters of the handlers: the
    clock [now] (milliseconds, [Date.now()]), the draw [k] of
    [Math.random()] (a multiple [k / 2^53] of [2^-53]), and whether the SMTP
    server accepted the mail ([mail_ok]).  bcrypt is modelled by an
    injective [bcrypt_hash], which is all [bcrypt.compare] relies on; a JWT
    by the record of its claims and the secret that signs it. *)

From S2P Require Import Spec2Rocq Dates Store.

(** ** One-time codes *)

(** [Math.floor(100000 + Math.random() * 900000)] for [Math.random() = k / 2^53]. *)
Definition otp_value (k : Z) : Z := 100000 + (k * 900000) / 2 ^ 53.

(** [.toString()] of a six-digit number. *)
Definition otp_string (n : Z) : string :=
  String (digit (n / 100000 mod 10)) (String (digit (n / 10000 mod 10)) (pad4 n)).

(** [generateOTP()]. *)
Definition generate_otp (k : Z) : string := otp_string (otp_value k).

(** Ten minutes after [now]: [new Date(Date.now() + 10 * 60 * 1000)]. *)
Definition otp_expiry (now : Z) : Z := now + 10 * 60 * 1000.

(** ** bcrypt and JWT *)

Definition bcrypt_hash (pw : string) : string := "$2a$12$" +:+ pw.
Definition bcrypt_compare (pw hash : string) : bool := String.eqb (bcrypt_hash pw) hash.

Record jwt := mkJwt { jwt_id : nat; jwt_email : string; jwt_exp : Z; jwt_secret : string }.

(** [jwt.sign({ id, email }, JWT_SECRET, { expiresIn: '24h' })]: [exp] is in
    seconds. *)
Definition generate_jwt (secret : string) (now : Z) (id : nat) (email : string) : jwt :=
  mkJwt id email (now / 1000 + 24 * 60 * 60) secret.

(** [verifyToken]: [jwt.verify] checks the signature and that the token has
    not expired. *)
Definition verify_token (secret : string) (now : Z) (t : jwt) : result (nat * string) :=
  if String.eqb (jwt_secret t) secret && (now / 1000 <? jwt_exp t)
  then Ok (jwt_id t, jwt_email t)
  else Err (Thrown "Invalid or expired token").

(** ** Statements on [users] *)

(** [SELECT ... FROM users WHERE ...]: the first row the clause accepts. *)
Definition users_where (P : user -> bool) (m : gmap nat user) : list (nat * user) :=
  filter (fun kv => P kv.2 = true) (map_to_list m).

Definition select_user_where (P : user -> bool) : Handler (option (nat * user)) := fun s =>
  (Ok (head (users_where P (users s))), s).

Definition email_is (email : string) (u : user) : bool := String.eqb (u_email u) email.

(** [WHERE email = ?]. *)
Definition select_user (email : string) : Handler (option (nat * user)) :=
  select_user_where (email_is email).

(** [UPDATE users SET ... WHERE email = ?]. *)
Definition update_user (email : string) (f : user -> user) : Handler unit := fun s =>
  (Ok tt, set_users (update_where (fun _ u => email_is email u) f (users s))
                    (next_user s) s).

Definition set_otp (code : option string) (exp : option Z) (u : user) : user :=
  mkUser (u_email u) (u_password u) (u_first_name u) (u_last_name u) (u_is_verified u) code exp.

Definition mark_verified (u : user) : user :=
  mkUser (u_email u) (u_password u) (u_first_name u) (u_last_name u) true None None.

Definition set_password (hash : string) (u : user) : user :=
  mkUser (u_email u) hash (u_first_name u) (u_last_name u) (u_is_verified u) None None.

(** [emailService.sendOTP] / [sendPasswordResetOTP]: throws when the SMTP
    server refuses the mail. *)
Definition send_mail (mail_ok : bool) (msg : string) : Handler unit :=
  se_guard mail_ok (Thrown msg).

(** ** The service *)

Record register_req := mkRegisterReq {
  rg_email : string; rg_password : string; rg_first_name : string; rg_last_name : string
}.

(** The row the [INSERT INTO users] of [register] stores: unverified, with
    the fresh code and its expiry. *)
Definition registered_user (k now : Z) (r : register_req) : user :=
  mkUser (rg_email r) (bcrypt_hash (rg_password r)) (rg_first_name r) (rg_last_name r) false
         (Some (generate_otp k)) (Some (otp_expiry now)).

(** [register]: refuse a known e-mail, insert the unverified user with a
    fresh code, then mail the code. *)
Definition register (k now : Z) (mail_ok : bool) (r : register_req) : Handler string :=
  existing <- select_user (rg_email r) ;;
  match existing with
  | Some _ => se_fail (Thrown "User already exists with this email")
  | None =>
      _ <- (fun s =>
              (Ok tt, set_users (<[next_user s := registered_user k now r]> (users s))
                                (S (next_user s)) s)) ;;
      _ <- send_mail mail_ok "Failed to send verification email" ;;
      se_ret "Registration successful! Please check your email for OTP verification."
  end.

(** The checks [verifyOTP] and [resetPassword] share. *)
Definition check_otp (now : Z) (otp : string) (u : user) : Handler unit :=
  match u_otp_code u with
  | Some c =>
      if negb (String.eqb c "") && String.eqb c otp then
        match u_otp_expires_at u with
        | Some t => se_guard (negb (t <? now)) (Thrown "OTP has expired")
        | None => se_guard (negb (0 <? now)) (Thrown "OTP has expired")
        end
      else se_fail (Thrown "Invalid OTP")
  | None => se_fail (Thrown "Invalid OTP")
  end.

(** [verifyOTP]: the code must be the stored one and not expired; the user
    becomes verified, the code is cleared, and a token is issued. *)
Definition verify_otp (secret : string) (now : Z) (email otp : string) : Handler jwt :=
  found <- select_user email ;;
  match found with
  | None => se_fail (Thrown "User not found")
  | Some (id, u) =>
      _ <- check_otp now otp u ;;
      _ <- update_user email mark_verified ;;
      se_ret (generate_jwt secret now id email)
  end.

(** [login]. *)
Definition login (secret : string) (now : Z) (email password : string) : Handler jwt :=
  found <- select_user email ;;
  match found with
  | None => se_fail (Thrown "Invalid email or password")
  | Some (id, u) =>
      if negb (u_is_verified u) then se_fail (Thrown "Please verify your email before logging in")
      else if negb (bcrypt_compare password (u_password u))
      then se_fail (Thrown "Invalid email or password")
      else se_ret (generate_jwt secret now id (u_email u))
  end.

(** [resendOTP]: [WHERE email = ? AND is_verified = FALSE]. *)
Definition resend_otp (k now : Z) (mail_ok : bool) (email : string) : Handler unit :=
  found <- select_user_where (fun u => email_is email u && negb (u_is_verified u)) ;;
  match found with
  | Some _ =>
      _ <- update_user email (set_otp (Some (generate_otp k)) (Some (otp_expiry now))) ;;
      send_mail mail_ok "Failed to send verification email"
  | None => se_fail (Thrown "User not found or already verified")
  end.

(** [requestPasswordReset]: [WHERE email = ? AND is_verified = TRUE]. *)
Definition request_password_reset (k now : Z) (mail_ok : bool) (email : string) : Handler unit :=
  found <- select_user_where (fun u => email_is email u && u_is_verified u) ;;
  match found with
  | Some _ =>
      _ <- update_user email (set_otp (Some (generate_otp k)) (Some (otp_expiry now))) ;;
      send_mail mail_ok "Failed to send password reset email"
  | None => se_fail (Thrown "User not found or email not verified")
  end.

(** [resetPassword]: the same checks as [verifyOTP]; the new password is
    stored and the code cleared. *)
Definition reset_password (now : Z) (email otp new_password : string) : Handler unit :=
  found <- select_user email ;;
  match found with
  | None => se_fail (Thrown "User not found")
  | Some (_, u) =>
      _ <- check_otp now otp u ;;
      update_user email (set_password (bcrypt_hash new_password))
  end.

(** ** The routes (routes/auth.ts)

    Each route runs its guard, then the service; every error the service
    throws is answered with status 400.  [validateRegistration] and
    [validateLogin] (middleware/validation.ts:4-32) are Joi schemas; Joi's
    [email()] check is the parameter [email_ok], and [min(n)] counts the
    characters of an ASCII string.  [Joi.string()] refuses the empty string. *)
Section Routes.
Variable email_ok : string -> bool.

Definition validate_registration (r : register_req) : bool :=
  email_ok (rg_email r) && (6 <=? String.length (rg_password r))%nat &&
  (2 <=? String.length (rg_first_name r))%nat && (2 <=? String.length (rg_last_name r))%nat.

Definition validate_login (email password : string) : bool :=
  email_ok email && negb (String.eqb password "").

Definition present (v : string) : bool := negb (String.eqb v "").

Definition post_register (k now : Z) (mail_ok : bool) (r : register_req) : Handler string :=
  se_guard (validate_registration r) BadRequest ;;; register k now mail_ok r.

Definition post_verify_otp (secret : string) (now : Z) (email otp : string) : Handler jwt :=
  se_guard (present email && present otp) BadRequest ;;; verify_otp secret now email otp.

Definition post_login (secret : string) (now : Z) (email password : string) : Handler jwt :=
  se_guard (validate_login email password) BadRequest ;;; login secret now email password.

Definition post_forgot_password (k now : Z) (mail_ok : bool) (email : string) : Handler unit :=
  se_guard (present email) BadRequest ;;; request_password_reset k now mail_ok email.

Definition post_reset_password (now : Z) (email otp new_password : string) : Handler unit :=
  se_guard (present email && present otp && present new_password) BadRequest ;;;
  reset_password now email otp new_password.

End Routes.

(** ** The invariant of the users table

    E-mails are unique (register refuses a known one, and no statement
    changes an e-mail), ids are below the AUTO_INCREMENT counter, and a
    stored code always has its expiry. *)

Definition emails_unique (m : gmap nat user) : Prop :=
  forall i j u v, m !! i = Some u -> m !! j = Some v -> u_email u = u_email v -> i = j.

Definition otp_paired (m : gmap nat user) : Prop :=
  forall i u, m !! i = Some u -> is_Some (u_otp_code u) -> is_Some (u_otp_expires_at u).

Definition users_inv (s : db) : Prop :=
  emails_unique (users s) /\ ids_below (users s) (next_user s) /\ otp_paired (users s).

Lemma users_where_spec P m i u :
  (i, u) ∈ users_where P m <-> m !! i = Some u /\ P u = true.
Proof. unfold users_where. rewrite list_elem_of_filter, elem_of_map_to_list. simpl. tauto. Qed.

Lemma head_users_where_Some P m i u :
  head (users_where P m) = Some (i, u) -> m !! i = Some u /\ P u = true.
Proof.
  intros Hh. apply users_where_spec.
  destruct (users_where P m) eqn:E; simpl in Hh; [discriminate|]. injection Hh as ->. set_solver.
Qed.

Lemma head_users_where_None P m :
  head (users_where P m) = None -> forall i u, m !! i = Some u -> P u = false.
Proof.
  intros Hh i u Hu. destruct (P u) eqn:E; [|done]. exfalso.
  assert ((i, u) ∈ users_where P m) as Hin by (by apply users_where_spec).
  destruct (users_where P m); [set_solver|discriminate].
Qed.

Lemma email_is_true e u : email_is e u = true <-> u_email u = e.
Proof. apply String.eqb_eq. Qed.

(** With unique e-mails, a clause that implies [email = ?] selects the row of
    that e-mail when it accepts it, and nothing otherwise. *)
Lemma select_unique P m i u :
  emails_unique m -> m !! i = Some u ->
  (forall v, P v = true -> u_email v = u_email u) ->
  head (users_where P m) = if P u then Some (i, u) else None.
Proof.
  intros Hu Hi HP. destruct (users_where P m) as [|[j v] l] eqn:E.
  - destruct (P u) eqn:Pu; [|done].
    assert ((i, u) ∈ users_where P m) as Hin by (by apply users_where_spec).
    rewrite E in Hin. set_solver.
  - assert ((j, v) ∈ users_where P m) as Hj by (rewrite E; set_solver).
    apply users_where_spec in Hj as [Hj Hv].
    assert (j = i) as -> by (apply (Hu j i v u); auto).
    rewrite Hi in Hj. injection Hj as ->. by rewrite Hv.
Qed.

Lemma select_user_row e s i u :
  emails_unique (users s) -> users s !! i = Some u -> u_email u = e ->
  select_user e s = (Ok (Some (i, u)), s).
Proof.
  intros Hu Hi He. unfold select_user, select_user_where.
  rewrite (select_unique _ _ i u) by (done || (intros v Hv; apply email_is_true in Hv; congruence)).
  replace (email_is e u) with true by (symmetry; by apply email_is_true). done.
Qed.

Lemma update_user_row e f m i u :
  emails_unique m -> m !! i = Some u -> u_email u = e ->
  update_where (fun _ v => email_is e v) f m = <[i := f u]> m.
Proof.
  intros Hu Hi He. apply map_eq. intros k. rewrite lookup_update_where.
  destruct (decide (k = i)) as [->|Hne].
  - rewrite Hi, lookup_insert_eq. simpl. by replace (email_is e u) with true
      by (symmetry; by apply email_is_true).
  - rewrite lookup_insert_ne by done. destruct (m !! k) as [v|] eqn:Ek; [|done]. simpl.
    destruct (email_is e v) eqn:Ev; [|done]. apply email_is_true in Ev.
    exfalso. apply Hne. apply (Hu k i v u); [done|done|congruence].
Qed.

Lemma users_inv_update P f m n :
  (forall v, u_email (f v) = u_email v) ->
  (forall v, is_Some (u_otp_code (f v)) -> is_Some (u_otp_expires_at (f v))) ->
  emails_unique m /\ ids_below m n /\ otp_paired m ->
  emails_unique (update_where P f m) /\ ids_below (update_where P f m) n /\
  otp_paired (update_where P f m).
Proof.
  intros Hf Hp (Hu & Hb & Ho). split; [|split].
  - intros i j u v Hi Hj He. rewrite lookup_update_where in Hi, Hj.
    destruct (m !! i) as [u0|] eqn:Ei, (m !! j) as [v0|] eqn:Ej; try done.
    injection Hi as <-. injection Hj as <-.
    apply (Hu i j u0 v0); [done|done|]. destruct (P i u0), (P j v0); rewrite ?Hf in He; done.
  - by apply ids_below_update_where.
  - intros i u Hi Hc. rewrite lookup_update_where in Hi.
    destruct (m !! i) as [u0|] eqn:Ei; [|done]. injection Hi as <-.
    destruct (P i u0); [by apply Hp|]. by apply (Ho i).
Qed.

Lemma check_otp_pure now otp u s : exists r, check_otp now otp u s = (r, s).
Proof.
  unfold check_otp. repeat case_match; run_se; repeat case_match; eexists; reflexivity.
Qed.

Lemma update_user_inv e f s :
  (forall v, u_email (f v) = u_email v) ->
  (forall v, is_Some (u_otp_code (f v)) -> is_Some (u_otp_expires_at (f v))) ->
  users_inv s -> users_inv (snd (update_user e f s)).
Proof. intros Hf Hp Hs. by apply users_inv_update. Qed.

Lemma register_inv k now mail_ok r s : users_inv s -> users_inv (snd (register k now mail_ok r s)).
Proof.
  intros (Hu & Hb & Ho). unfold register, select_user, select_user_where. run_se.
  destruct (head (users_where _ _)) as [[i u]|] eqn:E; run_se; [by split|].
  pose proof (head_users_where_None _ _ E) as Hnone.
  assert (Hinv : users_inv (set_users (<[next_user s := registered_user k now r]> (users s))
            (S (next_user s)) s)).
  { pose proof (ids_below_fresh _ _ Hb) as Hfresh. split; [|split]; simpl.
    - intros i j u v Hi Hj He.
      destruct (decide (i = next_user s)) as [->|Hi']; destruct (decide (j = next_user s)) as [->|Hj'].
      + done.
      + rewrite lookup_insert_eq in Hi. rewrite lookup_insert_ne in Hj by done.
        injection Hi as <-. simpl in He. specialize (Hnone j v Hj).
        unfold email_is in Hnone. rewrite <- He, String.eqb_refl in Hnone. discriminate.
      + rewrite lookup_insert_ne in Hi by done. rewrite lookup_insert_eq in Hj.
        injection Hj as <-. simpl in He. specialize (Hnone i u Hi).
        unfold email_is in Hnone. rewrite He, String.eqb_refl in Hnone. discriminate.
      + rewrite lookup_insert_ne in Hi, Hj by done. by apply (Hu i j u v).
    - by apply ids_below_insert.
    - intros i u Hi Hc. destruct (decide (i = next_user s)) as [->|Hi'].
      + rewrite lookup_insert_eq in Hi. by injection Hi as <-.
      + rewrite lookup_insert_ne in Hi by done. by apply (Ho i). }
  by destruct mail_ok.
Qed.

(** The transitions of the users table: the six operations of the service,
    for any e-mail, code, clock and mail outcome. *)
Inductive auth_step : db -> db -> Prop :=
  | auth_register k now ok r s : auth_step s (snd (register k now ok r s))
  | auth_verify secret now e otp s : auth_step s (snd (verify_otp secret now e otp s))
  | auth_login secret now e pw s : auth_step s (snd (login secret now e pw s))
  | auth_resend k now ok e s : auth_step s (snd (resend_otp k now ok e s))
  | auth_request_reset k now ok e s : auth_step s (snd (request_password_reset k now ok e s))
  | auth_reset now e otp pw s : auth_step s (snd (reset_password now e otp pw s)).

Lemma auth_step_inv s s' : users_inv s -> auth_step s s' -> users_inv s'.
Proof.
  intros Hs Hstep. destruct Hstep.
  - by apply register_inv.
  - unfold verify_otp, select_user, select_user_where. run_se.
    destruct (head _) as [[i u]|]; run_se; [|done].
    destruct (check_otp_pure now otp u s) as [[a|err] Hc]; rewrite Hc; run_se; [|done].
    apply (update_user_inv e mark_verified); [done|by intros v []|done].
  - unfold login, select_user, select_user_where. run_se.
    destruct (head _) as [[i u]|]; run_se; [|done]. by repeat case_match.
  - unfold resend_otp, select_user_where. run_se.
    destruct (head _) as [[i u]|]; run_se; [|done].
    destruct ok; run_se; apply (update_user_inv e (set_otp _ _)); try done; eauto.
  - unfold request_password_reset, select_user_where. run_se.
    destruct (head _) as [[i u]|]; run_se; [|done].
    destruct ok; run_se; apply (update_user_inv e (set_otp _ _)); try done; eauto.
  - unfold reset_password, select_user, select_user_where. run_se.
    destruct (head _) as [[i u]|]; run_se; [|done].
    destruct (check_otp_pure now otp u s) as [[a|err] Hc]; rewrite Hc; run_se; [|done].
    apply (update_user_inv e (set_password _)); [done|by intros v []|done].
Qed.

(** C18: Every sequence of account operations (register, verifyOTP, login,
    resendOTP, requestPasswordReset, resetPassword) keeps the users table's
    invariant: e-mails stay unique, ids stay below the AUTO_INCREMENT counter,
    and a stored code always has its expiry. *)
Theorem users_inv_reachable s s' : users_inv s -> star auth_step s s' -> users_inv s'.
Proof. intros Hs Hstar. exact (star_invariant auth_step users_inv auth_step_inv s s' Hstar Hs). Qed.

(** ** The one-time code *)

(** When [check_otp] accepts: a non-empty stored code equal to the one given,
    not yet expired. *)
Definition otp_accepts (now : Z) (otp : string) (u : user) : Prop :=
  u_otp_code u = Some otp /\ otp <> "" /\
  exists t, u_otp_expires_at u = Some t /\ now <= t.

Lemma check_otp_ok now otp u s :
  otp_paired {[0%nat := u]} ->
  fst (check_otp now otp u s) = Ok tt <-> otp_accepts now otp u.
Proof.
  intros Hp. unfold check_otp, otp_accepts.
  destruct (u_otp_code u) as [c|] eqn:Ec.
  - destruct (u_otp_expires_at u) as [t|] eqn:Et;
      [|destruct (Hp 0%nat u) as [t Ht]; [by rewrite lookup_singleton_eq|by rewrite Ec|congruence]].
    destruct (negb (String.eqb c "") && String.eqb c otp) eqn:Eb; run_se.
    + apply andb_true_iff in Eb as [E1 E2]. apply negb_true_iff, String.eqb_neq in E1.
      apply String.eqb_eq in E2. subst c. destruct (t <? now) eqn:Etn; simpl.
      * apply Z.ltb_lt in Etn. split; [discriminate|]. intros (_ & _ & t' & [= <-] & Hle). lia.
      * apply Z.ltb_ge in Etn. split; [intros _|done]. split; [done|split; [done|eauto]].
    + split; [discriminate|]. intros ([= ->] & Hne & _).
      rewrite String.eqb_refl, andb_true_r in Eb. apply negb_false_iff, String.eqb_eq in Eb.
      contradiction.
  - run_se. split; [discriminate|]. by intros [? _].
Qed.

Lemma otp_paired_row m i u : otp_paired m -> m !! i = Some u -> otp_paired {[0%nat := u]}.
Proof.
  intros Hp Hi j v Hj Hc. rewrite lookup_singleton_Some in Hj. destruct Hj as [_ <-].
  exact (Hp i u Hi Hc).
Qed.

(** The success path of [verifyOTP]. *)
Lemma verify_otp_row secret now e otp s i u :
  users_inv s -> users s !! i = Some u -> u_email u = e ->
  verify_otp secret now e otp s =
  match fst (check_otp now otp u s) with
  | Ok _ => (Ok (generate_jwt secret now i e), snd (update_user e mark_verified s))
  | Err err => (Err err, s)
  end.
Proof.
  intros (Hu & _ & _) Hi He. unfold verify_otp.
  rewrite (se_bind_ok _ _ s (Some (i, u)) s) by (by apply select_user_row).
  unfold se_bind. destruct (check_otp_pure now otp u s) as [[a|err] Hc]; rewrite Hc; [|done].
  by destruct a.
Qed.

(** C19: For a known e-mail, verifyOTP issues a token for the user's id
    exactly when the given code is the stored non-empty code and its expiry
    has not passed. *)
Theorem verify_otp_succeeds_iff secret now e otp s i u :
  users_inv s -> users s !! i = Some u -> u_email u = e ->
  fst (verify_otp secret now e otp s) = Ok (generate_jwt secret now i e) <->
  otp_accepts now otp u.
Proof.
  intros Hs Hi He. rewrite (verify_otp_row secret now e otp s i u Hs Hi He).
  rewrite <- (check_otp_ok now otp u s) by (destruct Hs as (_ & _ & Ho); by eapply otp_paired_row).
  destruct (fst (check_otp now otp u s)) as [[]|err]; simpl; [done|]. split; discriminate.
Qed.

(** C20: A code that verifyOTP accepted is cleared: presenting it again, at
    any time, answers Invalid OTP. *)
Theorem verify_otp_single_use secret now now' e otp s i u :
  users_inv s -> users s !! i = Some u -> u_email u = e ->
  fst (verify_otp secret now e otp s) = Ok (generate_jwt secret now i e) ->
  fst (verify_otp secret now' e otp (snd (verify_otp secret now e otp s))) =
    Err (Thrown "Invalid OTP").
Proof.
  intros Hs Hi He Hok. pose proof Hs as (Hu & _ & _).
  rewrite (verify_otp_row secret now e otp s i u Hs Hi He) in Hok |- *.
  destruct (fst (check_otp now otp u s)) as [a|err]; [|discriminate].
  assert (Hs' : users_inv (snd (update_user e mark_verified s)))
    by (apply update_user_inv; [done|by intros v []|done]).
  assert (Hi' : users (snd (update_user e mark_verified s)) !! i = Some (mark_verified u)).
  { simpl. rewrite (update_user_row e mark_verified _ i u Hu Hi He). apply lookup_insert_eq. }
  cbn [snd]. rewrite (verify_otp_row secret now' e otp _ i (mark_verified u) Hs' Hi' He).
  reflexivity.
Qed.

(** C21: A successful login changes nothing and issues a token only for a
    stored user with that e-mail who is verified and whose stored hash matches
    the password. *)
Theorem login_requires_verification secret now e pw s tok :
  fst (login secret now e pw s) = Ok tok ->
  snd (login secret now e pw s) = s /\
  exists u, users s !! jwt_id tok = Some u /\ u_email u = e /\
            u_is_verified u = true /\ bcrypt_compare pw (u_password u) = true.
Proof.
  unfold login, select_user, select_user_where. run_se.
  destruct (head (users_where _ _)) as [[i u]|] eqn:E; run_se; [|discriminate].
  apply head_users_where_Some in E as [Hi He]. apply email_is_true in He.
  destruct (u_is_verified u) eqn:Ev; simpl; [|discriminate].
  destruct (bcrypt_compare pw (u_password u)) eqn:Ep; simpl; [|discriminate].
  intros [= <-]. split; [done|]. exists u. simpl. auto.
Qed.

Lemma generate_otp_nonempty k : generate_otp k <> "".
Proof. discriminate. Qed.

Lemma update_user_lookup e f s i u :
  emails_unique (users s) -> users s !! i = Some u -> u_email u = e ->
  users (snd (update_user e f s)) !! i = Some (f u).
Proof. intros Hu Hi He. simpl. rewrite (update_user_row e f _ i u Hu Hi He). apply lookup_insert_eq. Qed.

(** The success path of [requestPasswordReset]. *)
Lemma request_reset_row k now e s i u :
  users_inv s -> users s !! i = Some u -> u_email u = e -> u_is_verified u = true ->
  request_password_reset k now true e s =
  (Ok tt, snd (update_user e (set_otp (Some (generate_otp k)) (Some (otp_expiry now))) s)).
Proof.
  intros (Hu & _ & _) Hi He Hv. unfold request_password_reset, select_user_where. run_se.
  rewrite (select_unique _ _ i u Hu Hi).
  - replace (email_is e u && u_is_verified u) with true
      by (by rewrite Hv, (proj2 (email_is_true e u) He)). reflexivity.
  - intros v Hp. apply andb_true_iff in Hp as [Hp _]. apply email_is_true in Hp. congruence.
Qed.

(** C22: A password-reset code is accepted by verifyOTP within its ten
    minutes: requestPasswordReset followed by verifyOTP with the mailed code
    issues a login token without the password. *)
Theorem reset_code_verifies_email secret k now now' e s i u :
  users_inv s -> users s !! i = Some u -> u_email u = e -> u_is_verified u = true ->
  now' <= otp_expiry now ->
  fst (request_password_reset k now true e s) = Ok tt /\
  fst (verify_otp secret now' e (generate_otp k) (snd (request_password_reset k now true e s))) =
    Ok (generate_jwt secret now' i e).
Proof.
  intros Hs Hi He Hv Hnow. rewrite (request_reset_row k now e s i u Hs Hi He Hv).
  split; [done|]. cbn [snd].
  set (f := set_otp (Some (generate_otp k)) (Some (otp_expiry now))).
  assert (Hs' : users_inv (snd (update_user e f s)))
    by (apply update_user_inv; [done|intros v _; eexists; reflexivity|done]).
  pose proof (update_user_lookup e f s i u (proj1 Hs) Hi He) as Hi'.
  rewrite (verify_otp_row secret now' e _ _ i (f u) Hs' Hi' He).
  assert (Hc : fst (check_otp now' (generate_otp k) (f u) (snd (update_user e f s))) = Ok tt).
  { apply check_otp_ok; [exact (otp_paired_row _ i _ (proj2 (proj2 Hs')) Hi')|].
    split; [done|]. split; [apply generate_otp_nonempty|]. eexists. split; [reflexivity|done]. }
  by rewrite Hc.
Qed.

(** The path of [resetPassword] for a known e-mail. *)
Lemma reset_password_row now e otp pw s i u :
  users_inv s -> users s !! i = Some u -> u_email u = e ->
  reset_password now e otp pw s =
  match fst (check_otp now otp u s) with
  | Ok _ => update_user e (set_password (bcrypt_hash pw)) s
  | Err err => (Err err, s)
  end.
Proof.
  intros (Hu & _ & _) Hi He. unfold reset_password.
  rewrite (se_bind_ok _ _ s (Some (i, u)) s) by (by apply select_user_row).
  unfold se_bind. destruct (check_otp_pure now otp u s) as [[a|err] Hc]; by rewrite Hc.
Qed.

(** The path of [login] for a known e-mail. *)
Lemma login_row secret now e pw s i u :
  users_inv s -> users s !! i = Some u -> u_email u = e ->
  login secret now e pw s =
  if negb (u_is_verified u) then (Err (Thrown "Please verify your email before logging in"), s)
  else if negb (bcrypt_compare pw (u_password u)) then (Err (Thrown "Invalid email or password"), s)
  else (Ok (generate_jwt secret now i (u_email u)), s).
Proof.
  intros (Hu & _ & _) Hi He. unfold login.
  rewrite (se_bind_ok _ _ s (Some (i, u)) s) by (by apply select_user_row).
  by repeat case_match.
Qed.

(** C23: resetPassword accepts the verification code of an unverified account:
    the password is replaced and the code consumed, after which login still
    refuses the unverified account and the code no longer verifies the e-mail. *)
Theorem reset_password_unverified secret now now' e c pw s i u :
  users_inv s -> users s !! i = Some u -> u_email u = e -> u_is_verified u = false ->
  otp_accepts now c u ->
  fst (reset_password now e c pw s) = Ok tt /\
  users (snd (reset_password now e c pw s)) !! i = Some (set_password (bcrypt_hash pw) u) /\
  fst (login secret now' e pw (snd (reset_password now e c pw s))) =
    Err (Thrown "Please verify your email before logging in") /\
  fst (verify_otp secret now' e c (snd (reset_password now e c pw s))) = Err (Thrown "Invalid OTP").
Proof.
  intros Hs Hi He Hv Hacc. pose proof Hs as (Hu & _ & Ho).
  assert (Hc : fst (check_otp now c u s) = Ok tt)
    by (apply check_otp_ok; [by eapply otp_paired_row|done]).
  rewrite (reset_password_row now e c pw s i u Hs Hi He), Hc.
  set (f := set_password (bcrypt_hash pw)).
  assert (Hs' : users_inv (snd (update_user e f s)))
    by (apply update_user_inv; [done|by intros v []|done]).
  pose proof (update_user_lookup e f s i u Hu Hi He) as Hi'.
  split; [done|]. split; [done|]. split.
  - rewrite (login_row secret now' e pw _ i (f u) Hs' Hi' He). simpl. by rewrite Hv.
  - by rewrite (verify_otp_row secret now' e c _ i (f u) Hs' Hi' He).
Qed.

Lemma head_users_where_none_iff P m :
  head (users_where P m) = None <-> forall i u, m !! i = Some u -> P u = false.
Proof.
  split; [apply head_users_where_None|]. intros Hall.
  destruct (users_where P m) as [|[j v] l] eqn:E; [done|]. exfalso.
  assert ((j, v) ∈ users_where P m) as Hin by (rewrite E; set_solver).
  apply users_where_spec in Hin as [Hj Hp]. by rewrite (Hall j v Hj) in Hp.
Qed.

Lemma register_new k now ok r s :
  (forall i u, users s !! i = Some u -> u_email u <> rg_email r) ->
  register k now ok r s =
  (if ok then Ok "Registration successful! Please check your email for OTP verification."
   else Err (Thrown "Failed to send verification email"),
   set_users (<[next_user s := registered_user k now r]> (users s)) (S (next_user s)) s).
Proof.
  intros Hnew. unfold register, select_user, select_user_where. run_se.
  replace (head _) with (@None (nat * user)).
  - run_se. by destruct ok.
  - symmetry. apply head_users_where_none_iff. intros i u Hi.
    apply not_true_iff_false. rewrite email_is_true. exact (Hnew i u Hi).
Qed.

(** C25: When the verification mail fails, register answers an error but the
    unverified user row stays stored, and registering the same e-mail again is
    refused with User already exists. *)
Theorem register_mail_failure k k' now now' ok r s :
  (forall i u, users s !! i = Some u -> u_email u <> rg_email r) ->
  fst (register k now false r s) = Err (Thrown "Failed to send verification email") /\
  users (snd (register k now false r s)) !! next_user s = Some (registered_user k now r) /\
  register k' now' ok r (snd (register k now false r s)) =
    (Err (Thrown "User already exists with this email"), snd (register k now false r s)).
Proof.
  intros Hnew. rewrite (register_new k now false r s Hnew). cbn [fst snd].
  split; [done|]. split; [by apply lookup_insert_eq|].
  unfold register, select_user, select_user_where. run_se.
  destruct (head _) as [[i u]|] eqn:E; run_se; [done|].
  apply head_users_where_None with (i := next_user s) (u := registered_user k now r) in E;
    [|by apply lookup_insert_eq].
  unfold email_is in E. simpl in E. by rewrite String.eqb_refl in E.
Qed.

(** The decimal number a string of digits denotes, read left to right. *)
Fixpoint decimal_acc (acc : Z) (str : string) : option Z :=
  match str with
  | EmptyString => Some acc
  | String c rest =>
      match digit_val c with
      | Some d => decimal_acc (10 * acc + d) rest
      | None => None
      end
  end.

Lemma otp_value_bounds k : 0 <= k < 2 ^ 53 -> 100000 <= otp_value k <= 999999.
Proof.
  intros Hk. unfold otp_value.
  assert (0 <= k * 900000 / 2 ^ 53 < 900000); [|lia].
  split; [apply Z.div_pos; lia|]. apply Z.div_lt_upper_bound; lia.
Qed.

Lemma otp_string_decimal n : 0 <= n <= 999999 -> decimal_acc 0 (otp_string n) = Some n.
Proof.
  intros Hn. unfold otp_string, pad4, pad2. cbn [decimal_acc].
  rewrite !digit_val_mod by lia. rewrite digit_val_mod1. cbn [decimal_acc]. f_equal.
  rewrite !Z.mod_eq, !Z.div_div by lia.
  change (100000 * 10) with 1000000. change (10000 * 10) with 100000.
  change (1000 * 10) with 10000. change (100 * 10) with 1000. change (10 * 10) with 100.
  assert (n / 1000000 = 0) by (apply Z.div_small; lia). lia.
Qed.

(** For every draw of Math.random(), generateOTP gives a number between
    100000 and 999999 whose string has six characters and reads back as that
    number. *)
Theorem generate_otp_six_digits k :
  0 <= k < 2 ^ 53 ->
  100000 <= otp_value k <= 999999 /\ String.length (generate_otp k) = 6%nat /\
  decimal_acc 0 (generate_otp k) = Some (otp_value k).
Proof.
  intros Hk. pose proof (otp_value_bounds k Hk).
  split; [done|]. split; [reflexivity|]. apply otp_string_decimal. lia.
Qed.

(** verifyToken of a token generateJWT signed gives back its id and
    e-mail exactly when the secret is the same and fewer than 24 hours (in
    whole seconds) have passed. *)
Theorem jwt_roundtrip secret secret' now now' i e :
  verify_token secret' now' (generate_jwt secret now i e) =
  if String.eqb secret secret' && (now' / 1000 <? now / 1000 + 86400)
  then Ok (i, e) else Err (Thrown "Invalid or expired token").
Proof. reflexivity. Qed.

Lemma bcrypt_compare_hash pw : bcrypt_compare pw (bcrypt_hash pw) = true.
Proof. apply String.eqb_refl. Qed.

(** C24: Registering a new e-mail, verifying it with the mailed code within
    ten minutes, then logging in with the registered password issues a token
    for the new user's id. *)
Theorem register_verify_login secret k now now' now'' r s :
  users_inv s -> (forall i u, users s !! i = Some u -> u_email u <> rg_email r) ->
  now' <= otp_expiry now ->
  let s1 := snd (register k now true r s) in
  let s2 := snd (verify_otp secret now' (rg_email r) (generate_otp k) s1) in
  fst (verify_otp secret now' (rg_email r) (generate_otp k) s1) =
    Ok (generate_jwt secret now' (next_user s) (rg_email r)) /\
  fst (login secret now'' (rg_email r) (rg_password r) s2) =
    Ok (generate_jwt secret now'' (next_user s) (rg_email r)).
Proof.
  intros Hs Hnew Hnow s1 s2.
  assert (Hs1 : users_inv s1) by apply register_inv, Hs.
  assert (Hi1 : users s1 !! next_user s = Some (registered_user k now r))
    by (subst s1; rewrite register_new by done; apply lookup_insert_eq).
  assert (Hc : fst (check_otp now' (generate_otp k) (registered_user k now r) s1) = Ok tt).
  { apply check_otp_ok; [exact (otp_paired_row _ _ _ (proj2 (proj2 Hs1)) Hi1)|].
    split; [done|]. split; [apply generate_otp_nonempty|]. eexists. split; [reflexivity|done]. }
  subst s2. rewrite (verify_otp_row secret now' _ _ s1 _ _ Hs1 Hi1 eq_refl), Hc.
  split; [done|]. cbn [snd].
  assert (Hs2 : users_inv (snd (update_user (rg_email r) mark_verified s1)))
    by (apply update_user_inv; [done|by intros v []|done]).
  pose proof (update_user_lookup _ mark_verified s1 _ _ (proj1 Hs1) Hi1 eq_refl) as Hi2.
  rewrite (login_row secret now'' _ _ _ _ _ Hs2 Hi2 eq_refl). simpl.
  by rewrite bcrypt_compare_hash.
Qed.

(** ** Witnesses *)

Definition ex_register : register_req := mkRegisterReq "ann@example.com" "secret1" "Ann" "Lee".

(** Ann registered at time 0 with the draw [k = 0]: code "100000". *)
Definition ex_auth_db : db := snd (register 0 0 true ex_register empty_db).

(** Ann verified her e-mail at time 1000. *)
Definition ex_auth_db2 : db := snd (verify_otp "key" 1000 "ann@example.com" "100000" ex_auth_db).

Lemma users_inv_empty : users_inv empty_db.
Proof.
  split; [|split]; simpl.
  - intros i j u v Hi. by rewrite lookup_empty in Hi.
  - intros i [u Hi]. by rewrite lookup_empty in Hi.
  - intros i u Hi. by rewrite lookup_empty in Hi.
Qed.

Lemma ex_auth_step : auth_step empty_db ex_auth_db.
Proof. constructor. Qed.

Lemma ex_auth_db_inv : users_inv ex_auth_db.
Proof. exact (auth_step_inv _ _ users_inv_empty ex_auth_step). Qed.

Lemma ex_auth_db2_inv : users_inv ex_auth_db2.
Proof. apply (auth_step_inv ex_auth_db); [apply ex_auth_db_inv|constructor]. Qed.

Lemma users_inv_reachable_witness : users_inv ex_auth_db2.
Proof.
  apply (users_inv_reachable empty_db); [apply users_inv_empty|].
  apply (star_step _ _ ex_auth_db); [apply ex_auth_step|].
  apply (star_step _ _ ex_auth_db2); [constructor|apply star_refl].
Defined.

Lemma verify_otp_succeeds_iff_witness :
  fst (verify_otp "key" 1000 "ann@example.com" "100000" ex_auth_db) =
    Ok (generate_jwt "key" 1000 1 "ann@example.com").
Proof.
  apply (verify_otp_succeeds_iff "key" 1000 "ann@example.com" "100000" ex_auth_db 1
           (registered_user 0 0 ex_register));
    [apply ex_auth_db_inv|reflexivity|reflexivity|].
  split; [reflexivity|]. split; [discriminate|]. eexists. split; [reflexivity|unfold otp_expiry; lia].
Defined.

Lemma verify_otp_single_use_witness :
  fst (verify_otp "key" 2000 "ann@example.com" "100000" ex_auth_db2) = Err (Thrown "Invalid OTP").
Proof.
  apply (verify_otp_single_use "key" 1000 2000 "ann@example.com" "100000" ex_auth_db 1
           (registered_user 0 0 ex_register));
    [apply ex_auth_db_inv|reflexivity|reflexivity|vm_compute; reflexivity].
Defined.

Lemma login_requires_verification_witness :
  snd (login "key" 2000 "ann@example.com" "secret1" ex_auth_db2) = ex_auth_db2 /\
  exists u, users ex_auth_db2 !! 1%nat = Some u /\ u_email u = "ann@example.com" /\
            u_is_verified u = true /\ bcrypt_compare "secret1" (u_password u) = true.
Proof.
  apply (login_requires_verification "key" 2000 "ann@example.com" "secret1" ex_auth_db2
           (generate_jwt "key" 2000 1 "ann@example.com")).
  vm_compute. reflexivity.
Defined.

Lemma reset_code_verifies_email_witness :
  fst (request_password_reset 0 5000 true "ann@example.com" ex_auth_db2) = Ok tt /\
  fst (verify_otp "key" 6000 "ann@example.com" (generate_otp 0)
         (snd (request_password_reset 0 5000 true "ann@example.com" ex_auth_db2))) =
    Ok (generate_jwt "key" 6000 1 "ann@example.com").
Proof.
  apply (reset_code_verifies_email "key" 0 5000 6000 "ann@example.com" ex_auth_db2 1
           (mark_verified (registered_user 0 0 ex_register)));
    [apply ex_auth_db2_inv|reflexivity|reflexivity|reflexivity|unfold otp_expiry; lia].
Defined.

Lemma reset_password_unverified_witness :
  fst (reset_password 1000 "ann@example.com" "100000" "newpass" ex_auth_db) = Ok tt /\
  users (snd (reset_password 1000 "ann@example.com" "100000" "newpass" ex_auth_db)) !! 1%nat =
    Some (set_password (bcrypt_hash "newpass") (registered_user 0 0 ex_register)) /\
  fst (login "key" 2000 "ann@example.com" "newpass"
         (snd (reset_password 1000 "ann@example.com" "100000" "newpass" ex_auth_db))) =
    Err (Thrown "Please verify your email before logging in") /\
  fst (verify_otp "key" 2000 "ann@example.com" "100000"
         (snd (reset_password 1000 "ann@example.com" "100000" "newpass" ex_auth_db))) =
    Err (Thrown "Invalid OTP").
Proof.
  apply (reset_password_unverified "key" 1000 2000 "ann@example.com" "100000" "newpass"
           ex_auth_db 1 (registered_user 0 0 ex_register));
    [apply ex_auth_db_inv|reflexivity|reflexivity|reflexivity|].
  split; [reflexivity|]. split; [discriminate|]. eexists. split; [reflexivity|unfold otp_expiry; lia].
Defined.

Lemma register_mail_failure_witness :
  fst (register 0 0 false ex_register empty_db) = Err (Thrown "Failed to send verification email") /\
  users (snd (register 0 0 false ex_register empty_db)) !! 1%nat = Some (registered_user 0 0 ex_register) /\
  register 7 100 true ex_register (snd (register 0 0 false ex_register empty_db)) =
    (Err (Thrown "User already exists with this email"), snd (register 0 0 false ex_register empty_db)).
Proof.
  apply (register_mail_failure 0 7 0 100 true ex_register empty_db).
  intros i u Hi. simpl in Hi. by rewrite lookup_empty in Hi.
Defined.

Lemma generate_otp_six_digits_witness :
  100000 <= otp_value 4503599627370496 <= 999999 /\
  String.length (generate_otp 4503599627370496) = 6%nat /\
  decimal_acc 0 (generate_otp 4503599627370496) = Some (otp_value 4503599627370496).
Proof. apply generate_otp_six_digits. lia. Defined.

Lemma register_verify_login_witness :
  fst (verify_otp "key" 1000 "ann@example.com" (generate_otp 0)
         (snd (register 0 0 true ex_register empty_db))) =
    Ok (generate_jwt "key" 1000 1 "ann@example.com") /\
  fst (login "key" 3000 "ann@example.com" "secret1"
         (snd (verify_otp "key" 1000 "ann@example.com" (generate_otp 0)
                 (snd (register 0 0 true ex_register empty_db))))) =
    Ok (generate_jwt "key" 3000 1 "ann@example.com").
Proof.
  apply (register_verify_login "key" 0 0 1000 3000 ex_register empty_db);
    [apply users_inv_empty|intros i u Hi; simpl in Hi; by rewrite lookup_empty in Hi|unfold otp_expiry; lia].
Defined.
