(* ===== verification/Email.v ===== *)
(** * The e-mail service (services/emailService.ts)

    [EmailService] wraps one nodemailer transporter.  Each of its three
    senders builds one message ([from], [to], [subject] and an HTML body
    that interpolates one value: the code or the first name) and hands it
    to [transporter.sendMail].  The senders differ in what a refused
    delivery does: [sendOTP] and [sendPasswordResetOTP] throw an [Error]
    with their own message, while [sendWelcomeEmail] logs and returns.

    The state is the list of messages the transporter has accepted, oldest
    first; whether the SMTP server accepts a message is a boolean the
    environment chooses.  The HTML is kept as the value it interpolates:
    the rest of each template is constant text.  [Auth] abstracts a sender
    by [Auth.send_mail]; [send_mail_refines] shows that this abstraction
    answers what the sender answers and leaves the database alone. *)

From S2P Require Import Spec2Rocq Store Auth.

(** ** Messages *)

Inductive template := OtpTemplate | WelcomeTemplate | ResetTemplate.

#[export] Instance template_eq_dec : EqDecision template.
Proof. solve_decision. Defined.

(** A [mailOptions] object: the recipient, the subject, which HTML
    template, and the value the template interpolates. *)
Record mail := mkMail {
  m_to : string;
  m_subject : string;
  m_template : template;
  m_value : string
}.

Abbreviation outbox := (list mail).

Definition otp_mail (email otp : string) : mail :=
  mkMail email "Email Verification - OTP Code" OtpTemplate otp.

Definition welcome_mail (email first_name : string) : mail :=
  mkMail email "Welcome to Financial Manager!" WelcomeTemplate first_name.

Definition reset_mail (email otp : string) : mail :=
  mkMail email "Password Reset - OTP Code" ResetTemplate otp.

(** ** The senders *)

(** [try { await this.transporter.sendMail(m) } catch { on_refused }]. *)
Definition try_send (accepted : bool) (m : mail) (on_refused : SE outbox unit) : SE outbox unit :=
  fun ob => if accepted then (Ok tt, ob ++ [m]) else on_refused ob.

Definition send_otp (accepted : bool) (email otp : string) : SE outbox unit :=
  try_send accepted (otp_mail email otp) (se_fail (Thrown "Failed to send verification email")).

(** The [catch] of [sendWelcomeEmail] only logs. *)
Definition send_welcome_email (accepted : bool) (email first_name : string) : SE outbox unit :=
  try_send accepted (welcome_mail email first_name) (se_ret tt).

Definition send_password_reset_otp (accepted : bool) (email otp : string) : SE outbox unit :=
  try_send accepted (reset_mail email otp) (se_fail (Thrown "Failed to send password reset email")).

(** ** What each sender does *)

(** An accepted message is appended to the outbox; a refused one leaves the
    outbox as it was and ends the sender as its [catch] says: an error with
    the sender's message, except for the welcome mail, which never fails. *)
Theorem senders_spec accepted email v ob :
  send_otp accepted email v ob =
    (if accepted then (Ok tt, ob ++ [otp_mail email v])
     else (Err (Thrown "Failed to send verification email"), ob)) /\
  send_password_reset_otp accepted email v ob =
    (if accepted then (Ok tt, ob ++ [reset_mail email v])
     else (Err (Thrown "Failed to send password reset email"), ob)) /\
  send_welcome_email accepted email v ob =
    (Ok tt, if accepted then ob ++ [welcome_mail email v] else ob).
Proof. by destruct accepted. Qed.

(** [Auth.send_mail] is the database-side view of the two senders that
    [authService.ts] calls: it ends as [sendOTP] (with the message of
    lines 48 and 143) or [sendPasswordResetOTP] (line 166) ends, for every
    outbox, and changes no row. *)
Theorem send_mail_refines accepted email otp (s : db) (ob : outbox) :
  fst (send_mail accepted "Failed to send verification email" s) = fst (send_otp accepted email otp ob) /\
  fst (send_mail accepted "Failed to send password reset email" s) =
    fst (send_password_reset_otp accepted email otp ob) /\
  snd (send_mail accepted "Failed to send verification email" s) = s /\
  snd (send_mail accepted "Failed to send password reset email" s) = s.
Proof. unfold send_mail, se_guard. by destruct accepted. Qed.
