(* ===== verification/Advice.v ===== *)
(** * Advice texts: routes/ai.ts and services/geminiService.ts

    The three POST routes gather the user's financial data
    ([getUserFinancialData]: three queries and [processFinancialData]),
    hand it to the text generator, store the text it returns in
    [ai_recommendations] and answer it; the other routes list, mark as read
    and delete the stored texts.  The text generator is a parameter [gen] of
    the data it is given (the prompt texts are its business, not the
    program's); [None] is a failed call.

    The order of rows among equal sort keys is left open by MySQL; the
    stable sort [sort_by] of [Query] keeps them in the table's order, one
    of the orders MySQL may return, and no theorem depends on it.
    [created_at] is the time of the INSERT in seconds (the clock [now] of
    the generating routes), so two texts of one second tie.  GET
    /recommendations binds [LIMIT ? OFFSET ?] to JavaScript numbers, which
    mysql2's [execute] sends as DOUBLE; MySQL 8.0.22 and later refuse such
    a LIMIT parameter (ER_WRONG_ARGUMENTS), the reason why expenses.ts:56
    prints its LIMIT as a literal.  The server version is not in the
    sources: it is the parameter [refuses_double_limit].  The month of an expense in
    [monthlySpending] is [toISOString().slice(0, 7)] of the [Date] mysql2
    returns, [Dates.stored_month]. *)

From Stdlib Require Import Sorted.
From stdpp Require Import sorting.
From S2P Require Import Spec2Rocq Dates Query Store.

#[export] Instance recommendation_type_eq_dec : EqDecision recommendation_type.
Proof. solve_decision. Defined.

#[export] Instance recommendation_eq_dec : EqDecision recommendation.
Proof. solve_decision. Defined.

(** The ENUM value of a type. *)
Definition type_name (t : recommendation_type) : string :=
  match t with
  | Saving => "saving" | Spending => "spending" | Budgeting => "budgeting" | GoalAdvice => "goal"
  end.

(** ** Dates in the queries *)

(** [a <= b] on DATE values. *)
Definition date_leb (a b : date) : bool :=
  (d_year a <? d_year b) ||
  ((d_year a =? d_year b) && ((d_month a <? d_month b) ||
                              ((d_month a =? d_month b) && (d_day a <=? d_day b)))).

(** [DATE_SUB(d, INTERVAL n MONTH)]: the same day [n] months earlier, the
    day clamped to the length of that month. *)
Definition date_sub_months (d : date) (n : Z) : date :=
  let t := d_year d * 12 + (d_month d - 1) - n in
  let y := t / 12 in
  let m := t mod 12 + 1 in
  mkDate y m (Z.min (d_day d) (days_in_month y m)).

(** ** [getUserFinancialData] *)

(** A row of [SELECT e.amount, e.expense_date, c.name FROM expenses e JOIN
    categories c ...]. *)
Record spend_row := mkSpendRow { sr_amount : Z; sr_date : date; sr_category : string }.

(** The user's expenses of the last three months ([CURDATE()] is [today]),
    newest first. *)
Definition spend_rows (today : date) (uid : nat) (s : db) : list spend_row :=
  let since := date_sub_months today 3 in
  let rows := omap (fun ie : nat * expense =>
                      let e := ie.2 in
                      if (e_user e =? uid)%nat && date_leb since (e_date e) then
                        (fun c => mkSpendRow (e_amount e) (e_date e) (c_name c)) <$>
                          categories s !! e_category e
                      else None) (map_to_list (expenses s)) in
  sort_by (fun a b => date_leb (sr_date b) (sr_date a)) rows.

(** [WHERE user_id = ? AND status = 'active']. *)
Definition active_goals (uid : nat) (s : db) : list goal :=
  filter (fun g => (g_user g =? uid)%nat && bool_decide (g_status g = Active)) (snd <$> map_to_list (goals s)).

(** A row of the budgets query: [monthly_limit], [current_spent] and the
    category name, for the month [cur_month]. *)
Definition month_budgets (cur_month : string) (uid : nat) (s : db) : list (Z * Z * string) :=
  omap (fun b => if (b_user b =? uid)%nat && String.eqb (b_month b) cur_month then
                   (fun c => (b_limit b, b_spent b, c_name c)) <$> categories s !! b_category b
                 else None) (snd <$> map_to_list (budgets s)).

(** [obj[key] = (obj[key] || 0) + amount] on an object whose keys keep the
    order they were added in. *)
Fixpoint bump (k : string) (v : Z) (o : list (string * Z)) : list (string * Z) :=
  match o with
  | [] => [(k, v)]
  | (k', w) :: o' => if String.eqb k k' then (k', w + v) :: o' else (k', w) :: bump k v o'
  end.

Record fin_data := mkFinData {
  fd_total : Z;
  fd_categories : list (string * Z);
  fd_months : list (string * Z);
  fd_goals : list goal;
  fd_budgets : list (Z * Z * string)
}.

(** [processFinancialData]: the [reduce] of the total and the [forEach]
    that fills the two objects. *)
Definition process_financial_data (tz : Z) (ex : list spend_row) (gs : list goal)
    (bs : list (Z * Z * string)) : fin_data :=
  let total := fold_left (fun sum e => sum + sr_amount e) ex 0 in
  let objs := fold_left (fun (acc : list (string * Z) * list (string * Z)) e =>
                (bump (sr_category e) (sr_amount e) acc.1,
                 bump (stored_month tz (sr_date e)) (sr_amount e) acc.2)) ex ([], []) in
  mkFinData total objs.1 objs.2 gs bs.

Definition financial_data (tz : Z) (today : date) (cur_month : string) (uid : nat) (s : db) : fin_data :=
  process_financial_data tz (spend_rows today uid s) (active_goals uid s) (month_budgets cur_month uid s).

(** [Object.entries(categoryBreakdown).sort(([,a], [,b]) => b - a).slice(0, 3)]
    of the goal advice. *)
Definition top_categories (cb : list (string * Z)) : list (string * Z) :=
  take 3 (sort_by (fun a b => b.2 <=? a.2) cb).

(** ** The table [ai_recommendations] *)

(** [saveRecommendation]: [INSERT INTO ai_recommendations (user_id,
    recommendation_text, recommendation_type) VALUES (?, ?, ?)]; [is_read]
    defaults to FALSE. *)
Definition save_recommendation (now : Z) (uid : nat) (text : string) (t : recommendation_type)
    : Handler unit :=
  fun s =>
    if fk_user s uid then
      (Ok tt, set_recommendations (<[next_recommendation s := mkRecommendation uid text t false now]>
                                     (recommendations s)) (S (next_recommendation s)) s)
    else (Err (DbError FkViolation), s).

Definition rec_owned (uid : nat) (r : recommendation) : bool := (r_user r =? uid)%nat.

Definition set_read (r : recommendation) : recommendation :=
  mkRecommendation (r_user r) (r_text r) (r_type r) true (r_created_at r).

(** PATCH /recommendations/:id/read. *)
Definition mark_read (uid id : nat) : Handler unit := fun s =>
  let P := by_id_owned (rec_owned uid) id in
  let n := count_where P (recommendations s) in
  (if (n =? 0)%nat then Err NotFound else Ok tt,
   set_recommendations (update_where P set_read (recommendations s)) (next_recommendation s) s).

(** DELETE /recommendations/:id. *)
Definition delete_recommendation (uid id : nat) : Handler unit := fun s =>
  let P := by_id_owned (rec_owned uid) id in
  let n := count_where P (recommendations s) in
  (if (n =? 0)%nat then Err NotFound else Ok tt,
   set_recommendations (delete_where P (recommendations s)) (next_recommendation s) s).

(** A query-string value is truthy when it is present and not empty. *)
Definition truthy (v : option string) : option string :=
  match v with Some t => if String.eqb t "" then None else Some t | None => None end.

(** ORDER BY created_at DESC. *)
Definition newest_first (a b : nat * recommendation) : bool := r_created_at b.2 <=? r_created_at a.2.

(** GET /recommendations: [type] and [unreadOnly] filters, newest first,
    [LIMIT ? OFFSET ?] bound to [parseInt(limit)] and [parseInt(offset)]
    (defaults 10 and 0).  A server that refuses a DOUBLE LIMIT parameter
    refuses every such statement; an older one refuses a parameter that is
    NaN or negative. *)
Definition list_recommendations (refuses_double_limit : bool) (uid : nat) (type : option string)
    (unread_only : option string) (limit offset : option string)
    : Handler (list (nat * recommendation)) := fun s =>
  let lim := match limit with Some l => parse_int l | None => Some 10 end in
  let off := match offset with Some o => parse_int o | None => Some 0 end in
  let keep (ir : nat * recommendation) :=
    rec_owned uid ir.2 &&
    match truthy type with Some t => String.eqb (type_name (r_type ir.2)) t | None => true end &&
    (if bool_decide (unread_only = Some "true") then negb (r_is_read ir.2) else true) in
  if refuses_double_limit then (Err (DbError WrongArguments), s) else
  match lim, off with
  | Some l, Some o =>
      if (0 <=? l) && (0 <=? o) then
        (Ok (limit_offset l o (sort_by newest_first (filter keep (map_to_list (recommendations s))))), s)
      else (Err (DbError WrongArguments), s)
  | _, _ => (Err (DbError WrongArguments), s)
  end.

(** GET /categories (and GET /ai/categories): [ORDER BY name]. *)
Definition list_categories (s : db) : list (nat * category) :=
  sort_by (fun a b => String.leb (c_name a.2) (c_name b.2)) (map_to_list (categories s)).

(** ** The generating routes *)

Section Generate.
Context (tz : Z) (today : date) (cur_month : string).
Context (now : Z).   (* the clock of CURRENT_TIMESTAMP, in seconds *)
Context (gen : fin_data -> option string) (gen_goal : fin_data -> option goal -> option string).

(** The common shape of the three generators: a failed call or a failed
    INSERT is caught and rethrown with the generator's message. *)
Definition advise (reply : option string) (uid : nat) (t : recommendation_type) (msg : string)
    : Handler string := fun s =>
  match reply with
  | None => (Err (Thrown msg), s)
  | Some text =>
      match save_recommendation now uid text t s with
      | (Ok _, s') => (Ok text, s')
      | (Err _, s') => (Err (Thrown msg), s')
      end
  end.

(** POST /recommendations/budgeting: [generateFinancialRecommendation]. *)
Definition generate_financial_recommendation (uid : nat) : Handler string := fun s =>
  advise (gen (financial_data tz today cur_month uid s)) uid Budgeting
         "Failed to generate AI recommendation" s.

(** POST /insights/spending: [generateSpendingInsights]. *)
Definition generate_spending_insights (uid : nat) : Handler string := fun s =>
  advise (gen (financial_data tz today cur_month uid s)) uid Spending
         "Failed to generate spending insights" s.

(** [generateGoalAdvice]: [getGoalData] reads the goal by id only. *)
Definition generate_goal_advice (uid gid : nat) : Handler string := fun s =>
  advise (gen_goal (financial_data tz today cur_month uid s) (goals s !! gid)) uid GoalAdvice
         "Failed to generate goal advice" s.

(** POST /advice/goal/:goalId: the goal must be the caller's.  A NaN or
    negative id matches no row. *)
Definition post_goal_advice (uid : nat) (goal_id : string) : Handler string := fun s =>
  match parse_int goal_id with
  | Some g =>
      if (0 <=? g) && match goals s !! Z.to_nat g with
                      | Some gl => (g_user gl =? uid)%nat
                      | None => false
                      end
      then generate_goal_advice uid (Z.to_nat g) s
      else (Err NotFound, s)
  | None => (Err NotFound, s)
  end.
End Generate.

(** ** The objects of [processFinancialData] *)

(** The value of key [k] in an object (the sum of its entries: one, when
    the keys are distinct). *)
Definition key_sum (k : string) (o : list (string * Z)) : Z :=
  zsum (fun p => if String.eqb p.1 k then p.2 else 0) o.

(** The reference: the sum of the amounts of the rows of key [k]. *)
Definition rows_sum (key : spend_row -> string) (k : string) (ex : list spend_row) : Z :=
  zsum (fun e => if String.eqb (key e) k then sr_amount e else 0) ex.

(** The [forEach] on one object. *)
Definition fill (key : spend_row -> string) (ex : list spend_row) (o : list (string * Z)) :=
  fold_left (fun o e => bump (key e) (sr_amount e) o) ex o.

Lemma bump_keys k v o :
  (bump k v o).*1 = if bool_decide (k ∈ o.*1) then o.*1 else o.*1 ++ [k].
Proof.
  induction o as [|[k0 w] o IH]; [done|]. cbn [bump].
  destruct (String.eqb_spec k k0) as [->|Hne]; rewrite !fmap_cons; simpl.
  - rewrite bool_decide_eq_true_2; [done|set_solver].
  - rewrite IH. destruct (bool_decide (k ∈ o.*1)) eqn:E.
    + rewrite bool_decide_eq_true in E. rewrite bool_decide_eq_true_2; [done|set_solver].
    + rewrite bool_decide_eq_false in E. rewrite bool_decide_eq_false_2; [done|set_solver].
Qed.

Lemma bump_nodup k v o : NoDup o.*1 -> NoDup (bump k v o).*1.
Proof.
  intros Hnd. rewrite bump_keys. case_bool_decide as Hk; [done|].
  apply NoDup_app. split; [done|]. split; [set_solver|apply NoDup_singleton].
Qed.

Lemma bump_elem k v o k' : k' ∈ (bump k v o).*1 <-> k' ∈ o.*1 \/ k' = k.
Proof. rewrite bump_keys. case_bool_decide; set_solver. Qed.

Lemma bump_key_sum k v o k' :
  key_sum k' (bump k v o) = key_sum k' o + if String.eqb k k' then v else 0.
Proof.
  unfold key_sum. induction o as [|[k0 w] o IH]; simpl; [destruct (String.eqb k k'); lia|].
  destruct (String.eqb_spec k k0) as [->|Hne]; simpl.
  - destruct (String.eqb k0 k'); lia.
  - rewrite IH. lia.
Qed.

Lemma bump_total k v o : zsum snd (bump k v o) = zsum snd o + v.
Proof.
  induction o as [|[k0 w] o IH]; simpl; [lia|].
  destruct (String.eqb k k0); simpl; [lia|]. rewrite IH. lia.
Qed.

(** With distinct keys, an entry's value is the value of its key. *)
Lemma entry_key_sum o k v : NoDup o.*1 -> (k, v) ∈ o -> v = key_sum k o.
Proof.
  unfold key_sum. induction o as [|[k0 w] o IH]; intros Hnd Hin; [set_solver|].
  simpl in Hnd. apply NoDup_cons in Hnd as [Hk0 Hnd]. simpl.
  apply elem_of_cons in Hin as [[= <- <-]|Hin].
  - rewrite String.eqb_refl, zsum_zero; [lia|]. intros [k1 w1] Hp. simpl.
    destruct (String.eqb_spec k1 k) as [->|]; [|done].
    exfalso. apply Hk0. apply list_elem_of_fmap. by exists (k, w1).
  - assert (k0 <> k).
    { intros ->. apply Hk0. apply list_elem_of_fmap. by exists (k, v). }
    rewrite (proj2 (String.eqb_neq k0 k)) by done. rewrite <- IH; [lia|done|done].
Qed.

Lemma fill_nodup key ex o : NoDup o.*1 -> NoDup (fill key ex o).*1.
Proof. revert o. induction ex as [|e ex IH]; intros o Hnd; simpl; [done|]. by apply IH, bump_nodup. Qed.

Lemma fill_elem key ex o k :
  k ∈ (fill key ex o).*1 <-> k ∈ o.*1 \/ exists e, e ∈ ex /\ key e = k.
Proof.
  revert o. induction ex as [|e ex IH]; intros o; simpl; [set_solver|].
  rewrite IH, bump_elem. split.
  - intros [[Hk| ->]|(e' & He' & <-)]; [by left|right; exists e; set_solver|right; exists e'; set_solver].
  - intros [Hk|(e' & He' & <-)]; [by left; left|].
    apply elem_of_cons in He' as [ ->|He']; [by left; right|right; by exists e'].
Qed.

Lemma fill_key_sum key ex o k : key_sum k (fill key ex o) = key_sum k o + rows_sum key k ex.
Proof.
  unfold rows_sum. revert o. induction ex as [|e ex IH]; intros o; simpl; [lia|].
  rewrite IH, bump_key_sum. lia.
Qed.

Lemma fill_total key ex o : zsum snd (fill key ex o) = zsum snd o + zsum sr_amount ex.
Proof. revert o. induction ex as [|e ex IH]; intros o; simpl; [lia|]. rewrite IH, bump_total. lia. Qed.

Lemma fold_total ex a : fold_left (fun sum e => sum + sr_amount e) ex a = a + zsum sr_amount ex.
Proof. revert a. induction ex as [|e ex IH]; intros a; simpl; [lia|]. rewrite IH. lia. Qed.

(** The [forEach] fills the two objects independently. *)
Lemma fold_pair (k1 k2 : spend_row -> string) ex o1 o2 :
  fold_left (fun (acc : list (string * Z) * list (string * Z)) e =>
               (bump (k1 e) (sr_amount e) acc.1, bump (k2 e) (sr_amount e) acc.2)) ex (o1, o2) =
  (fill k1 ex o1, fill k2 ex o2).
Proof. revert o1 o2. induction ex as [|e ex IH]; intros o1 o2; simpl; [done|]. apply IH. Qed.

(** What [fill] from the empty object computes. *)
Lemma fill_spec key ex :
  NoDup (fill key ex []).*1 /\
  (forall k, k ∈ (fill key ex []).*1 <-> exists e, e ∈ ex /\ key e = k) /\
  (forall k v, (k, v) ∈ fill key ex [] -> v = rows_sum key k ex) /\
  zsum snd (fill key ex []) = zsum sr_amount ex.
Proof.
  split; [apply fill_nodup, NoDup_nil_2|]. split.
  { intros k. rewrite fill_elem. set_solver. }
  split; [|by rewrite fill_total].
  intros k v Hin. rewrite (entry_key_sum (fill key ex []) k v); [|apply fill_nodup, NoDup_nil_2|done].
  by rewrite fill_key_sum.
Qed.

(** ** What [processFinancialData] computes *)

(** C33: processFinancialData computes what it means to: the total is the sum
    of the amounts, each category and each month appears once, with the sum of
    the amounts of its rows, and exactly the categories and months of the rows
    appear. *)
Theorem process_financial_data_reference tz ex gs bs :
  let d := process_financial_data tz ex gs bs in
  fd_total d = zsum sr_amount ex /\
  NoDup (fd_categories d).*1 /\
  (forall k, k ∈ (fd_categories d).*1 <-> exists e, e ∈ ex /\ sr_category e = k) /\
  (forall k v, (k, v) ∈ fd_categories d -> v = rows_sum sr_category k ex) /\
  NoDup (fd_months d).*1 /\
  (forall k v, (k, v) ∈ fd_months d -> v = rows_sum (fun e => stored_month tz (sr_date e)) k ex) /\
  zsum snd (fd_categories d) = fd_total d /\ zsum snd (fd_months d) = fd_total d.
Proof.
  unfold process_financial_data. rewrite (fold_pair sr_category (fun e => stored_month tz (sr_date e))).
  cbn zeta. simpl. rewrite fold_total.
  destruct (fill_spec sr_category ex) as (Hc1 & Hc2 & Hc3 & Hc4).
  destruct (fill_spec (fun e => stored_month tz (sr_date e)) ex) as (Hm1 & _ & Hm3 & Hm4).
  split; [lia|]. split; [done|]. split; [done|]. repeat split; try done; lia.
Qed.

(** ** The top categories *)

Definition amount_ge (a b : string * Z) : Prop := b.2 <= a.2.

Lemma amount_before_total (x y : string * Z) :
  (y.2 <=? x.2) = false -> (x.2 <=? y.2) = true.
Proof. rewrite Z.leb_gt, Z.leb_le. lia. Qed.

Lemma amount_before_sorted (l : list (string * Z)) :
  Sorted (fun a b => (b.2 <=? a.2) = true) l -> Sorted amount_ge l.
Proof.
  induction 1 as [|x l Hl IH Hhd]; constructor; [done|].
  destruct Hhd; constructor. unfold amount_ge. by apply Z.leb_le.
Qed.

Lemma amount_before_strongly (l : list (string * Z)) :
  Sorted (fun a b => (b.2 <=? a.2) = true) l -> StronglySorted amount_ge l.
Proof.
  intros Hs. apply Sorted_StronglySorted; [intros x y z; unfold amount_ge; lia|].
  by apply amount_before_sorted.
Qed.

(** C34: The three top categories of the goal advice are the three largest
    totals: they and the rest are a permutation of all categories, they come
    in decreasing order, there are min(3, n) of them, and none of the rest is
    larger. *)
Theorem top_categories_correct cb :
  let sorted := sort_by (fun a b => b.2 <=? a.2) cb in
  top_categories cb ++ drop 3 sorted ≡ₚ cb /\
  Sorted amount_ge (top_categories cb) /\
  length (top_categories cb) = Nat.min 3 (length cb) /\
  forall x y, x ∈ top_categories cb -> y ∈ drop 3 sorted -> y.2 <= x.2.
Proof.
  intros sorted. unfold top_categories. fold sorted.
  assert (Htot : forall x y : string * Z, (y.2 <=? x.2) = false -> (x.2 <=? y.2) = true)
    by apply amount_before_total.
  assert (Hp : sorted ≡ₚ cb) by exact (sort_by_perm _ cb).
  assert (Hs : StronglySorted amount_ge sorted)
    by exact (amount_before_strongly _ (sort_by_sorted _ Htot cb)).
  rewrite <- (take_drop 3 sorted) in Hs.
  split; [by rewrite take_drop|]. split.
  - apply StronglySorted_Sorted. by apply StronglySorted_app_1_l in Hs.
  - split; [by rewrite length_take, Hp|].
    intros x y Hx Hy. exact (StronglySorted_app_1_elem_of _ _ _ _ _ Hs Hx Hy).
Qed.

(** ** One user's texts *)

Lemma elem_of_limit_offset {A} n k (l : list A) x : x ∈ limit_offset n k l -> x ∈ l.
Proof.
  unfold limit_offset. intros Hx. apply elem_of_take in Hx as (i & Hi & _).
  rewrite lookup_drop in Hi. by eapply list_elem_of_lookup_2.
Qed.

Lemma list_recommendations_rows rdl uid type unread limit offset s rows :
  fst (list_recommendations rdl uid type unread limit offset s) = Ok rows ->
  forall j r, (j, r) ∈ rows -> recommendations s !! j = Some r /\ rec_owned uid r = true.
Proof.
  unfold list_recommendations. intros Hok j r Hin.
  repeat case_match; simplify_eq/=; try discriminate.
  all: apply elem_of_limit_offset in Hin; rewrite (sort_by_perm _ _) in Hin;
    apply list_elem_of_filter in Hin as [Hk Hin]; apply elem_of_map_to_list in Hin;
    simpl in Hk; split; [done|]; destruct (rec_owned uid r); [done|by destruct Hk].
Qed.

Lemma rec_other_row uid id j r :
  rec_owned uid r = false -> by_id_owned (rec_owned uid) id j r = false.
Proof. intros Ho. unfold by_id_owned. by rewrite Ho, andb_false_r. Qed.

(** C35: One user's requests never touch another user's recommendations: PATCH
    read and DELETE leave every row of another user as it was, and GET
    /recommendations lists only the caller's rows. *)
Theorem recommendations_isolated uid id s :
  (forall j r, recommendations s !! j = Some r -> rec_owned uid r = false ->
     recommendations (snd (mark_read uid id s)) !! j = Some r /\
     recommendations (snd (delete_recommendation uid id s)) !! j = Some r) /\
  (forall rdl type unread limit offset rows,
     fst (list_recommendations rdl uid type unread limit offset s) = Ok rows ->
     forall j r, (j, r) ∈ rows -> recommendations s !! j = Some r /\ rec_owned uid r = true).
Proof.
  split; [|intros rdl type unread limit offset rows; apply list_recommendations_rows].
  intros j r Hj Ho. simpl. rewrite lookup_update_where, lookup_delete_where, Hj. simpl.
  by rewrite rec_other_row.
Qed.

(** ** A new text comes first *)

Lemma newest_first_total a b : newest_first a b = false -> newest_first b a = true.
Proof. unfold newest_first. rewrite Z.leb_gt, Z.leb_le. lia. Qed.

Lemma newest_first_strongly l :
  StronglySorted (fun a b => newest_first a b = true) (sort_by newest_first l).
Proof.
  apply Sorted_StronglySorted; [|exact (sort_by_sorted _ newest_first_total l)].
  intros x y z. unfold newest_first. rewrite !Z.leb_le. lia.
Qed.

(** Sorting by decreasing [created_at] puts first a row created after every
    other row that passes the filter, whatever the order of ties. *)
Lemma sort_newest_first (f : nat * recommendation -> bool) m n R :
  ids_below m n -> f (n, R) = true ->
  (forall j r, m !! j = Some r -> f (j, r) = true -> r_created_at r < r_created_at R) ->
  exists rest, sort_by newest_first (filter f (map_to_list (<[n:=R]> m))) = (n, R) :: rest.
Proof.
  intros Hb Hf Hlt. set (l := filter f (map_to_list (<[n:=R]> m))).
  assert (Hin : (n, R) ∈ l).
  { apply list_elem_of_filter. split; [by rewrite Hf|].
    apply elem_of_map_to_list. apply lookup_insert_eq. }
  pose proof (newest_first_strongly l) as Hs.
  pose proof (sort_by_perm newest_first l) as Hp.
  destruct (sort_by newest_first l) as [|y rest] eqn:E.
  { apply Permutation_nil in Hp. rewrite Hp in Hin. by apply not_elem_of_nil in Hin. }
  exists rest. destruct (decide (y = (n, R))) as [->|Hne]; [done|]. exfalso.
  assert (Hy : y ∈ l) by (rewrite <- Hp; left).
  apply list_elem_of_filter in Hy as [Hfy Hy]. destruct y as [j r].
  apply elem_of_map_to_list in Hy.
  assert (Hrest : (n, R) ∈ rest).
  { rewrite <- Hp in Hin. apply elem_of_cons in Hin as [Heq|]; [by rewrite Heq in Hne|done]. }
  apply StronglySorted_inv in Hs as [_ Hall]. rewrite Forall_forall in Hall.
  specialize (Hall _ Hrest). unfold newest_first in Hall. simpl in Hall. apply Z.leb_le in Hall.
  destruct (decide (j = n)) as [->|Hjn].
  - rewrite lookup_insert_eq in Hy. injection Hy as <-. by apply Hne.
  - rewrite lookup_insert_ne in Hy by done.
    assert (r_created_at r < r_created_at R) by (apply (Hlt j r Hy); by destruct (f (j, r))). lia.
Qed.

Lemma generate_financial_ok tz today cm now gen uid s text :
  gen (financial_data tz today cm uid s) = Some text -> fk_user s uid = true ->
  generate_financial_recommendation tz today cm now gen uid s =
  (Ok text, set_recommendations
              (<[next_recommendation s := mkRecommendation uid text Budgeting false now]>
                 (recommendations s)) (S (next_recommendation s)) s).
Proof.
  intros Hgen Hfk. unfold generate_financial_recommendation, advise. rewrite Hgen.
  unfold save_recommendation. by rewrite Hfk.
Qed.

(** C36: A successful POST /ai/recommendations/budgeting stores the generated
    text as an unread budgeting recommendation of the caller, created at the
    time of the request. When every other text of the caller was created in an
    earlier second, the default GET /ai/recommendations lists it first on a
    MySQL server that accepts a DOUBLE LIMIT parameter; on a server that
    refuses one (MySQL 8.0.22 and later) every GET /ai/recommendations fails
    with ER_WRONG_ARGUMENTS, so the stored text is never listed. *)
Theorem generated_text_listed_first tz today cm now gen uid s text :
  ids_below (recommendations s) (next_recommendation s) ->
  gen (financial_data tz today cm uid s) = Some text -> fk_user s uid = true ->
  (forall j r, recommendations s !! j = Some r -> rec_owned uid r = true -> r_created_at r < now) ->
  fst (generate_financial_recommendation tz today cm now gen uid s) = Ok text /\
  recommendations (snd (generate_financial_recommendation tz today cm now gen uid s))
    !! next_recommendation s = Some (mkRecommendation uid text Budgeting false now) /\
  (exists rest,
    fst (list_recommendations false uid None None None None
           (snd (generate_financial_recommendation tz today cm now gen uid s))) =
    Ok ((next_recommendation s, mkRecommendation uid text Budgeting false now) :: rest)) /\
  (forall type unread limit offset,
    fst (list_recommendations true uid type unread limit offset
           (snd (generate_financial_recommendation tz today cm now gen uid s))) =
    Err (DbError WrongArguments)).
Proof.
  intros Hb Hgen Hfk Hold. rewrite (generate_financial_ok tz today cm now gen uid s text Hgen Hfk).
  split; [done|]. split; [apply lookup_insert_eq|]. split; [|done].
  unfold list_recommendations. simpl.
  destruct (sort_newest_first (fun ir => rec_owned uid ir.2 && true && true)
              (recommendations s) (next_recommendation s)
              (mkRecommendation uid text Budgeting false now) Hb) as [rest Hr].
  { unfold rec_owned. simpl. by rewrite Nat.eqb_refl. }
  { intros j r Hj Hf. apply (Hold j r Hj). simpl in Hf. by destruct (rec_owned uid r). }
  exists (take 9 rest). rewrite Hr. reflexivity.
Qed.

(** ** Witnesses *)

(** Two users with one text each, user 1's from second 100 and user 2's
    from second 200. *)
Definition ex_rec1 : recommendation := mkRecommendation 1 "Cook at home" Spending false 100.
Definition ex_rec2 : recommendation := mkRecommendation 2 "Save 10%" Saving false 200.

Definition ex_rec_db : db :=
  set_recommendations {[1%nat := ex_rec1; 2%nat := ex_rec2]} 3
    (set_users {[1%nat := mkUser "ann@example.com" "$2a$12$hash" "Ann" "Lee" true None None;
                 2%nat := mkUser "bob@example.com" "$2a$12$hash" "Bob" "Ng" true None None]} 3
       empty_db).

Definition ex_rows : list spend_row :=
  [mkSpendRow 12000 (mkDate 2024 3 5) "Food"; mkSpendRow 3000 (mkDate 2024 3 1) "Transport";
   mkSpendRow 4500 (mkDate 2024 2 20) "Food"].

Lemma process_financial_data_reference_witness :
  let d := process_financial_data 0 ex_rows [] [] in
  fd_total d = zsum sr_amount ex_rows /\
  NoDup (fd_categories d).*1 /\
  (forall k, k ∈ (fd_categories d).*1 <-> exists e, e ∈ ex_rows /\ sr_category e = k) /\
  (forall k v, (k, v) ∈ fd_categories d -> v = rows_sum sr_category k ex_rows) /\
  NoDup (fd_months d).*1 /\
  (forall k v, (k, v) ∈ fd_months d -> v = rows_sum (fun e => stored_month 0 (sr_date e)) k ex_rows) /\
  zsum snd (fd_categories d) = fd_total d /\ zsum snd (fd_months d) = fd_total d.
Proof. exact (process_financial_data_reference 0 ex_rows [] []). Defined.

Lemma top_categories_correct_witness :
  let cb := [("Food", 16500); ("Transport", 3000); ("Rent", 90000); ("Fun", 500)] in
  let sorted := sort_by (fun a b => b.2 <=? a.2) cb in
  top_categories cb ++ drop 3 sorted ≡ₚ cb /\
  Sorted amount_ge (top_categories cb) /\
  length (top_categories cb) = Nat.min 3 (length cb) /\
  forall x y, x ∈ top_categories cb -> y ∈ drop 3 sorted -> y.2 <= x.2.
Proof. exact (top_categories_correct [("Food", 16500); ("Transport", 3000); ("Rent", 90000); ("Fun", 500)]). Defined.

(** User 1 tries to mark and delete user 2's text: it stays; user 1's list
    holds its own text only. *)
Lemma recommendations_isolated_witness :
  recommendations (snd (mark_read 1 2 ex_rec_db)) !! 2%nat = Some ex_rec2 /\
  recommendations (snd (delete_recommendation 1 2 ex_rec_db)) !! 2%nat = Some ex_rec2 /\
  fst (list_recommendations false 1 None None None None ex_rec_db) = Ok [(1%nat, ex_rec1)] /\
  recommendations ex_rec_db !! 1%nat = Some ex_rec1 /\ rec_owned 1 ex_rec1 = true.
Proof.
  destruct (recommendations_isolated 1 2 ex_rec_db) as [Hmod Hlist].
  destruct (Hmod 2%nat ex_rec2) as [Hm Hd]; [reflexivity|reflexivity|].
  assert (Hl : fst (list_recommendations false 1 None None None None ex_rec_db) = Ok [(1%nat, ex_rec1)])
    by (vm_compute; reflexivity).
  destruct (Hlist false None None None None _ Hl 1%nat ex_rec1) as [H1 H2];
    [by apply list_elem_of_In; left|].
  repeat split; assumption.
Defined.

Lemma ex_rec_db_ids : ids_below (recommendations ex_rec_db) (next_recommendation ex_rec_db).
Proof.
  intros k [v Hk]. simpl in Hk. cbn.
  destruct (decide (k = 1%nat)) as [->|H1]; [lia|]. destruct (decide (k = 2%nat)) as [->|H2]; [lia|].
  rewrite lookup_insert_ne, lookup_singleton_ne in Hk by done. done.
Qed.

(** User 1 asks for advice at second 150: after user 1's text, before user 2's. *)
Lemma generated_text_listed_first_witness :
  fst (generate_financial_recommendation 0 (mkDate 2024 3 20) "2024-03" 150
         (fun _ => Some "Spend less on food") 1 ex_rec_db) = Ok "Spend less on food" /\
  recommendations (snd (generate_financial_recommendation 0 (mkDate 2024 3 20) "2024-03" 150
         (fun _ => Some "Spend less on food") 1 ex_rec_db)) !! 3%nat =
    Some (mkRecommendation 1 "Spend less on food" Budgeting false 150) /\
  (exists rest,
    fst (list_recommendations false 1 None None None None
           (snd (generate_financial_recommendation 0 (mkDate 2024 3 20) "2024-03" 150
                   (fun _ => Some "Spend less on food") 1 ex_rec_db))) =
    Ok ((3%nat, mkRecommendation 1 "Spend less on food" Budgeting false 150) :: rest)) /\
  (forall type unread limit offset,
    fst (list_recommendations true 1 type unread limit offset
           (snd (generate_financial_recommendation 0 (mkDate 2024 3 20) "2024-03" 150
                   (fun _ => Some "Spend less on food") 1 ex_rec_db))) =
    Err (DbError WrongArguments)).
Proof.
  apply (generated_text_listed_first 0 (mkDate 2024 3 20) "2024-03" 150
           (fun _ => Some "Spend less on food") 1 ex_rec_db "Spend less on food").
  - apply ex_rec_db_ids.
  - reflexivity.
  - vm_compute. reflexivity.
  - intros j r Hj Ho. destruct (decide (j = 1%nat)) as [->|H1].
    + injection Hj as <-. vm_compute. reflexivity.
    + destruct (decide (j = 2%nat)) as [->|H2].
      * injection Hj as <-. discriminate.
      * cbn in Hj. rewrite lookup_insert_ne, lookup_singleton_ne in Hj by done. discriminate.
Defined.
