(* ===== verification/Reads.v ===== *)
(** * Well-formed rows, and the routes that only read

    The rows the handlers store are well formed: every foreign key names an
    existing user or category, and no amount, limit, target or saved amount
    is negative.  (Validation asks for positive numbers, but Joi's
    [positive()] accepts 0.001, which a DECIMAL(.,2) column stores as 0.00:
    only non-negativity is kept by the program.  The model counts whole
    cents, so its requests are the ones with at most two decimals.)  [app_step] is every handler of the
    program that writes (the expense, budget, goal, account and advice
    routes), and [db_wf_preserved] shows that no sequence of them stores an
    ill-formed row.  Users and categories are never deleted, so a foreign
    key stays valid once checked.

    The read routes (GET /expenses with its filters and page, GET /budgets,
    GET /budgets/:id, GET /budgets/overview/current, GET
    /budgets/missing/:monthYear, GET /goals, GET /goals/:id, GET
    /goals/stats/summary) are queries over the tables; with well-formed rows
    their [JOIN categories] drops no row. *)

From stdpp Require Import sorting.
From S2P Require Import Spec2Rocq Dates Query Store Expenses Budgets Ledger Reconciler Goals Auth Advice.

(** ** Well-formed rows *)

Definition has_user (s : db) (u : nat) : Prop := is_Some (users s !! u).
Definition has_category (s : db) (c : nat) : Prop := is_Some (categories s !! c).

Definition expense_wf (s : db) (e : expense) : Prop :=
  has_user s (e_user e) /\ has_category s (e_category e) /\ 0 <= e_amount e.

Definition budget_wf (s : db) (b : budget) : Prop :=
  has_user s (b_user b) /\ has_category s (b_category b) /\ 0 <= b_limit b.

Definition goal_wf (s : db) (g : goal) : Prop :=
  has_user s (g_user g) /\ 0 <= g_target g /\ 0 <= g_current g.

Definition rec_wf (s : db) (r : recommendation) : Prop := has_user s (r_user r).

Definition db_wf (s : db) : Prop :=
  map_Forall (fun _ e => expense_wf s e) (expenses s) /\
  map_Forall (fun _ b => budget_wf s b) (budgets s) /\
  map_Forall (fun _ g => goal_wf s g) (goals s) /\
  map_Forall (fun _ r => rec_wf s r) (recommendations s).

(** Every handler that writes. *)
Inductive app_step (tz : Z) (today : date) (cur_month : string)
    (gen : fin_data -> option string) (gen_goal : fin_data -> option goal -> option string)
    : db -> db -> Prop :=
  | app_ledger s s' : ledger_step tz s s' -> app_step tz today cur_month gen gen_goal s s'
  | app_update_budget uid id r s :
      app_step tz today cur_month gen gen_goal s (snd (update_budget uid id r s))
  | app_goal s s' : goal_step s s' -> app_step tz today cur_month gen gen_goal s s'
  | app_auth s s' : auth_step s s' -> app_step tz today cur_month gen gen_goal s s'
  | app_recommend now uid s :
      app_step tz today cur_month gen gen_goal s
        (snd (generate_financial_recommendation tz today cur_month now gen uid s))
  | app_insights now uid s :
      app_step tz today cur_month gen gen_goal s
        (snd (generate_spending_insights tz today cur_month now gen uid s))
  | app_goal_advice now uid gid s :
      app_step tz today cur_month gen gen_goal s
        (snd (post_goal_advice tz today cur_month now gen_goal uid gid s))
  | app_mark_read uid id s : app_step tz today cur_month gen gen_goal s (snd (mark_read uid id s))
  | app_delete_rec uid id s :
      app_step tz today cur_month gen gen_goal s (snd (delete_recommendation uid id s)).

(** ** Handlers that keep an invariant

    [se_keeps I c]: from a state satisfying [I], the handler [c] ends, by
    success or by error, in a state satisfying [I].  The lemmas below follow
    the way handlers are composed, so that a handler's proof walks its code. *)

Section Keeps.
Context (I : db -> Prop).

Definition se_keeps {A} (c : Handler A) : Prop := forall s, I s -> I (snd (c s)).

Lemma keeps_ret {A} (a : A) : se_keeps (se_ret a).
Proof. by intros s. Qed.

Lemma keeps_fail {A} e : se_keeps (A:=A) (se_fail e).
Proof. by intros s. Qed.

Lemma keeps_guard b e : se_keeps (se_guard b e).
Proof. intros s. by destruct b. Qed.

Lemma keeps_bind {A B} (c : Handler A) (k : A -> Handler B) :
  se_keeps c -> (forall a, se_keeps (k a)) -> se_keeps (se_bind c k).
Proof.
  intros Hc Hk s Hs. unfold se_bind. specialize (Hc s Hs).
  destruct (c s) as [[a|e] s']; [by apply Hk|done].
Qed.

(** The continuation of a guard runs only when the guard holds. *)
Lemma keeps_bind_guard {B} b e (k : Handler B) :
  (b = true -> se_keeps k) -> se_keeps (se_guard b e ;;; k).
Proof. intros Hk s Hs. destruct b; [by apply Hk|done]. Qed.

(** A statement that only reads: the continuation may use what it read. *)
Lemma keeps_bind_read {A B} (c : Handler A) (k : A -> Handler B) :
  (forall s, snd (c s) = s) ->
  (forall s a, I s -> fst (c s) = Ok a -> I (snd (k a s))) -> se_keeps (se_bind c k).
Proof.
  intros Hr Hk s Hs. unfold se_bind. specialize (Hr s). specialize (Hk s).
  destruct (c s) as [[a|e] s']; simpl in *; subst; [by apply Hk|done].
Qed.

Lemma keeps_bind_param {A B} (o : option A) (k : A -> Handler B) :
  (forall a, o = Some a -> se_keeps (k a)) -> se_keeps (se_bind (bind_param o) k).
Proof. intros Hk s Hs. destruct o as [a|]; [by apply Hk|done]. Qed.
End Keeps.

(** [keeps] walks a handler: guards, parameters and binds. *)
Ltac keeps :=
  repeat match goal with
  | |- se_keeps _ (se_bind (se_guard _ _) _) => apply keeps_bind_guard; intro
  | |- se_keeps _ (se_bind (bind_param _) _) => apply keeps_bind_param; intros ? ?
  | |- se_keeps _ (se_ret _) => apply keeps_ret
  | |- se_keeps _ (se_fail _) => apply keeps_fail
  | |- se_keeps _ (se_guard _ _) => apply keeps_guard
  | |- se_keeps _ (match ?x with _ => _ end) => destruct x
  | |- se_keeps _ (se_bind _ _) => apply keeps_bind; [|intro]
  end.

(** ** The statements keep the rows well formed *)

Lemma count_where_hit {V} P (m : gmap nat V) k v :
  m !! k = Some v -> P k v = true -> (0 < count_where P m)%nat.
Proof.
  intros Hk HP. destruct (count_where P m) eqn:E; [|lia].
  by rewrite (count_where_zero P m E k v Hk) in HP.
Qed.

(** An UPDATE keeps a property of the rows it matches. *)
Lemma map_Forall_update_on {V} (Q : V -> Prop) P f (m : gmap nat V) :
  (forall k v, m !! k = Some v -> P k v = true -> Q v -> Q (f v)) ->
  map_Forall (fun _ v => Q v) m -> map_Forall (fun _ v => Q v) (update_where P f m).
Proof.
  intros Hf Hm k v Hk. rewrite lookup_update_where in Hk.
  destruct (m !! k) as [w|] eqn:E; [|done]. simpl in Hk. injection Hk as <-.
  destruct (P k w) eqn:HP; [apply (Hf k)|]; eauto.
Qed.

Lemma fk_user_true s u : fk_user s u = true -> has_user s u.
Proof. unfold fk_user. by rewrite bool_decide_eq_true. Qed.

Lemma fk_category_true s c : fk_category s c = true -> has_category s c.
Proof. unfold fk_category. by rewrite bool_decide_eq_true. Qed.

Ltac wf_split :=
  unfold db_wf, expense_wf, budget_wf, goal_wf, rec_wf, has_user, has_category in *; simpl in *.

Lemma keeps_insert_expense e : 0 <= e_amount e -> se_keeps db_wf (sql_insert_expense e).
Proof.
  intros Ha s Hs. unfold sql_insert_expense.
  destruct (fk_user s _) eqn:Hu, (fk_category s _) eqn:Hc; simpl; try done.
  apply fk_user_true in Hu. apply fk_category_true in Hc. wf_split.
  destruct Hs as (He & Hrest). split; [|done]. by apply map_Forall_insert_2.
Qed.

Lemma keeps_update_expense id uid cat amt desc d :
  0 <= amt -> se_keeps db_wf (sql_update_expense id uid cat amt desc d).
Proof.
  intros Ha s Hs. unfold sql_update_expense. simpl.
  destruct (0 <? count_where _ _)%nat eqn:Hn, (fk_category s cat) eqn:Hc; simpl; try done.
  - apply fk_category_true in Hc. wf_split. destruct Hs as (He & Hrest). split; [|done].
    apply map_Forall_update_on; [|done]. intros k v _ _ (? & ? & ?). simpl. tauto.
  - wf_split. destruct Hs as (He & Hrest). split; [|done].
    apply map_Forall_update_on; [|done]. intros k v Hk HP.
    pose proof (count_where_hit _ _ _ _ Hk HP). apply Nat.ltb_ge in Hn. lia.
  - wf_split. destruct Hs as (He & Hrest). split; [|done].
    apply map_Forall_update_on; [|done]. intros k v Hk HP.
    pose proof (count_where_hit _ _ _ _ Hk HP). apply Nat.ltb_ge in Hn. lia.
Qed.

Lemma keeps_delete_expense id uid : se_keeps db_wf (sql_delete_expense id uid).
Proof.
  intros s Hs. wf_split. destruct Hs as (He & Hrest). split; [|done].
  by apply map_Forall_delete_where.
Qed.

Lemma keeps_adjust_budget uid cat mk delta : se_keeps db_wf (sql_adjust_budget uid cat mk delta).
Proof.
  intros s Hs. wf_split. destruct Hs as (He & Hb & Hrest). split; [done|split; [|done]].
  by apply map_Forall_update_on.
Qed.

Lemma keeps_upsert_budget b : 0 <= b_limit b -> se_keeps db_wf (sql_upsert_budget b).
Proof.
  intros Hl s Hs. unfold sql_upsert_budget.
  destruct (0 <? count_where _ _)%nat; simpl.
  - wf_split. destruct Hs as (He & Hb & Hrest). split; [done|split; [|done]].
    apply map_Forall_update_on; [|done]. intros k v _ _ (? & ? & ?). simpl. tauto.
  - destruct (fk_user s _) eqn:Hu, (fk_category s _) eqn:Hc; simpl; try done.
    apply fk_user_true in Hu. apply fk_category_true in Hc. wf_split.
    destruct Hs as (He & Hb & Hrest). split; [done|split; [|done]].
    by apply map_Forall_insert_2.
Qed.

Lemma keeps_update_budget id uid cat l mk :
  0 <= l -> se_keeps db_wf (sql_update_budget id uid cat l mk).
Proof.
  intros Hl s Hs. unfold sql_update_budget. simpl.
  assert (Hupd : (0 < count_where (by_id_owned (budget_owned uid) id) (budgets s) ->
                  has_category s cat)%nat ->
    db_wf (set_budgets (update_where (by_id_owned (budget_owned uid) id)
      (set_budget_fields cat l mk) (budgets s)) (next_budget s) s)).
  { intros Hc. wf_split. destruct Hs as (He & Hb & Hrest). split; [done|split; [|done]].
    apply map_Forall_update_on; [|done]. intros k v Hk HP (? & ? & ?).
    pose proof (count_where_hit _ _ _ _ Hk HP). simpl. split; [done|split; [by apply Hc|done]]. }
  destruct (0 <? count_where _ _)%nat eqn:Hn, (fk_category s cat) eqn:Hc; simpl; try done.
  - destruct (0 <? count_where (fun k b => negb (k =? id)%nat && _) _)%nat; simpl; [done|].
    apply Hupd. intros _. by apply fk_category_true.
  - apply Hupd. apply Nat.ltb_ge in Hn. lia.
  - apply Hupd. apply Nat.ltb_ge in Hn. lia.
Qed.

Lemma keeps_delete_budget id uid : se_keeps db_wf (sql_delete_budget id uid).
Proof.
  intros s Hs. wf_split. destruct Hs as (He & Hb & Hrest). split; [done|split; [|done]].
  by apply map_Forall_delete_where.
Qed.

Lemma keeps_reader {A} I (c : Handler A) : (forall s, snd (c s) = s) -> se_keeps I c.
Proof. intros Hr s Hs. by rewrite Hr. Qed.

(** The statements whose preservation needs no fact of the request. *)
Ltac keeps_stmt :=
  first [ apply keeps_reader; reflexivity | apply keeps_delete_expense
        | apply keeps_adjust_budget | apply keeps_delete_budget ].

Ltac req_facts :=
  unfold validate_expense, validate_budget, validate_goal in *; bool_to_prop; simpl.

(** ** The handlers keep the rows well formed *)

Lemma create_expense_keeps uid r : se_keeps db_wf (create_expense uid r).
Proof.
  unfold create_expense. keeps; try keeps_stmt.
  apply keeps_insert_expense. req_facts. lia.
Qed.

Lemma update_expense_keeps tz uid id r : se_keeps db_wf (update_expense tz uid id r).
Proof.
  unfold update_expense, rebalance_budgets. keeps; try keeps_stmt.
  apply keeps_update_expense. req_facts. lia.
Qed.

Lemma delete_expense_keeps tz uid id : se_keeps db_wf (delete_expense tz uid id).
Proof. unfold delete_expense. keeps; keeps_stmt. Qed.

Lemma create_budget_keeps uid r : se_keeps db_wf (create_budget uid r).
Proof.
  unfold create_budget. keeps; try keeps_stmt.
  apply keeps_upsert_budget. req_facts. lia.
Qed.

Lemma update_budget_keeps uid id r : se_keeps db_wf (update_budget uid id r).
Proof.
  unfold update_budget. keeps; try keeps_stmt.
  apply keeps_update_budget. req_facts. lia.
Qed.

Lemma delete_budget_keeps uid id : se_keeps db_wf (delete_budget uid id).
Proof. unfold delete_budget. keeps; keeps_stmt. Qed.

Lemma ledger_step_keeps tz s s' : db_wf s -> ledger_step tz s s' -> db_wf s'.
Proof.
  intros Hs Hst; destruct Hst; [exact (create_expense_keeps _ _ _ Hs) | exact (update_expense_keeps _ _ _ _ _ Hs)
    | exact (delete_expense_keeps _ _ _ _ Hs) | exact (create_budget_keeps _ _ _ Hs)
    | exact (delete_budget_keeps _ _ _ Hs)].
Qed.

Lemma create_goal_keeps uid r : se_keeps db_wf (create_goal uid r).
Proof.
  unfold create_goal. keeps. intros s Hs. simpl.
  destruct (fk_user s uid) eqn:Hu; [|done]. apply fk_user_true in Hu.
  req_facts. wf_split. destruct Hs as (He & Hb & Hg & Hr). do 2 (split; [done|]).
  split; [|done]. apply map_Forall_insert_2; [|done]. simpl.
  repeat split; [done|lia|]. destruct (gq_current r); simpl in *; bool_to_prop; lia.
Qed.

Lemma update_goal_keeps uid id r : se_keeps db_wf (update_goal uid id r).
Proof.
  unfold update_goal, status_param. keeps. intros s Hs. simpl.
  req_facts. match goal with Hc : gq_current _ = Some _ |- _ => rewrite Hc in *; clear Hc end.
  bool_to_prop. wf_split. destruct Hs as (He & Hb & Hg & Hr). do 2 (split; [done|]).
  split; [|done]. apply map_Forall_update_on; [|done].
  intros k v _ _ (? & ? & ?). simpl. subst. repeat split; [done|lia|lia].
Qed.

Lemma update_progress_keeps uid id amount : se_keeps db_wf (update_progress uid id amount).
Proof.
  unfold update_progress. apply keeps_bind_guard. intros Ha. apply keeps_bind_read; [done|].
  intros s rd Hs [= <-]. destruct amount as [a|]; [|done]. bool_to_prop.
  destruct (select_owned (goal_owned uid) id (goals s)) as [g|] eqn:Hsel; [|done]. simpl.
  apply select_owned_Some in Hsel as [Hg _].
  wf_split. destruct Hs as (He & Hb & Hgs & Hr).
  assert (0 <= g_current g) by apply (Hgs id g Hg). do 2 (split; [done|]). split; [|done].
  apply map_Forall_update_on; [|done]. intros k v _ _ (? & ? & ?). simpl.
  repeat split; [done|done|lia].
Qed.

Lemma delete_goal_keeps uid id : se_keeps db_wf (delete_goal uid id).
Proof.
  intros s Hs. wf_split. destruct Hs as (He & Hb & Hg & Hr). do 2 (split; [done|]).
  split; [|done]. by apply map_Forall_delete_where.
Qed.

Lemma goal_step_keeps s s' : db_wf s -> goal_step s s' -> db_wf s'.
Proof.
  intros Hs Hst; destruct Hst; [exact (create_goal_keeps _ _ _ Hs) | exact (update_goal_keeps _ _ _ _ Hs)
    | exact (update_progress_keeps _ _ _ _ Hs) | exact (delete_goal_keeps _ _ _ Hs)].
Qed.

(** The account handlers write only the users table, and never delete a
    user, so every foreign key stays valid. *)
Lemma db_wf_set_users t n s :
  (forall i, has_user s i -> is_Some (t !! i)) -> db_wf s -> db_wf (set_users t n s).
Proof.
  intros Ht (He & Hb & Hg & Hr). unfold set_users. wf_split.
  split; [|split; [|split]]; eapply map_Forall_impl; eauto; simpl; naive_solver.
Qed.

Lemma keeps_update_user e f : se_keeps db_wf (update_user e f).
Proof.
  intros s Hs. apply db_wf_set_users; [|done]. intros i [u Hu].
  rewrite lookup_update_where, Hu. by eexists.
Qed.

Lemma keeps_check_otp now otp u : se_keeps db_wf (check_otp now otp u).
Proof. unfold check_otp. keeps. Qed.

Ltac keeps_auth :=
  keeps; try keeps_stmt;
  try apply keeps_update_user; try apply keeps_check_otp;
  try (unfold send_mail; apply keeps_guard).

Lemma register_keeps k now ok r : se_keeps db_wf (register k now ok r).
Proof.
  unfold register. keeps_auth. intros s Hs. simpl. apply db_wf_set_users; [|done].
  intros i Hi. destruct (decide (i = next_user s)) as [->|Hne];
    [by rewrite lookup_insert_eq | by rewrite lookup_insert_ne].
Qed.

Lemma auth_step_keeps s s' : db_wf s -> auth_step s s' -> db_wf s'.
Proof.
  intros Hs Hst. destruct Hst; [exact (register_keeps _ _ _ _ _ Hs)|..];
    lazymatch goal with |- db_wf (snd (?c s)) => enough (Hk : se_keeps db_wf c) by exact (Hk s Hs) end.
  - unfold verify_otp. keeps_auth.
  - unfold login. keeps_auth.
  - unfold resend_otp. keeps_auth.
  - unfold request_password_reset. keeps_auth.
  - unfold reset_password. keeps_auth.
Qed.

(** The advice handlers insert a recommendation of an existing user, flag
    one as read, or delete one. *)
Lemma keeps_save_recommendation now uid text t : se_keeps db_wf (save_recommendation now uid text t).
Proof.
  intros s Hs. unfold save_recommendation. destruct (fk_user s uid) eqn:Hu; [|done].
  apply fk_user_true in Hu. wf_split. destruct Hs as (He & Hb & Hg & Hr).
  do 3 (split; [done|]). by apply map_Forall_insert_2.
Qed.

Lemma keeps_advise now reply uid t msg : se_keeps db_wf (advise now reply uid t msg).
Proof.
  intros s Hs. unfold advise. destruct reply as [text|]; [|done].
  pose proof (keeps_save_recommendation now uid text t s Hs).
  by destruct (save_recommendation now uid text t s) as [[]].
Qed.

Lemma keeps_mark_read uid id : se_keeps db_wf (mark_read uid id).
Proof.
  intros s Hs. wf_split. destruct Hs as (He & Hb & Hg & Hr). do 3 (split; [done|]).
  by apply map_Forall_update_on.
Qed.

Lemma keeps_delete_recommendation uid id : se_keeps db_wf (delete_recommendation uid id).
Proof.
  intros s Hs. wf_split. destruct Hs as (He & Hb & Hg & Hr). do 3 (split; [done|]).
  by apply map_Forall_delete_where.
Qed.

Lemma app_step_keeps tz today cm gen gen_goal s s' :
  db_wf s -> app_step tz today cm gen gen_goal s s' -> db_wf s'.
Proof.
  intros Hs Hst. destruct Hst.
  - by eapply ledger_step_keeps.
  - exact (update_budget_keeps _ _ _ _ Hs).
  - by eapply goal_step_keeps.
  - by eapply auth_step_keeps.
  - exact (keeps_advise _ _ _ _ _ _ Hs).
  - exact (keeps_advise _ _ _ _ _ _ Hs).
  - unfold post_goal_advice. destruct (parse_int gid) as [g|]; [|done].
    case_match; [|done]. exact (keeps_advise _ _ _ _ _ _ Hs).
  - exact (keeps_mark_read _ _ _ Hs).
  - exact (keeps_delete_recommendation _ _ _ Hs).
Qed.

(** C7: Every sequence of writing handlers (expenses, budgets, goals,
    accounts, recommendations), from well-formed rows, stores only well-formed
    rows: every expense, budget, goal and recommendation names an existing
    user (and category), and no amount, monthly limit, target or saved amount
    is ever negative. *)
Theorem db_wf_preserved tz today cm gen gen_goal s s' :
  db_wf s -> star (app_step tz today cm gen gen_goal) s s' -> db_wf s'.
Proof.
  intros Hs Hstar.
  exact (star_invariant _ db_wf (app_step_keeps tz today cm gen gen_goal) s s' Hstar Hs).
Qed.

(** ** GET /expenses (routes/expenses.ts:10-65)

    A query-string date passes [if (startDate)] when it is not empty and the
    [!isNaN(Date.parse(..))] check when [date_param] reads it: [date_param v]
    is the calendar date MySQL compares [e.expense_date] with.  [categoryId]
    goes through [parseInt]; a NaN skips the filter.  [ORDER BY
    e.expense_date DESC, e.created_at DESC] is newest date first, then the
    later insert (the larger id) first.  [LIMIT] and [OFFSET] are the clamped
    values printed into the SQL, which MySQL reads back unchanged
    ([Query.limit_literal_roundtrip]). *)

Definition opt_test {A} (o : option A) (t : A -> bool) : bool :=
  match o with Some a => t a | None => true end.

Definition expense_matches (date_param : string -> option date)
    (start_date end_date category_id : option string) (uid : nat) (e : expense) : bool :=
  (e_user e =? uid)%nat &&
  opt_test (truthy start_date ≫= date_param) (fun d => date_leb d (e_date e)) &&
  opt_test (truthy end_date ≫= date_param) (fun d => date_leb (e_date e) d) &&
  opt_test (truthy category_id ≫= parse_int) (fun c => Z.of_nat (e_category e) =? c).

(** [SELECT e.*, c.name, c.color, c.icon FROM expenses e JOIN categories c ON
    e.category_id = c.id WHERE ...]. *)
Definition expense_join (keep : expense -> bool) (s : db) : list (nat * expense * category) :=
  omap (fun ie : nat * expense =>
          if keep ie.2 then (fun c => (ie.1, ie.2, c)) <$> categories s !! e_category ie.2
          else None) (map_to_list (expenses s)).

Definition expense_newer (a b : nat * expense * category) : bool :=
  let '(i, e, _) := a in
  let '(j, f, _) := b in
  if date_leb (e_date e) (e_date f) && date_leb (e_date f) (e_date e) then (j <=? i)%nat
  else date_leb (e_date f) (e_date e).

Definition list_expenses (date_param : string -> option date) (uid : nat)
    (start_date end_date category_id limit offset : option string)
    : Handler (list (nat * expense * category)) := fun s =>
  let rows := expense_join (expense_matches date_param start_date end_date category_id uid) s in
  (Ok (limit_offset (expense_limit (default "50" limit)) (expense_offset (default "0" offset))
                    (sort_by expense_newer rows)), s).

(** ** GET /expenses/stats/summary (routes/expenses.ts:213-257) *)

(** [DATE_SUB(CURDATE(), INTERVAL ..)] for the [period] query value
    (default 'month'); another value sets no date filter. *)
Definition period_start (today : date) (period : option string) : option date :=
  let p := default "month" period in
  if String.eqb p "week" then Some (Nat.iter 7 prev_day today)
  else if String.eqb p "month" then Some (date_sub_months today 1)
  else if String.eqb p "year" then Some (date_sub_months today 12)
  else None.

(** MySQL's exact division of DECIMAL values: the quotient [a / b] with
    [scale] more decimal digits, rounded half away from zero ([b > 0]). *)
Definition decimal_div (a b scale : Z) : Z :=
  let n := Z.abs a * 10 ^ scale in
  let q := n / b + (if b <=? 2 * (n mod b) then 1 else 0) in
  if a <? 0 then - q else q.

Record expense_totals := mkExpenseTotals {
  total_expenses : nat;
  total_amount : Z;
  average_amount : Z   (* [AVG(amount)]: cents with 4 more digits *)
}.

(** A row of the breakdown: [c.name, c.color, COUNT(e.id), SUM(e.amount)]. *)
Record category_total := mkCategoryTotal {
  ct_name : string; ct_color : string; ct_count : nat; ct_total : Z
}.

Definition expense_stats (today : date) (uid : nat) (period : option string) (s : db)
    : expense_totals * list category_total :=
  let keep e := (e_user e =? uid)%nat &&
                opt_test (period_start today period) (fun d => date_leb d (e_date e)) in
  let rows := filter (fun ie : nat * expense => keep ie.2) (map_to_list (expenses s)) in
  let n := length rows in
  let sum := zsum (fun ie : nat * expense => e_amount ie.2) rows in
  let totals := mkExpenseTotals n sum (if (n =? 0)%nat then 0 else decimal_div sum (Z.of_nat n) 4) in
  (* GROUP BY c.id: one row per category that has a kept expense *)
  let group (ic : nat * category) :=
    let es := filter (fun ie : nat * expense => (e_category ie.2 =? ic.1)%nat) rows in
    if (length es =? 0)%nat then None
    else Some (mkCategoryTotal (c_name ic.2) (c_color ic.2) (length es)
                               (zsum (fun ie : nat * expense => e_amount ie.2) es)) in
  (totals, sort_by (fun a b => ct_total b <=? ct_total a) (omap group (map_to_list (categories s)))).

(** ** GET /categories (routes/categories.ts:7-14)

    The same [SELECT * FROM categories ORDER BY name] as GET /ai/categories. *)
Definition get_categories (s : db) : list (nat * category) := list_categories s.

(** ** The budget reads (routes/budgets.ts) *)

Definition budget_join (keep : budget -> bool) (s : db) : list (nat * budget * category) :=
  omap (fun ib : nat * budget =>
          if keep ib.2 then (fun c => (ib.1, ib.2, c)) <$> categories s !! b_category ib.2
          else None) (map_to_list (budgets s)).

(** [ORDER BY b.month_year DESC, c.name ASC]. *)
Definition budget_before (a b : nat * budget * category) : bool :=
  let '(_, x, c) := a in
  let '(_, y, d) := b in
  if String.eqb (b_month x) (b_month y) then String.leb (c_name c) (c_name d)
  else String.leb (b_month y) (b_month x).

(** GET / (lines 10-35): the optional [monthYear] filter. *)
Definition list_budgets (uid : nat) (month_year : option string) (s : db)
    : list (nat * budget * category) :=
  sort_by budget_before
    (budget_join (fun b => (b_user b =? uid)%nat &&
                           opt_test (truthy month_year) (fun m => String.eqb (b_month b) m)) s).

(** GET /:id (lines 38-59). *)
Definition get_budget (uid id : nat) : Handler (budget * category) := fun s =>
  match filter (fun r : nat * budget * category => (r.1.1 =? id)%nat)
               (budget_join (fun b => (b_user b =? uid)%nat) s) with
  | (_, b, c) :: _ => (Ok (b, c), s)
  | [] => (Err NotFound, s)
  end.

(** A row of GET /overview/current: the budget, its category, the
    [usage_percentage] (percent with 6 decimals, as the DECIMAL division
    [current_spent / monthly_limit] gives it, times 100) and the
    [remaining_amount]. *)
Definition usage_percentage (b : budget) : Z :=
  if 0 <? b_limit b then decimal_div (b_spent b) (b_limit b) 6 * 100 else 0.

Record budget_summary := mkBudgetSummary {
  total_budgets : nat;
  total_budget : Z;
  total_spent : Z;
  total_remaining : Z;
  exceeded_budgets : nat
}.

Definition month_rows (uid : nat) (mk : string) (s : db) : list budget :=
  filter (fun b => (b_user b =? uid)%nat && String.eqb (b_month b) mk)
         (snd <$> map_to_list (budgets s)).

Definition summarize (bs : list budget) : budget_summary :=
  mkBudgetSummary (length bs) (zsum b_limit bs) (zsum b_spent bs)
                  (zsum (fun b => b_limit b - b_spent b) bs)
                  (length (filter (fun b => b_limit b <? b_spent b) bs)).

(** GET /overview/current (lines 133-174); [cur_month] is
    [new Date().toISOString().slice(0, 7)]. *)
Definition budget_overview (cur_month : string) (uid : nat) (s : db)
    : list (nat * budget * category * Z * Z) * budget_summary :=
  let rows := budget_join (fun b => (b_user b =? uid)%nat && String.eqb (b_month b) cur_month) s in
  let rows' := (fun r : nat * budget * category =>
                  (r, usage_percentage r.1.2, b_limit r.1.2 - b_spent r.1.2)) <$> rows in
  (sort_by (fun x y : nat * budget * category * Z * Z => y.1.2 <=? x.1.2) rows',
   summarize (month_rows uid cur_month s)).

(** GET /missing/:monthYear (lines 177-197): the categories with no budget
    of the user for the month, by name. *)
Definition missing_categories (uid : nat) (mk : string) (s : db) : list (nat * category) :=
  let used := b_category <$> month_rows uid mk s in
  sort_by (fun a b => String.leb (c_name a.2) (c_name b.2))
          (filter (fun ic : nat * category => negb (bool_decide (ic.1 ∈ used)))
                  (map_to_list (categories s))).

(** ** The goal reads (routes/goals.ts) *)

(** GET / (lines 10-30): the optional [status] filter compares the ENUM
    column with the string; [ORDER BY created_at DESC] is the larger id
    first. *)
Definition list_goals (uid : nat) (status : option string) (s : db) : list (nat * goal) :=
  sort_by (fun a b => (b.1 <=? a.1)%nat)
    (filter (fun ig : nat * goal =>
               (g_user ig.2 =? uid)%nat &&
               opt_test (truthy status)
                 (fun st => bool_decide (goal_status_of_string st = Some (g_status ig.2))))
            (map_to_list (goals s))).

(** GET /:id (lines 33-51). *)
Definition get_goal (uid id : nat) : Handler goal := fun s =>
  match select_owned (goal_owned uid) id (goals s) with
  | Some g => (Ok g, s)
  | None => (Err NotFound, s)
  end.

Record goal_summary := mkGoalSummary {
  total_goals : nat;
  active_count : nat;
  completed_count : nat;
  paused_count : nat;
  total_target_amount : Z;
  total_current_amount : Z
}.

(** GET /stats/summary (lines 163-194): the counts and sums, and the five
    nearest deadlines of active goals from [today] on. *)
Definition goal_stats (today : date) (uid : nat) (s : db) : goal_summary * list goal :=
  let gs := filter (fun g => (g_user g =? uid)%nat) (snd <$> map_to_list (goals s)) in
  let count st := length (filter (fun g => bool_decide (g_status g = st)) gs) in
  let due g := match g_target_date g with Some d => date_leb today d | None => false end in
  let upcoming := filter (fun g => bool_decide (g_status g = Active) && due g) gs in
  (mkGoalSummary (length gs) (count Active) (count Completed) (count Paused)
                 (zsum g_target gs) (zsum g_current gs),
   take 5 (sort_by (fun a b => match g_target_date a, g_target_date b with
                               | Some x, Some y => date_leb x y
                               | _, _ => true
                               end) upcoming)).

(** ** Well-formedness is decidable *)

#[export] Instance db_wf_dec s : Decision (db_wf s).
Proof. unfold db_wf, expense_wf, budget_wf, goal_wf, rec_wf, has_user, has_category. apply _. Defined.

(** ** The joins drop no row of well-formed tables *)

Lemma omap_length_filter {A B} (f : A -> option B) (P : A -> bool) l :
  (forall x, x ∈ l -> P x = true -> is_Some (f x)) -> (forall x, P x = false -> f x = None) ->
  length (omap f l) = length (filter (fun x => P x = true) l).
Proof.
  induction l as [|x l IH]; intros Hs Hn; [done|]. rewrite filter_cons.
  change (omap f (x :: l)) with (match f x with Some y => y :: omap f l | None => omap f l end).
  assert (IH' : length (omap f l) = length (filter (fun x => P x = true) l))
    by (apply IH; [set_solver|done]).
  destruct (P x) eqn:E.
  - destruct (Hs x ltac:(set_solver) E) as [y ->]. rewrite decide_True by done. simpl. lia.
  - rewrite (Hn x E), decide_False by done. done.
Qed.

Lemma budget_join_length keep s :
  db_wf s ->
  length (budget_join keep s) =
  length (filter (fun ib : nat * budget => keep ib.2 = true) (map_to_list (budgets s))).
Proof.
  intros (_ & Hb & _). unfold budget_join.
  apply (omap_length_filter _ (fun ib : nat * budget => keep ib.2)).
  - intros [i b] Hi Hk. simpl in *. rewrite Hk.
    apply elem_of_map_to_list in Hi. destruct (Hb i b Hi) as (_ & [c ->] & _). by eexists.
  - intros [i b] Hk. simpl in *. by rewrite Hk.
Qed.

Lemma expense_join_length keep s :
  db_wf s ->
  length (expense_join keep s) =
  length (filter (fun ie : nat * expense => keep ie.2 = true) (map_to_list (expenses s))).
Proof.
  intros (He & _). unfold expense_join.
  apply (omap_length_filter _ (fun ie : nat * expense => keep ie.2)).
  - intros [i e] Hi Hk. simpl in *. rewrite Hk.
    apply elem_of_map_to_list in Hi. destruct (He i e Hi) as (_ & [c ->] & _). by eexists.
  - intros [i e] Hk. simpl in *. by rewrite Hk.
Qed.

Lemma filter_snd_length {V} (P : V -> bool) (m : gmap nat V) :
  length (filter (fun kv : nat * V => P kv.2 = true) (map_to_list m)) =
  length (filter P (snd <$> map_to_list m)).
Proof.
  induction (map_to_list m) as [|[k v] l IH]; [done|]. rewrite fmap_cons, !filter_cons. simpl.
  destruct (P v); simpl; by rewrite IH.
Qed.

Lemma elem_of_budget_join keep s i b c :
  (i, b, c) ∈ budget_join keep s <->
  budgets s !! i = Some b /\ keep b = true /\ categories s !! b_category b = Some c.
Proof.
  unfold budget_join. rewrite list_elem_of_omap. split.
  - intros ([i' b'] & Hin & Hf). apply elem_of_map_to_list in Hin. simpl in Hf.
    destruct (keep b') eqn:Hk; [|done].
    destruct (categories s !! b_category b') eqn:Hc; simplify_eq/=. done.
  - intros (Hi & Hk & Hc). exists (i, b). split; [by apply elem_of_map_to_list|].
    simpl. by rewrite Hk, Hc.
Qed.

Lemma filter_ext_in {A} (f g : A -> bool) (l : list A) :
  (forall x, x ∈ l -> f x = g x) -> filter f l = filter g l.
Proof.
  induction l as [|x l IH]; intros Hfg; [done|]. rewrite !filter_cons.
  rewrite (Hfg x (list_elem_of_here x l)), IH; [done|]. intros y Hy. apply Hfg. by right.
Qed.

Lemma sorted_leb {A} (key : A -> Z) (l : list A) :
  Sorted (fun x y => (key y <=? key x) = true) l -> Sorted (fun x y => key y <= key x) l.
Proof.
  induction 1 as [|x l Hl IH Hhd]; constructor; [done|].
  destruct Hhd; constructor. by apply Z.leb_le.
Qed.

(** A budget of the caller's month, when budgets track the expenses, has
    as [current_spent] the sum of the caller's expenses of its category and
    month. *)
Lemma month_budget_tracks uid mk s i b :
  reconciled s -> budgets s !! i = Some b -> b_user b = uid -> b_month b = mk ->
  b_spent b = spent_of (expenses s) uid (b_category b) mk.
Proof. intros Hr Hi <- <-. exact (Hr i b Hi). Qed.

Lemma month_rows_tracks uid mk s b :
  reconciled s -> b ∈ month_rows uid mk s -> b_spent b = spent_of (expenses s) uid (b_category b) mk.
Proof.
  intros Hr Hb. unfold month_rows in Hb. apply list_elem_of_filter in Hb as [Hk Hb].
  apply list_elem_of_fmap in Hb as ([i b'] & -> & Hi). apply elem_of_map_to_list in Hi.
  simpl in *. destruct (b_user b' =? uid)%nat eqn:Hu, (b_month b' =? mk)%string eqn:Hm; try done.
  apply Nat.eqb_eq in Hu. apply String.eqb_eq in Hm. by apply (month_budget_tracks uid mk s i).
Qed.

(** C32: GET /budgets/overview/current answers what its two queries mean: the
    rows come in decreasing usage percentage, one per budget of the month when
    the rows are well formed, and the remaining total is the budget total
    minus the spent total; when every budget tracks its expenses, each row's
    usage percentage and remaining amount are those of the caller's expenses
    of its category and month, the spent total is the sum of those expenses,
    and the exceeded count is the number of the month's budgets whose expenses
    are above their limit. *)
Theorem budget_overview_totals cur_month uid s :
  let '(rows, sm) := budget_overview cur_month uid s in
  Sorted (fun x y : nat * budget * category * Z * Z => y.1.2 <= x.1.2) rows /\
  total_remaining sm = total_budget sm - total_spent sm /\
  (db_wf s -> length rows = total_budgets sm) /\
  (reconciled s ->
     (forall r u rem, (r, u, rem) ∈ rows ->
        let b := r.1.2 in
        let spent := spent_of (expenses s) uid (b_category b) cur_month in
        u = (if 0 <? b_limit b then decimal_div spent (b_limit b) 6 * 100 else 0) /\
        rem = b_limit b - spent) /\
     total_spent sm = zsum (fun b => spent_of (expenses s) uid (b_category b) cur_month)
                           (month_rows uid cur_month s) /\
     exceeded_budgets sm =
       length (filter (fun b => b_limit b <? spent_of (expenses s) uid (b_category b) cur_month)
                      (month_rows uid cur_month s))).
Proof.
  unfold budget_overview, summarize. simpl.
  split; [apply (sorted_leb (fun x : nat * budget * category * Z * Z => x.1.2)), sort_by_sorted;
          intros x y; rewrite Z.leb_gt, Z.leb_le; lia|].
  split; [apply zsum_sub|split].
  - intros Hwf. rewrite (Permutation_length (sort_by_perm _ _)), length_fmap, budget_join_length by done.
    unfold month_rows. apply (filter_snd_length (fun b => (b_user b =? uid)%nat && String.eqb (b_month b) cur_month)).
  - intros Hr. split; [|split].
    + intros [[i b] c] u rem Hin. rewrite (sort_by_perm _ _) in Hin.
      apply list_elem_of_fmap in Hin as ([[i' b'] c'] & [= <- <- <- -> ->] & Hin).
      apply elem_of_budget_join in Hin as (Hi & Hk & _). simpl in *.
      destruct (b_user b =? uid)%nat eqn:Hu, (b_month b =? cur_month)%string eqn:Hm; try done.
      apply Nat.eqb_eq in Hu. apply String.eqb_eq in Hm.
      unfold usage_percentage. by rewrite (month_budget_tracks uid cur_month s i b).
    + apply zsum_ext_in. intros b Hb. by apply month_rows_tracks.
    + f_equal. apply filter_ext_in. intros b Hb. by rewrite (month_rows_tracks uid cur_month s b).
Qed.

(** ** GET /expenses: the caller's matching rows, newest first *)

Lemma date_leb_total a b : date_leb a b = false -> date_leb b a = true.
Proof.
  unfold date_leb.
  destruct (Z.lt_trichotomy (d_year a) (d_year b)) as [Hy|[Hy|Hy]].
  - rewrite (proj2 (Z.ltb_lt _ _) Hy). discriminate.
  - rewrite Hy, Z.ltb_irrefl, Z.eqb_refl. simpl.
    destruct (Z.lt_trichotomy (d_month a) (d_month b)) as [Hm|[Hm|Hm]].
    + rewrite (proj2 (Z.ltb_lt _ _) Hm). discriminate.
    + rewrite Hm, Z.ltb_irrefl, Z.eqb_refl. simpl. rewrite !Z.leb_le, Z.leb_gt. lia.
    + intros _. rewrite (proj2 (Z.ltb_lt _ _) Hm). reflexivity.
  - intros _. rewrite (proj2 (Z.ltb_lt _ _) Hy). done.
Qed.

Lemma expense_newer_total a b : expense_newer a b = false -> expense_newer b a = true.
Proof.
  destruct a as [[i e] c], b as [[j f] d]. unfold expense_newer.
  rewrite (andb_comm (date_leb (e_date f) _)).
  destruct (date_leb (e_date e) (e_date f) && date_leb (e_date f) (e_date e)).
  - rewrite !Nat.leb_le, Nat.leb_gt. lia.
  - apply date_leb_total.
Qed.

Lemma elem_of_expense_join keep s i e c :
  (i, e, c) ∈ expense_join keep s <->
  expenses s !! i = Some e /\ keep e = true /\ categories s !! e_category e = Some c.
Proof.
  unfold expense_join. rewrite list_elem_of_omap. split.
  - intros ([i' e'] & Hin & Hf). apply elem_of_map_to_list in Hin. simpl in Hf.
    destruct (keep e') eqn:Hk; [|done].
    destruct (categories s !! e_category e') eqn:Hc; simplify_eq/=. done.
  - intros (Hi & Hk & Hc). exists (i, e). split; [by apply elem_of_map_to_list|].
    simpl. by rewrite Hk, Hc.
Qed.

(** C31: GET /expenses answers one page, the LIMIT/OFFSET window of a list
    sorted newest date first (then newest insert first) whose rows are the
    caller's own expenses that pass the date and category filters, each with
    its category; with well-formed rows no matching expense is missing from
    that list. *)
Theorem list_expenses_spec dp uid sd ed cid lim off s :
  let keep := expense_matches dp sd ed cid uid in
  exists all,
    fst (list_expenses dp uid sd ed cid lim off s) =
      Ok (limit_offset (expense_limit (default "50" lim)) (expense_offset (default "0" off)) all) /\
    Sorted (fun a b => expense_newer a b = true) all /\
    (forall i e c, (i, e, c) ∈ all ->
       expenses s !! i = Some e /\ categories s !! e_category e = Some c /\
       e_user e = uid /\ keep e = true) /\
    (db_wf s -> forall i e, expenses s !! i = Some e -> keep e = true ->
       exists c, (i, e, c) ∈ all).
Proof.
  intros keep. exists (sort_by expense_newer (expense_join keep s)).
  split; [done|split; [apply (sort_by_sorted _ expense_newer_total)|split]].
  - intros i e c Hin. rewrite (sort_by_perm _ _) in Hin.
    apply elem_of_expense_join in Hin as (Hi & Hk & Hc). repeat split; [done|done| |done].
    unfold keep, expense_matches in Hk. bool_to_prop. done.
  - intros (He & _) i e Hi Hk. destruct (He i e Hi) as (_ & [c Hc] & _).
    exists c. rewrite (sort_by_perm _ _). by apply elem_of_expense_join.
Qed.

(** ** Witnesses *)

Definition ex_expense_req : expense_req := mkExpenseReq 2 4500 (Some "lunch") (mkDate 2024 3 9).

Lemma db_wf_preserved_witness :
  db_wf ex_db /\
  db_wf (snd (update_progress 1 1 (Some 100)
                (snd (create_expense 1 ex_expense_req ex_db)))).
Proof.
  assert (H0 : db_wf ex_db) by (apply (bool_decide_unpack _); vm_compute; reflexivity).
  split; [exact H0|].
  apply (db_wf_preserved 0 (mkDate 2024 3 9) "2024-03" (fun _ => None) (fun _ _ => None) ex_db);
    [exact H0|].
  eapply star_step; [apply app_ledger, ls_create_expense|].
  eapply star_step; [apply app_goal, step_progress|]. apply star_refl.
Defined.

Lemma budget_overview_totals_witness :
  db_wf ex_db /\ reconciled ex_db /\
  total_spent (budget_overview "2024-03" 1 ex_db).2 = 12000 /\
  length (budget_overview "2024-03" 1 ex_db).1 = 1%nat.
Proof.
  assert (Hw : db_wf ex_db) by (apply (bool_decide_unpack _); vm_compute; reflexivity).
  assert (Hr : reconciled ex_db) by (apply reconciled_b_spec; vm_compute; reflexivity).
  pose proof (budget_overview_totals "2024-03" 1 ex_db) as Ht.
  destruct (budget_overview "2024-03" 1 ex_db) as [rows sm] eqn:E.
  destruct Ht as (_ & _ & Hlen & Hsp). simpl.
  split; [exact Hw|split; [exact Hr|split]].
  - rewrite (proj1 (proj2 (Hsp Hr))). vm_compute. reflexivity.
  - rewrite (Hlen Hw). change sm with (rows, sm).2. rewrite <- E. vm_compute. reflexivity.
Defined.

Lemma list_expenses_spec_witness :
  db_wf ex_db /\
  exists all,
    fst (list_expenses (fun _ => None) 1 None None (Some "2") None None ex_db) =
      Ok (limit_offset 50 0 all) /\
    exists c, (1%nat, mkExpense 1 2 12000 "groceries" (mkDate 2024 3 1), c) ∈ all.
Proof.
  assert (Hw : db_wf ex_db) by (apply (bool_decide_unpack _); vm_compute; reflexivity).
  split; [exact Hw|].
  destruct (list_expenses_spec (fun _ => None) 1 None None (Some "2") None None ex_db)
    as (all & Hres & _ & _ & Hcov).
  exists all. split; [exact Hres|]. apply (Hcov Hw); reflexivity.
Defined.
