(* ===== verification/Pool.v ===== *)
(** * The connection pool (config/database.ts) and its clients

    Every handler reaches MySQL through [database.query]
    (config/database.ts:39-47): take a connection from the mysql2 pool,
    [execute] one statement, and give the connection back in a [finally]
    block.  [database.testConnection] (lines 49-60), run by [startServer]
    (server.ts:68-85) and by the health-check script (scripts/health-check.ts),
    takes a connection, pings, and releases it only after a successful
    ping.  A failed ping is a fatal error of the connection: mysql2 ends it
    and removes it from the pool (a [PoolConnection] that ends or fails
    leaves its pool), and the oldest waiting caller runs [getConnection]
    again.  The pool is created with [connectionLimit: 10], [queueLimit: 0]
    and [waitForConnections: true] (lines 17-26).

    A [config] is the pool (connections created, connections free, the queue
    of waiting callers, closed or not) with the program point of every client
    call.  [pool_step] lets one client take one step, the environment
    choosing whether a new connection connects and whether a statement or
    a ping succeeds; concurrent requests are every interleaving of these
    steps.  [Database.close] ([pool.end()]) is a step of its own. *)

From S2P Require Import Spec2Rocq Store Reads.

(** ** Clients and the pool *)

(** What a client call does once it holds a connection. *)
Inductive task := QueryTask | TestTask.

(** The program point of a client call.  [Dropped] is a [testConnection]
    that returned [false] after a failed ping: the call is over, and its
    connection was destroyed, not released. *)
Inductive phase :=
  | Start (t : task)
  | Waiting (t : task)
  | Holding (t : task)
  | Finished (ok : bool)
  | Dropped.

#[export] Instance task_eq_dec : EqDecision task.
Proof. solve_decision. Defined.
#[export] Instance phase_eq_dec : EqDecision phase.
Proof. solve_decision. Defined.

(** The options of [mysql.createPool(dbConfig)] that decide when a caller
    waits. *)
Record pool_options := mkPoolOptions {
  wait_for_connections : bool;
  connection_limit : nat;
  queue_limit : nat
}.

Definition db_config : pool_options := mkPoolOptions true 10 0.

Record pool := mkPool {
  p_all : nat;            (* connections created and not removed *)
  p_free : nat;           (* idle connections *)
  p_queue : list nat;     (* callers waiting for a connection, oldest first *)
  p_closed : bool
}.

Record config := mkConfig { c_pool : pool; c_clients : gmap nat phase }.

Definition set_client (i : nat) (ph : phase) (c : config) : config :=
  mkConfig (c_pool c) (<[i := ph]> (c_clients c)).

Definition with_pool (p : pool) (i : nat) (ph : phase) (c : config) : config :=
  mkConfig p (<[i := ph]> (c_clients c)).

(** [pool.getConnection()]: a free connection if there is one, else a new
    one below the limit (whose connect may fail: the failed connection is
    dropped), else the caller waits in the queue. *)
Definition get_connection (connect_ok : bool) (i : nat) (t : task) (c : config) : config :=
  let p := c_pool c in
  if p_closed p then set_client i (Finished false) c
  else if (0 <? p_free p)%nat then
    with_pool (mkPool (p_all p) (pred (p_free p)) (p_queue p) false) i (Holding t) c
  else if (connection_limit db_config =? 0)%nat || (p_all p <? connection_limit db_config)%nat then
    if connect_ok then with_pool (mkPool (S (p_all p)) (p_free p) (p_queue p) false) i (Holding t) c
    else set_client i (Finished false) c
  else if negb (wait_for_connections db_config) then set_client i (Finished false) c
  else if (0 <? queue_limit db_config)%nat && (queue_limit db_config <=? length (p_queue p))%nat
  then set_client i (Finished false) c
  else with_pool (mkPool (p_all p) (p_free p) (p_queue p ++ [i]) false) i (Waiting t) c.

(** The oldest waiting caller receives the released connection. *)
Definition hand (ph : phase) : phase :=
  match ph with Waiting t => Holding t | _ => ph end.

(** [connection.release()]: to the oldest waiting caller, or back to the
    free connections. *)
Definition release_connection (c : config) : config :=
  let p := c_pool c in
  match p_queue p with
  | j :: q => mkConfig (mkPool (p_all p) (p_free p) q (p_closed p)) (alter hand j (c_clients c))
  | [] => mkConfig (mkPool (p_all p) (S (p_free p)) [] (p_closed p)) (c_clients c)
  end.

(** The caller [getConnection] queued goes back to asking for a connection. *)
Definition retry (ph : phase) : phase :=
  match ph with Waiting t => Start t | _ => ph end.

(** mysql2's [_removeConnection] of a connection that failed: it leaves the
    pool, and the oldest waiting caller runs [getConnection] again. *)
Definition remove_connection (c : config) : config :=
  let p := c_pool c in
  match p_queue p with
  | j :: q => mkConfig (mkPool (pred (p_all p)) (p_free p) q (p_closed p)) (alter retry j (c_clients c))
  | [] => mkConfig (mkPool (pred (p_all p)) (p_free p) [] (p_closed p)) (c_clients c)
  end.

(** [database.query]: [execute] succeeds or throws; the [finally] releases
    the connection either way. *)
Definition finish_query (ok : bool) (i : nat) (c : config) : config :=
  release_connection (set_client i (Finished ok) c).

(** [database.testConnection]: [ping], then [release]; a failed ping jumps
    to the [catch], which returns [false] without releasing, and mysql2
    removes the failed connection. *)
Definition finish_test (ping_ok : bool) (i : nat) (c : config) : config :=
  if ping_ok then release_connection (set_client i (Finished true) c)
  else remove_connection (set_client i Dropped c).

(** What the environment decides at a step. *)
Record env := mkEnv { connect_ok : bool; stmt_ok : bool }.

Definition client_step (o : env) (i : nat) (c : config) : option config :=
  match c_clients c !! i with
  | Some (Start t) => Some (get_connection (connect_ok o) i t c)
  | Some (Holding QueryTask) => Some (finish_query (stmt_ok o) i c)
  | Some (Holding TestTask) => Some (finish_test (stmt_ok o) i c)
  | _ => None
  end.

(** [database.close()]: [pool.end()] refuses every later [getConnection]. *)
Definition close_pool (c : config) : config :=
  let p := c_pool c in
  mkConfig (mkPool (p_all p) (p_free p) (p_queue p) true) (c_clients c).

Inductive pool_step : config -> config -> Prop :=
  | step_client o i c c' : client_step o i c = Some c' -> pool_step c c'
  | step_close c : pool_step c (close_pool c).

(** The pool before any call, with the client calls [cs] about to start. *)
Definition init_config (cs : gmap nat phase) : config := mkConfig (mkPool 0 0 [] false) cs.

(** ** The invariant *)

(** The calls that hold a connection, those that wait, and those whose
    connection was destroyed. *)
Definition holds (ph : phase) : bool :=
  match ph with Holding _ => true | _ => false end.
Definition waits (ph : phase) : bool :=
  match ph with Waiting _ => true | _ => false end.

Definition count_phase (f : phase -> bool) (cs : gmap nat phase) : nat :=
  count_where (fun _ ph => f ph) cs.

Definition waiting_at (cs : gmap nat phase) (i : nat) : bool :=
  match cs !! i with Some ph => waits ph | None => false end.

(** Every connection in use is held by exactly one call, but for [g]
    connections about to be released; the queue is the set of waiting calls,
    each once; nobody waits while a connection is free; and no more than
    [connectionLimit] connections exist. *)
Definition pool_inv_gap (g : nat) (c : config) : Prop :=
  let p := c_pool c in
  let cs := c_clients c in
  (p_free p <= p_all p <= connection_limit db_config)%nat /\
  (p_all p - p_free p = count_phase holds cs + g)%nat /\
  NoDup (p_queue p) /\
  Forall (fun i => waiting_at cs i = true) (p_queue p) /\
  length (p_queue p) = count_phase waits cs /\
  (p_queue p = [] \/ p_free p = 0%nat).

Definition pool_inv (c : config) : Prop := pool_inv_gap 0 c.

#[export] Instance pool_inv_dec c : Decision (pool_inv c).
Proof. unfold pool_inv, pool_inv_gap. apply _. Defined.

(** ** Counting the calls at a program point *)

Definition b2n (b : bool) : nat := if b then 1 else 0.

Lemma count_where_insert_new {V} P (m : gmap nat V) i v :
  m !! i = None -> count_where P (<[i:=v]> m) = (count_where P m + b2n (P i v))%nat.
Proof.
  intros Hi. unfold count_where. rewrite map_filter_insert. unfold b2n.
  case_decide as HP; simpl in HP.
  - rewrite HP, map_size_insert_None; [lia|]. by rewrite map_lookup_filter, Hi.
  - destruct (P i v); [done|]. by rewrite delete_id, Nat.add_0_r.
Qed.

Lemma count_where_insert {V} P (m : gmap nat V) i v w :
  m !! i = Some w ->
  (count_where P (<[i:=v]> m) + b2n (P i w) = count_where P m + b2n (P i v))%nat.
Proof.
  intros Hw. rewrite <- (insert_delete_id m i w Hw) at 2. rewrite <- insert_delete_eq.
  rewrite !count_where_insert_new by apply lookup_delete_eq. lia.
Qed.

Lemma count_phase_insert f cs i v w :
  cs !! i = Some w ->
  (count_phase f (<[i:=v]> cs) + b2n (f w) = count_phase f cs + b2n (f v))%nat.
Proof. apply (count_where_insert (fun _ ph => f ph)). Qed.

Lemma alter_as_insert {V} (g : V -> V) (m : gmap nat V) j w :
  m !! j = Some w -> alter g j m = <[j := g w]> m.
Proof.
  intros Hw. apply map_eq. intros k. destruct (decide (k = j)) as [->|Hne].
  - by rewrite lookup_alter_eq, lookup_insert_eq, Hw.
  - by rewrite lookup_alter_ne, lookup_insert_ne.
Qed.

(** ** The pool operations keep the invariant *)

Lemma queue_insert cs q i v w :
  Forall (fun j => waiting_at cs j = true) q -> cs !! i = Some w -> waits w = false ->
  Forall (fun j => waiting_at (<[i:=v]> cs) j = true) q.
Proof.
  intros Hq Hi Hw. eapply Forall_impl; [exact Hq|]. intros j Hj.
  destruct (decide (j = i)) as [->|Hne]; [unfold waiting_at in Hj; by rewrite Hi, Hw in Hj|].
  unfold waiting_at. by rewrite lookup_insert_ne.
Qed.

Lemma waiting_at_false cs i w : cs !! i = Some w -> waits w = false -> waiting_at cs i = false.
Proof. unfold waiting_at. by intros -> ->. Qed.

Lemma not_in_queue cs q i w :
  Forall (fun j => waiting_at cs j = true) q -> cs !! i = Some w -> waits w = false -> i ∉ q.
Proof.
  intros Hq Hi Hw Hin. rewrite Forall_forall in Hq. specialize (Hq i Hin).
  by rewrite (waiting_at_false cs i w) in Hq.
Qed.

(** A call moves between two program points that do not wait; the
    connections it holds move between the calls and the gap. *)
Lemma set_client_gap g g' c i v w :
  pool_inv_gap g c -> c_clients c !! i = Some w -> waits w = false -> waits v = false ->
  (g' + b2n (holds v) = g + b2n (holds w))%nat ->
  pool_inv_gap g' (set_client i v c).
Proof.
  intros (Hb & Hu & Hnd & Hq & Hl & Hf) Hi Hw Hv Hg.
  pose proof (count_phase_insert holds _ i v w Hi) as Ch.
  pose proof (count_phase_insert waits _ i v w Hi) as Cw.
  rewrite Hv, Hw in Cw. unfold b2n in *. unfold pool_inv_gap, set_client. simpl.
  split; [done|]. split; [lia|]. split; [done|].
  split; [by apply (queue_insert _ _ i v w)|]. split; [lia|done].
Qed.

Lemma waiting_at_true cs j : waiting_at cs j = true -> exists t, cs !! j = Some (Waiting t).
Proof.
  unfold waiting_at. destruct (cs !! j) as [[]|]; simpl; try discriminate. by eexists.
Qed.

(** The released connection goes to the oldest waiting call, or back to
    the free connections. *)
Lemma release_inv c : pool_inv_gap 1 c -> pool_inv (release_connection c).
Proof.
  intros (Hb & Hu & Hnd & Hq & Hl & Hf). unfold release_connection, pool_inv, pool_inv_gap.
  cbn [connection_limit db_config] in *.
  destruct (p_queue (c_pool c)) as [|j q] eqn:Eq; simpl.
  - split; [lia|]. split; [lia|]. split; [constructor|]. split; [constructor|]. split; [done|by left].
  - apply Forall_cons in Hq as [Hj Hq]. apply NoDup_cons in Hnd as [Hjq Hnd].
    destruct (waiting_at_true _ _ Hj) as [t Ht].
    rewrite (alter_as_insert _ _ _ _ Ht). simpl.
    pose proof (count_phase_insert holds _ j (Holding t) _ Ht) as Ch.
    pose proof (count_phase_insert waits _ j (Holding t) _ Ht) as Cw.
    unfold b2n in *. simpl in *. destruct Hf as [|Hf]; [done|].
    split; [lia|]. split; [lia|]. split; [done|]. split; [|split; [lia|by right]].
    rewrite Forall_forall in *. intros k Hk.
    destruct (decide (k = j)) as [->|Hne]; [done|].
    unfold waiting_at. rewrite lookup_insert_ne by done. by apply Hq.
Qed.

(** The failed connection leaves the pool; the oldest waiting call asks
    again. *)
Lemma remove_inv c : pool_inv_gap 1 c -> pool_inv (remove_connection c).
Proof.
  intros (Hb & Hu & Hnd & Hq & Hl & Hf). unfold remove_connection, pool_inv, pool_inv_gap.
  cbn [connection_limit db_config] in *.
  destruct (p_queue (c_pool c)) as [|j q] eqn:Eq; simpl.
  - split; [lia|]. split; [lia|]. split; [constructor|]. split; [constructor|]. split; [done|by left].
  - apply Forall_cons in Hq as [Hj Hq]. apply NoDup_cons in Hnd as [Hjq Hnd].
    destruct (waiting_at_true _ _ Hj) as [t Ht].
    rewrite (alter_as_insert _ _ _ _ Ht). simpl.
    pose proof (count_phase_insert holds _ j (Start t) _ Ht) as Ch.
    pose proof (count_phase_insert waits _ j (Start t) _ Ht) as Cw.
    unfold b2n in *. simpl in *. destruct Hf as [|Hf]; [done|].
    split; [lia|]. split; [lia|]. split; [done|]. split; [|split; [lia|by right]].
    rewrite Forall_forall in *. intros k Hk.
    destruct (decide (k = j)) as [->|Hne]; [done|].
    unfold waiting_at. rewrite lookup_insert_ne by done. by apply Hq.
Qed.

(** A starting call gets a connection, free or new. *)
Lemma take_connection_inv c i t a f cl :
  pool_inv c -> c_clients c !! i = Some (Start t) ->
  (f <= a <= connection_limit db_config)%nat ->
  (a - f = p_all (c_pool c) - p_free (c_pool c) + 1)%nat ->
  (p_queue (c_pool c) = [] \/ f = 0%nat) ->
  pool_inv (with_pool (mkPool a f (p_queue (c_pool c)) cl) i (Holding t) c).
Proof.
  intros (Hb & Hu & Hnd & Hq & Hl & Hf) Hi Ha Hd Hf'.
  pose proof (count_phase_insert holds _ i (Holding t) _ Hi) as Ch.
  pose proof (count_phase_insert waits _ i (Holding t) _ Hi) as Cw.
  unfold b2n in *. simpl in *. unfold pool_inv, pool_inv_gap, with_pool. simpl.
  split; [done|]. split; [lia|]. split; [done|].
  split; [by apply (queue_insert _ _ i _ (Start t))|]. split; [lia|done].
Qed.

(** A starting call joins the queue. *)
Lemma enqueue_inv c i t :
  pool_inv c -> c_clients c !! i = Some (Start t) -> p_free (c_pool c) = 0%nat ->
  pool_inv (with_pool (mkPool (p_all (c_pool c)) (p_free (c_pool c)) (p_queue (c_pool c) ++ [i]) false)
                      i (Waiting t) c).
Proof.
  intros (Hb & Hu & Hnd & Hq & Hl & Hf) Hi H0.
  pose proof (count_phase_insert holds _ i (Waiting t) _ Hi) as Ch.
  pose proof (count_phase_insert waits _ i (Waiting t) _ Hi) as Cw.
  pose proof (not_in_queue _ _ i _ Hq Hi eq_refl) as Hni.
  unfold b2n in *. simpl in *. unfold pool_inv, pool_inv_gap, with_pool. simpl.
  split; [done|]. split; [lia|]. split.
  { apply NoDup_app. split; [done|]. split; [|apply NoDup_singleton]. set_solver. }
  split.
  { apply Forall_app. split; [by apply (queue_insert _ _ i _ (Start t))|].
    apply Forall_singleton. unfold waiting_at. by rewrite lookup_insert_eq. }
  split; [rewrite length_app; simpl; lia|by right].
Qed.

Lemma get_connection_inv b c i t :
  pool_inv c -> c_clients c !! i = Some (Start t) -> pool_inv (get_connection b i t c).
Proof.
  intros Hs Hi. pose proof Hs as (Hb & Hu & _ & _ & _ & Hf).
  unfold get_connection. cbn [connection_limit wait_for_connections queue_limit db_config] in *.
  destruct (p_closed (c_pool c)); [by apply (set_client_gap 0 0 c i _ (Start t))|].
  destruct (0 <? p_free (c_pool c))%nat eqn:Hfree.
  - apply Nat.ltb_lt in Hfree. apply take_connection_inv; try done; cbn; try lia.
    destruct Hf; [by left|lia].
  - apply Nat.ltb_ge in Hfree. simpl.
    destruct (p_all (c_pool c) <? 10)%nat eqn:Hall; simpl.
    + apply Nat.ltb_lt in Hall. destruct b; [|by apply (set_client_gap 0 0 c i _ (Start t))].
      apply take_connection_inv; try done; cbn; try lia.
    + apply enqueue_inv; [done|done|lia].
Qed.

Lemma finish_query_inv ok c i :
  pool_inv c -> c_clients c !! i = Some (Holding QueryTask) -> pool_inv (finish_query ok i c).
Proof.
  intros Hs Hi. apply release_inv. by apply (set_client_gap 0 1 c i _ (Holding QueryTask)).
Qed.

Lemma finish_test_inv ok c i :
  pool_inv c -> c_clients c !! i = Some (Holding TestTask) -> pool_inv (finish_test ok i c).
Proof.
  intros Hs Hi. unfold finish_test. destruct ok.
  - apply release_inv. by apply (set_client_gap 0 1 c i _ (Holding TestTask)).
  - apply remove_inv. by apply (set_client_gap 0 1 c i _ (Holding TestTask)).
Qed.

Lemma pool_step_inv c c' : pool_inv c -> pool_step c c' -> pool_inv c'.
Proof.
  intros Hs Hst. destruct Hst as [o i c0 c1 Hstep|c0]; [|exact Hs].
  unfold client_step in Hstep. destruct (c_clients c0 !! i) as [[t|t|[]| |]|] eqn:Hi;
    simplify_eq.
  - by apply get_connection_inv.
  - by apply finish_query_inv.
  - by apply finish_test_inv.
Qed.

(** ** Schedules *)

(** A schedule lists the calls that step, in order, with what the
    environment decides at each step. *)
Fixpoint run (sched : list (env * nat)) (c : config) : option config :=
  match sched with
  | [] => Some c
  | (o, i) :: rest => match client_step o i c with Some c' => run rest c' | None => None end
  end.

Lemma run_star sched c c' : run sched c = Some c' -> star pool_step c c'.
Proof.
  revert c. induction sched as [|[o i] rest IH]; intros c Hr; simpl in Hr.
  - injection Hr as <-. apply star_refl.
  - destruct (client_step o i c) as [c1|] eqn:Hs; [|done].
    eapply star_step; [by apply (step_client o i)|]. by apply IH.
Qed.

(** ** Counting lemmas *)









(** ** The invariant holds of every reachable configuration *)

Lemma init_inv cs : map_Forall (fun _ ph => exists t, ph = Start t) cs -> pool_inv (init_config cs).
Proof.
  intros Hs.
  assert (Hz : forall f, f (Start QueryTask) = false -> f (Start TestTask) = false ->
                 count_phase f cs = 0%nat).
  { intros f Hq Ht. apply count_where_none. intros k v Hk.
    destruct (Hs k v Hk) as [[] ->]; done. }
  unfold pool_inv, pool_inv_gap. simpl. rewrite !Hz by done.
  split; [lia|]. split; [done|]. split; [constructor|]. split; [constructor|]. split; [done|by left].
Qed.

(** C8: From a fresh pool and any set of concurrent [database.query] and
    [testConnection] calls, every interleaving of their steps (and of
    [database.close]) keeps the pool consistent: at most [connectionLimit]
    (10) connections exist, every connection in use is held by exactly one
    call, the queue holds each waiting call once, and no call waits while a
    connection is free. *)
Theorem pool_inv_reachable cs c :
  map_Forall (fun _ ph => exists t, ph = Start t) cs ->
  star pool_step (init_config cs) c -> pool_inv c.
Proof.
  intros Hs Hstar. exact (star_invariant pool_step pool_inv pool_step_inv _ _ Hstar (init_inv cs Hs)).
Qed.

(** ** Which calls give their connection back *)


(** ** The callers of [testConnection] *)

(** What the health-check script reports, line by line. *)
Inductive hc_line :=
  | HcDbOk | HcDbFailed | HcCategories (n : Z) | HcTables (n : nat) | HcCompleted | HcFailed.

(** scripts/health-check.ts: [testConnection], then the count of the
    categories and [SHOW TABLES] ([None]: the query threw), then
    [database.close()] and [process.exit(0)] in every case. *)
Definition health_check (db_ok : bool) (count : option Z) (tables : option nat) : list hc_line * Z :=
  let first := if db_ok then HcDbOk else HcDbFailed in
  match count with
  | None => ([first; HcFailed], 0)
  | Some n =>
      match tables with
      | None => ([first; HcCategories n; HcFailed], 0)
      | Some k => ([first; HcCategories n; HcTables k; HcCompleted], 0)
      end
  end.

(** The health check exits with status 0 whatever fails, and reports a
    completed check after a failed connection test. *)
Lemma health_check_exit_zero db_ok count tables :
  snd (health_check db_ok count tables) = 0 /\
  fst (health_check false (Some 8) (Some 6%nat)) = [HcDbFailed; HcCategories 8; HcTables 6; HcCompleted].
Proof. split; [destruct db_ok, count, tables; reflexivity|reflexivity]. Qed.

Inductive server_state := Listening | Exited (code : Z).

(** [startServer] (server.ts:68-85): exit with status 1 unless
    [testConnection] returned [true]. *)
Definition start_server (db_ok : bool) : server_state :=
  if db_ok then Listening else Exited 1.

(** ** Witnesses *)

Definition ok_env : env := mkEnv true true.
Definition fail_env : env := mkEnv true false.

(** Three calls: a query, a [testConnection] whose ping fails, a query
    whose statement throws. *)
Definition ex_calls : gmap nat phase :=
  {[0%nat := Start QueryTask; 1%nat := Start TestTask; 2%nat := Start QueryTask]}.
Definition ex_sched : list (env * nat) :=
  [(ok_env, 0%nat); (ok_env, 1%nat); (ok_env, 2%nat); (fail_env, 1%nat); (fail_env, 2%nat); (ok_env, 0%nat)].
Definition ex_final : config := default (init_config ∅) (run ex_sched (init_config ex_calls)).

Lemma ex_calls_start : map_Forall (fun _ ph => exists t, ph = Start t) ex_calls.
Proof.
  unfold ex_calls. repeat apply map_Forall_insert_2; try (eexists; reflexivity).
  apply map_Forall_empty.
Qed.

Lemma pool_inv_reachable_witness : pool_inv ex_final.
Proof.
  apply (pool_inv_reachable ex_calls); [exact ex_calls_start|].
  apply (run_star ex_sched). vm_compute. reflexivity.
Defined.


