(* ===== verification/Server.v ===== *)
(** * The Express application (server.ts): middleware order and routing

    [app] runs, in order: [helmet()], [cors(...)] (which answers every
    OPTIONS preflight itself), the rate limiter (at most 100 requests per IP
    in a 15-minute window, express-rate-limit's memory store), the body
    parsers, [GET /health], the six routers mounted under [/api/...], the
    catch-all 404 handler and the error handler.

    A router is its list of routes in declaration order, each a method, a
    path pattern of literal and [:param] segments, and whether
    [authenticateToken] guards it.  Express's matching is modelled as the
    code configures it: case-insensitive literals, an optional trailing
    slash, a parameter matching one non-empty segment, the first matching
    route winning.  Percent-decoding of parameters is not modelled. *)

From Stdlib Require Import Ascii.
From S2P Require Import Spec2Rocq Query.

(** ** Requests and routes *)

Inductive http_method := GET | POST | PUT | PATCH | DELETE | HEAD | OPTIONS.

#[export] Instance http_method_eq_dec : EqDecision http_method.
Proof. solve_decision. Defined.

Inductive seg := Lit (s : string) | Param (name : string).

(** The handler a route runs, one per route of the code. *)
Inductive endpoint :=
  | Health
  | AuthRegister | AuthVerifyOtp | AuthLogin | AuthForgotPassword | AuthResetPassword
  | ExpenseList | ExpenseGet | ExpenseCreate | ExpenseUpdate | ExpenseDelete | ExpenseStats
  | GoalList | GoalGet | GoalCreate | GoalUpdate | GoalProgress | GoalDelete | GoalStats
  | BudgetList | BudgetGet | BudgetCreate | BudgetUpdate | BudgetDelete | BudgetOverview
  | BudgetMissing
  | AiRecommend | AiInsights | AiGoalAdvice | AiList | AiRead | AiDelete | AiCategories
  | CategoryList.

#[export] Instance endpoint_eq_dec : EqDecision endpoint.
Proof. solve_decision. Defined.

#[export] Instance seg_eq_dec : EqDecision seg.
Proof. solve_decision. Defined.

Record route := mkRoute {
  r_method : http_method;
  r_path : list seg;
  r_auth : bool;          (* [authenticateToken] in the route's middleware *)
  r_endpoint : endpoint
}.

#[export] Instance route_eq_dec : EqDecision route.
Proof. solve_decision. Defined.

(** routes/auth.ts *)
Definition auth_routes : list route := [
  mkRoute POST [Lit "register"] false AuthRegister;
  mkRoute POST [Lit "verify-otp"] false AuthVerifyOtp;
  mkRoute POST [Lit "login"] false AuthLogin;
  mkRoute POST [Lit "forgot-password"] false AuthForgotPassword;
  mkRoute POST [Lit "reset-password"] false AuthResetPassword ].

(** routes/expenses.ts *)
Definition expense_routes : list route := [
  mkRoute GET [] true ExpenseList;
  mkRoute GET [Param "id"] true ExpenseGet;
  mkRoute POST [] true ExpenseCreate;
  mkRoute PUT [Param "id"] true ExpenseUpdate;
  mkRoute DELETE [Param "id"] true ExpenseDelete;
  mkRoute GET [Lit "stats"; Lit "summary"] true ExpenseStats ].

(** routes/goals.ts *)
Definition goal_routes : list route := [
  mkRoute GET [] true GoalList;
  mkRoute GET [Param "id"] true GoalGet;
  mkRoute POST [] true GoalCreate;
  mkRoute PUT [Param "id"] true GoalUpdate;
  mkRoute PATCH [Param "id"; Lit "progress"] true GoalProgress;
  mkRoute DELETE [Param "id"] true GoalDelete;
  mkRoute GET [Lit "stats"; Lit "summary"] true GoalStats ].

(** routes/budgets.ts *)
Definition budget_routes : list route := [
  mkRoute GET [] true BudgetList;
  mkRoute GET [Param "id"] true BudgetGet;
  mkRoute POST [] true BudgetCreate;
  mkRoute PUT [Param "id"] true BudgetUpdate;
  mkRoute DELETE [Param "id"] true BudgetDelete;
  mkRoute GET [Lit "overview"; Lit "current"] true BudgetOverview;
  mkRoute GET [Lit "missing"; Param "monthYear"] true BudgetMissing ].

(** routes/ai.ts *)
Definition ai_routes : list route := [
  mkRoute POST [Lit "recommendations"; Lit "budgeting"] true AiRecommend;
  mkRoute POST [Lit "insights"; Lit "spending"] true AiInsights;
  mkRoute POST [Lit "advice"; Lit "goal"; Param "goalId"] true AiGoalAdvice;
  mkRoute GET [Lit "recommendations"] true AiList;
  mkRoute PATCH [Lit "recommendations"; Param "id"; Lit "read"] true AiRead;
  mkRoute DELETE [Lit "recommendations"; Param "id"] true AiDelete;
  mkRoute GET [Lit "categories"] false AiCategories ].

(** routes/categories.ts *)
Definition category_routes : list route := [mkRoute GET [] false CategoryList].

(** [app.use(prefix, router)]. *)
Definition mount (prefix : list string) (rs : list route) : list route :=
  (fun r => mkRoute (r_method r) ((Lit <$> prefix) ++ r_path r) (r_auth r) (r_endpoint r)) <$> rs.

(** The routes of [app], in the order server.ts installs them. *)
Definition app_routes : list route :=
  mkRoute GET [Lit "health"] false Health ::
  mount ["api"; "auth"] auth_routes ++
  mount ["api"; "expenses"] expense_routes ++
  mount ["api"; "goals"] goal_routes ++
  mount ["api"; "budgets"] budget_routes ++
  mount ["api"; "ai"] ai_routes ++
  mount ["api"; "categories"] category_routes.

(** ** Matching a path *)

Definition ascii_lower (c : ascii) : ascii :=
  let n := nat_of_ascii c in
  if (65 <=? n)%nat && (n <=? 90)%nat then ascii_of_nat (n + 32) else c.

Fixpoint lower (s : string) : string :=
  match s with
  | EmptyString => EmptyString
  | String c rest => String (ascii_lower c) (lower rest)
  end.

(** Literal segments compare without regard to case. *)
Definition seg_eq_ci (a b : string) : bool := String.eqb (lower a) (lower b).

(** The segments of a path: split at each [/]; the leading [/] gives an
    empty first segment, and one trailing [/] is ignored. *)
Fixpoint split_slash (s : string) (cur : string) : list string :=
  match s with
  | EmptyString => [cur]
  | String c rest =>
      if Ascii.eqb c "/" then cur :: split_slash rest "" else split_slash rest (cur +:+ String c "")
  end.

Definition path_segments (path : string) : option (list string) :=
  match split_slash path "" with
  | "" :: segs =>
      Some (match rev segs with "" :: r => rev r | _ => segs end)
  | _ => None
  end.

(** A pattern against segments: the parameter values, if it matches. *)
Fixpoint match_segs (pat : list seg) (segs : list string) : option (list string) :=
  match pat, segs with
  | [], [] => Some []
  | Lit l :: pat', s :: segs' => if seg_eq_ci l s then match_segs pat' segs' else None
  | Param _ :: pat', s :: segs' =>
      if String.eqb s "" then None else (cons s) <$> match_segs pat' segs'
  | _, _ => None
  end.

(** Express runs GET routes for HEAD requests. *)
Definition method_matches (route_m m : http_method) : bool :=
  bool_decide (route_m = m) || (bool_decide (route_m = GET) && bool_decide (m = HEAD)).

Definition route_matches (m : http_method) (segs : list string) (r : route) : bool :=
  method_matches (r_method r) m && bool_decide (is_Some (match_segs (r_path r) segs)).

(** The first route that matches, with its parameters. *)
Fixpoint first_route (m : http_method) (segs : list string) (rs : list route)
    : option (route * list string) :=
  match rs with
  | [] => None
  | r :: rs' =>
      if method_matches (r_method r) m then
        match match_segs (r_path r) segs with
        | Some ps => Some (r, ps)
        | None => first_route m segs rs'
        end
      else first_route m segs rs'
  end.

(** ** The rate limiter (server.ts:27-33)

    express-rate-limit's memory store keeps, per client IP, the number of
    hits and the time its window ends; a hit after that time starts a new
    window.  A request is refused (429) when its hit is beyond [max]. *)

Definition window_ms : Z := 15 * 60 * 1000.
Definition max_hits : nat := 100.

Record hit := mkHit { h_count : nat; h_reset : Z }.

Definition limiter_hit (now : Z) (ip : string) (st : gmap string hit) : bool * gmap string hit :=
  let h := match st !! ip with
           | Some h => if h_reset h <=? now then mkHit 0 (now + window_ms) else h
           | None => mkHit 0 (now + window_ms)
           end in
  let h' := mkHit (S (h_count h)) (h_reset h) in
  ((h_count h' <=? max_hits)%nat, <[ip := h']> st).

(** ** Serving a request *)

Record request := mkRequest {
  rq_method : http_method;
  rq_path : string;
  rq_ip : string;
  rq_time : Z               (* [Date.now()] in milliseconds *)
}.

Inductive response :=
  | Preflight                                            (* cors: 204 to OPTIONS *)
  | TooManyRequests                                      (* the limiter's 429 *)
  | Routed (e : endpoint) (auth : bool) (params : list string)
  | NotFound404.                                         (* app.use('*', ...) *)

#[export] Instance response_eq_dec : EqDecision response.
Proof. solve_decision. Defined.

(** The answer of the routers: the first matching route, else the 404 handler. *)
Definition dispatch (r : request) : response :=
  match path_segments (rq_path r) ≫= fun segs => first_route (rq_method r) segs app_routes with
  | Some (rt, ps) => Routed (r_endpoint rt) (r_auth rt) ps
  | None => NotFound404
  end.
Arguments dispatch : simpl never.

Definition serve (st : gmap string hit) (r : request) : response * gmap string hit :=
  if bool_decide (rq_method r = OPTIONS) then (Preflight, st)
  else
    let '(pass, st') := limiter_hit (rq_time r) (rq_ip r) st in
    if negb pass then (TooManyRequests, st')
    else (dispatch r, st').

(** The responses to a sequence of requests. *)
Fixpoint serve_all (st : gmap string hit) (rs : list request) : list response * gmap string hit :=
  match rs with
  | [] => ([], st)
  | r :: rs' =>
      let '(resp, st') := serve st r in
      let '(resps, st'') := serve_all st' rs' in
      (resp :: resps, st'')
  end.

(** ** Two routes that can match the same request *)

Definition methods_overlap (a b : http_method) : bool :=
  bool_decide (a = b) || (bool_decide (a = GET) && bool_decide (b = HEAD)) ||
  (bool_decide (a = HEAD) && bool_decide (b = GET)).

(** A parameter matches every non-empty segment, a literal only itself. *)
Fixpoint segs_overlap (p q : list seg) : bool :=
  match p, q with
  | [], [] => true
  | Lit a :: p', Lit b :: q' => seg_eq_ci a b && segs_overlap p' q'
  | _ :: p', _ :: q' => segs_overlap p' q'
  | _, _ => false
  end.

Definition routes_overlap (r1 r2 : route) : bool :=
  methods_overlap (r_method r1) (r_method r2) && segs_overlap (r_path r1) (r_path r2).

Fixpoint pairwise_disjoint (rs : list route) : bool :=
  match rs with
  | [] => true
  | r :: rs' => forallb (fun r' => negb (routes_overlap r r')) rs' && pairwise_disjoint rs'
  end.

Lemma methods_overlap_sound a b m :
  method_matches a m = true -> method_matches b m = true -> methods_overlap a b = true.
Proof.
  unfold method_matches, methods_overlap.
  destruct a, b, m; vm_compute; try done; intros; try discriminate.
Qed.

Lemma segs_overlap_sound p q segs ps qs :
  match_segs p segs = Some ps -> match_segs q segs = Some qs -> segs_overlap p q = true.
Proof.
  revert q segs ps qs. induction p as [|[a|x] p IH]; intros [|[b|y] q] [|s segs] ps qs; simpl;
    try discriminate; try done.
  - unfold seg_eq_ci. destruct (String.eqb_spec (lower a) (lower s)) as [Ha|]; [|done].
    destruct (String.eqb_spec (lower b) (lower s)) as [Hb|]; [|done].
    rewrite Ha, Hb, String.eqb_refl. simpl. eauto.
  - destruct (seg_eq_ci a s); [|done]. destruct (String.eqb s ""); [done|].
    destruct (match_segs q segs) eqn:E; [|done]. eauto.
  - destruct (String.eqb s ""); [done|]. destruct (match_segs p segs) eqn:E; [|done].
    destruct (seg_eq_ci b s); [|done]. eauto.
  - destruct (String.eqb s ""); [done|].
    destruct (match_segs p segs) eqn:E1, (match_segs q segs) eqn:E2; try done. eauto.
Qed.

Lemma routes_overlap_sound m segs r1 r2 :
  route_matches m segs r1 = true -> route_matches m segs r2 = true -> routes_overlap r1 r2 = true.
Proof.
  unfold route_matches, routes_overlap. rewrite !andb_true_iff, !bool_decide_eq_true.
  intros [Hm1 [p1 Hp1]] [Hm2 [p2 Hp2]].
  rewrite (methods_overlap_sound _ _ m), (segs_overlap_sound _ _ segs p1 p2); done.
Qed.

Lemma first_route_unique m segs rs r :
  pairwise_disjoint rs = true -> r ∈ rs -> route_matches m segs r = true ->
  exists ps, match_segs (r_path r) segs = Some ps /\ first_route m segs rs = Some (r, ps).
Proof.
  induction rs as [|r0 rs IH]; intros Hd Hin Hm; [set_solver|].
  simpl in Hd. apply andb_true_iff in Hd as [Hall Hd]. rewrite forallb_forall in Hall.
  pose proof Hm as Hm'. unfold route_matches in Hm'. apply andb_true_iff in Hm' as [Hmm Hs].
  apply bool_decide_eq_true in Hs as [ps Hps].
  apply elem_of_cons in Hin as [->|Hin].
  - exists ps. simpl. by rewrite Hmm, Hps.
  - simpl. destruct (method_matches (r_method r0) m) eqn:E0;
      [destruct (match_segs (r_path r0) segs) as [ps0|] eqn:Es0|]; try by apply IH.
    exfalso. assert (Hov : routes_overlap r0 r = true).
    { apply (routes_overlap_sound m segs); [|done]. unfold route_matches.
      rewrite E0, Es0. done. }
    specialize (Hall r (proj1 (list_elem_of_In _ _) Hin)). by rewrite Hov in Hall.
Qed.

Lemma app_routes_disjoint : pairwise_disjoint app_routes = true.
Proof. vm_compute. reflexivity. Qed.

(** C27: The route table of the application is unambiguous: whenever a route
    matches a request (method and path, literals compared without case, a GET
    route also serving HEAD), Express's first-match dispatch runs that very
    route, so the order in which server.ts and the routers declare their
    routes never decides which handler answers. *)
Theorem routes_unambiguous m segs r :
  r ∈ app_routes -> route_matches m segs r = true ->
  exists ps, first_route m segs app_routes = Some (r, ps).
Proof.
  intros Hin Hm. destruct (first_route_unique m segs app_routes r app_routes_disjoint Hin Hm)
    as (ps & _ & Hf). by exists ps.
Qed.

(** ** Which routes need a token *)

(** The handlers the code runs without [authenticateToken]: the health
    check, the five account routes, and the two category lists. *)
Definition public_endpoint (e : endpoint) : bool :=
  match e with
  | Health | AuthRegister | AuthVerifyOtp | AuthLogin | AuthForgotPassword | AuthResetPassword
  | AiCategories | CategoryList => true
  | _ => false
  end.

Lemma first_route_elem m segs rs r ps : first_route m segs rs = Some (r, ps) -> r ∈ rs.
Proof.
  induction rs as [|r0 rs IH]; [done|]. cbn [first_route].
  destruct (method_matches (r_method r0) m); [destruct (match_segs (r_path r0) segs)|];
    [intros [= -> _]; left|intros ?; right; auto..].
Qed.

Lemma serve_routed st r e a ps st' :
  serve st r = (Routed e a ps, st') ->
  exists rt, rt ∈ app_routes /\ r_endpoint rt = e /\ r_auth rt = a.
Proof.
  unfold serve. case_bool_decide; [done|].
  destruct (limiter_hit (rq_time r) (rq_ip r) st) as [[] st'']; cbn [negb]; [|done].
  intros [= Hd _]. revert Hd. unfold dispatch.
  destruct (path_segments (rq_path r)) as [segs|]; cbn [mbind option_bind]; [|done].
  destruct (first_route (rq_method r) segs app_routes) as [[rt qs]|] eqn:Ef; [|done].
  intros [= <- <- _]. exists rt. split; [|done]. by eapply first_route_elem.
Qed.

Lemma app_routes_guarded :
  forallb (fun rt => r_auth rt || public_endpoint (r_endpoint rt)) app_routes = true.
Proof. vm_compute. reflexivity. Qed.

(** C28: Every request the application answers from a route handler without
    running [authenticateToken] reaches a public handler: the health check,
    register, verify-otp, login, forgot-password, reset-password or one of the
    two category lists. Every route that reads or writes a user's expenses,
    budgets, goals or recommendations is guarded. *)
Theorem unguarded_only_public st r e ps st' :
  serve st r = (Routed e false ps, st') -> public_endpoint e = true.
Proof.
  intros Hs. destruct (serve_routed st r e false ps st' Hs) as (rt & Hin & <- & Ha).
  pose proof app_routes_guarded as Hg. rewrite forallb_forall in Hg.
  specialize (Hg rt (proj1 (list_elem_of_In _ _) Hin)). by rewrite Ha in Hg.
Qed.

(** ** The rate limiter over a window *)

(** The responses that are not the limiter's 429. *)
Definition passed (resps : list response) : nat :=
  length (filter (fun resp => resp <> TooManyRequests) resps).

Lemma passed_cons resp resps :
  passed (resp :: resps) = ((if bool_decide (resp = TooManyRequests) then 0 else 1) + passed resps)%nat.
Proof. unfold passed. rewrite filter_cons. by case_decide; case_bool_decide. Qed.

Lemma serve_limited st r :
  rq_method r <> OPTIONS ->
  snd (serve st r) = snd (limiter_hit (rq_time r) (rq_ip r) st) /\
  (fst (serve st r) = TooManyRequests <-> fst (limiter_hit (rq_time r) (rq_ip r) st) = false).
Proof.
  intros Hm. unfold serve. rewrite bool_decide_eq_false_2 by done.
  destruct (limiter_hit (rq_time r) (rq_ip r) st) as [[] st']; cbn [negb fst snd]; [|done].
  split; [done|]. split; [|done]. unfold dispatch. by case_match; [case_match; subst|].
Qed.

(** Inside a window that holds [k] hits, the next requests of the IP pass
    while the count stays within [max]. *)
Lemma limiter_window st ip k reset rs :
  st !! ip = Some (mkHit k reset) ->
  Forall (fun r => rq_ip r = ip /\ rq_method r <> OPTIONS /\ rq_time r < reset) rs ->
  passed (fst (serve_all st rs)) = (Nat.min (k + length rs) max_hits - Nat.min k max_hits)%nat.
Proof.
  revert st k. induction rs as [|r rs IH]; intros st k Hst Hrs.
  { cbn [serve_all fst length]. rewrite Nat.add_0_r, Nat.sub_diag. done. }
  apply Forall_cons in Hrs as [(Hip & Hm & Ht) Hrs].
  destruct (serve_limited st r Hm) as [Hsnd Hfst].
  cbn [serve_all]. destruct (serve st r) as [resp st'] eqn:Es. simpl in Hsnd, Hfst.
  destruct (serve_all st' rs) as [resps st''] eqn:Ea.
  unfold limiter_hit in Hsnd, Hfst. rewrite Hip, Hst in Hsnd, Hfst. simpl in Hsnd, Hfst.
  rewrite (proj2 (Z.leb_gt _ _) Ht) in Hsnd, Hfst. simpl in Hsnd, Hfst.
  specialize (IH st' (S k)). rewrite Ea in IH. simpl in IH.
  cbn [fst]. rewrite passed_cons, IH; [|subst st'; by rewrite lookup_insert_eq|done].
  cbn [length]. unfold max_hits in *. case_bool_decide as He.
  - apply Hfst, Nat.leb_gt in He. lia.
  - destruct (k <=? 99)%nat eqn:Hle; [apply Nat.leb_le in Hle; lia|].
    by destruct He; apply Hfst.
Qed.

(** C29: The rate limiter lets through exactly [min n 100] of [n] requests
    that one IP sends within 15 minutes of the first of them, when that first
    request opens a new window: the 101st and every later request of the
    window is answered 429, and no earlier one is. *)
Theorem rate_limit_window st ip r0 rs :
  (forall h, st !! ip = Some h -> h_reset h <= rq_time r0) ->
  Forall (fun r => rq_ip r = ip /\ rq_method r <> OPTIONS) (r0 :: rs) ->
  Forall (fun r => rq_time r < rq_time r0 + window_ms) rs ->
  passed (fst (serve_all st (r0 :: rs))) = Nat.min (S (length rs)) max_hits.
Proof.
  intros Hfresh Hall Htimes. apply Forall_cons in Hall as [(Hip & Hm) Hall].
  destruct (serve_limited st r0 Hm) as [Hsnd Hfst].
  cbn [serve_all]. destruct (serve st r0) as [resp st'] eqn:Es. simpl in Hsnd, Hfst.
  destruct (serve_all st' rs) as [resps st''] eqn:Ea.
  assert (Hst' : st' !! ip = Some (mkHit 1 (rq_time r0 + window_ms))).
  { rewrite Hsnd. unfold limiter_hit. rewrite Hip. destruct (st !! ip) as [h|] eqn:Eh; simpl.
    - specialize (Hfresh h eq_refl). rewrite (proj2 (Z.leb_le _ _) Hfresh). simpl.
      by rewrite lookup_insert_eq.
    - by rewrite lookup_insert_eq. }
  assert (Hpass : resp <> TooManyRequests).
  { intros He. apply Hfst in He. unfold limiter_hit in He. rewrite Hip in He.
    destruct (st !! ip) as [h|] eqn:Eh; [rewrite (proj2 (Z.leb_le _ _) (Hfresh h eq_refl)) in He|];
      done. }
  pose proof (limiter_window st' ip 1 (rq_time r0 + window_ms) rs Hst') as Hw.
  rewrite Ea in Hw. cbn [fst] in Hw |- *.
  rewrite passed_cons, bool_decide_eq_false_2 by done.
  rewrite Hw; [cbn [length]; unfold max_hits; lia|].
  rewrite Forall_forall in Hall, Htimes |- *. intros x Hx.
  destruct (Hall x Hx). auto.
Qed.

(** ** Witnesses *)

(** [GET /api/expenses/:id] of routes/expenses.ts, as mounted. *)
Definition ex_route : route := mkRoute GET [Lit "api"; Lit "expenses"; Param "id"] true ExpenseGet.

Lemma routes_unambiguous_witness :
  ex_route ∈ app_routes /\ route_matches HEAD ["api"; "Expenses"; "42"] ex_route = true /\
  exists ps, first_route HEAD ["api"; "Expenses"; "42"] app_routes = Some (ex_route, ps).
Proof.
  assert (Hin : ex_route ∈ app_routes) by (apply (bool_decide_unpack _); vm_compute; exact I).
  assert (Hm : route_matches HEAD ["api"; "Expenses"; "42"] ex_route = true) by reflexivity.
  split; [exact Hin|split; [exact Hm|]].
  exact (routes_unambiguous HEAD ["api"; "Expenses"; "42"] ex_route Hin Hm).
Defined.

Definition ex_request : request := mkRequest GET "/api/expenses" "10.0.0.1" 0.

(** 151 requests at the same instant: 100 pass, 51 are refused. *)
Lemma rate_limit_window_witness :
  passed (fst (serve_all ∅ (ex_request :: replicate 150 ex_request))) = 100%nat.
Proof.
  rewrite (rate_limit_window ∅ "10.0.0.1" ex_request (replicate 150 ex_request)).
  - rewrite length_replicate. reflexivity.
  - intros h Hh. rewrite lookup_empty in Hh. discriminate.
  - constructor; [split; [reflexivity|discriminate]|].
    apply Forall_replicate. split; [reflexivity|discriminate].
  - apply Forall_replicate. vm_compute. reflexivity.
Defined.

Definition ex_category_request : request := mkRequest GET "/api/categories/" "10.0.0.2" 0.

Lemma unguarded_only_public_witness :
  serve ∅ ex_category_request = (Routed CategoryList false [], <[ "10.0.0.2" := mkHit 1 window_ms ]> ∅) /\
  public_endpoint CategoryList = true.
Proof.
  assert (Hs : serve ∅ ex_category_request =
               (Routed CategoryList false [], <[ "10.0.0.2" := mkHit 1 window_ms ]> ∅))
    by (vm_compute; reflexivity).
  split; [exact Hs|exact (unguarded_only_public _ _ _ _ _ Hs)].
Defined.
